(** * Traffic tracker service: a shallow embedding of [lambda_function.py]

    The development follows the layout of the Python module.

    - [F64]: IEEE 754 binary64 arithmetic with round-to-nearest-even, the
      arithmetic of Python's [float].
    - [Py]: the fragment of the Python runtime the handler relies on:
      objects produced by [json.loads], exceptions and their class
      hierarchy, subscripting, numeric operators, [divmod], [str] and
      [format(x, '.2f')].
    - the functions of the module over an error-and-state monad that
      records calls to the upstream API, S3, SNS and the logger;
      [get_secret], which the handler does not call, comes after them.
    - the properties of the specification, one theorem per claim, and
      further properties of the module: its calls and logs, its failures
      and the edge values of the derivations. *)

From Stdlib Require Import ZArith List String Ascii Bool Lia.
From Stdlib Require Import Reals Lra Psatz.
Import ListNotations.
Set Warnings "-register-all".
Local Open Scope Z_scope.

(** ** Binary64 floating point *)

Module F64.

(** A float is a NaN, a signed infinity, or a signed dyadic number
    [(-1)^neg * m * 2^e]. Zeros are [Fin neg 0 emin]. *)
Inductive float : Type :=
| NaN
| Inf (neg : bool)
| Fin (neg : bool) (m e : Z).

Definition emin : Z := -1074.
Definition emax : Z := 971.

(** Representable numbers: 53-bit mantissa, exponent within range, and the
    mantissa normalised unless the exponent is minimal. *)
Definition canonical (m e : Z) : Prop :=
  0 <= m < 2 ^ 53 /\ emin <= e <= emax /\ (2 ^ 52 <= m \/ e = emin).

(** A dyadic number that fits the format, normalised or not. *)
Definition representable (M E : Z) : Prop :=
  0 <= M < 2 ^ 53 /\ emin <= E <= emax.

Definition finite (x : float) : bool :=
  match x with Fin _ _ _ => true | _ => false end.

Definition well_formed (x : float) : Prop :=
  match x with Fin _ m e => canonical m e | _ => True end.

(** [scale n d e] is the fraction [n/d / 2^e]. *)
Definition scale (n d e : Z) : Z * Z :=
  if 0 <=? e then (n, d * 2 ^ e) else (n * 2 ^ (- e), d).

(** Nearest integer to [N/D], ties to even. *)
Definition rne (N D : Z) : Z :=
  let q := N / D in
  let r := N mod D in
  match 2 * r ?= D with
  | Lt => q
  | Gt => q + 1
  | Eq => if Z.even q then q else q + 1
  end.

(** [floor (log2 (n/d))] for positive [n] and [d]. *)
Definition ilog2 (n d : Z) : Z :=
  let k := Z.log2 n - Z.log2 d in
  let (N, D) := scale n d k in
  if D <=? N then k else k - 1.

(** Rounding of the non-negative rational [n/d], with sign [neg], to the
    nearest binary64 number; overflow gives an infinity. *)
Definition round (neg : bool) (n d : Z) : float :=
  if n =? 0 then Fin neg 0 emin
  else
    let e := Z.max (ilog2 n d - 52) emin in
    let (N, D) := scale n d e in
    let m := rne N D in
    let (m', e') := if m =? 2 ^ 53 then (2 ^ 52, e + 1) else (m, e) in
    if emax <? e' then Inf neg else Fin neg m' e'.

(** The exact value of a finite float as a signed fraction. *)
Definition num (neg : bool) (m e : Z) : Z :=
  let a := if 0 <=? e then m * 2 ^ e else m in
  if neg then - a else a.

Definition den (e : Z) : Z :=
  if 0 <=? e then 1 else 2 ^ (- e).

Definition round_signed (n d : Z) (zero_neg : bool) : float :=
  if n =? 0 then Fin zero_neg 0 emin
  else round (n <? 0) (Z.abs n) d.

Definition zero (neg : bool) : float := Fin neg 0 emin.

Definition is_zero (x : float) : bool :=
  match x with Fin _ m _ => m =? 0 | _ => false end.

Definition sign (x : float) : bool :=
  match x with Fin s _ _ | Inf s => s | NaN => false end.

Definition neg (x : float) : float :=
  match x with
  | NaN => NaN
  | Inf s => Inf (negb s)
  | Fin s m e => Fin (negb s) m e
  end.

Definition add (x y : float) : float :=
  match x, y with
  | NaN, _ | _, NaN => NaN
  | Inf s, Inf t => if Bool.eqb s t then Inf s else NaN
  | Inf s, _ | _, Inf s => Inf s
  | Fin s m e, Fin t m' e' =>
      round_signed (num s m e * den e' + num t m' e' * den e)
                   (den e * den e') (s && t)
  end.

Definition sub (x y : float) : float := add x (neg y).

Definition mul (x y : float) : float :=
  match x, y with
  | NaN, _ | _, NaN => NaN
  | Inf s, Inf t => Inf (xorb s t)
  | Inf s, Fin t m _ | Fin t m _, Inf s =>
      if m =? 0 then NaN else Inf (xorb s t)
  | Fin s m e, Fin t m' e' =>
      round_signed (num s m e * num t m' e') (den e * den e') (xorb s t)
  end.

(** Division; the quotient by a zero follows IEEE 754 (Python raises
    before it gets here, see [Py.truediv]). *)
Definition div (x y : float) : float :=
  match x, y with
  | NaN, _ | _, NaN => NaN
  | Inf _, Inf _ => NaN
  | Inf s, Fin t _ _ => Inf (xorb s t)
  | Fin s _ _, Inf t => zero (xorb s t)
  | Fin s m e, Fin t m' e' =>
      if m' =? 0 then (if m =? 0 then NaN else Inf (xorb s t))
      else round_signed
             ((if xorb s t then -1 else 1) * (Z.abs (num s m e) * den e'))
             (den e * Z.abs (num t m' e')) (xorb s t)
  end.

(** Conversion from an integer. *)
Definition of_Z (z : Z) : float := round_signed z 1 false.

(** Correctly rounded quotient of two integers, [b <> 0]. *)
Definition div_Z (a b : Z) : float :=
  round_signed (Z.sgn b * a) (Z.abs b) (xorb (a <? 0) (b <? 0)).

(** Exact comparison; [None] when one side is a NaN. *)
Definition compare (x y : float) : option comparison :=
  match x, y with
  | NaN, _ | _, NaN => None
  | Inf s, Inf t => Some (if Bool.eqb s t then Eq else if s then Lt else Gt)
  | Inf s, Fin _ _ _ => Some (if s then Lt else Gt)
  | Fin _ _ _, Inf t => Some (if t then Gt else Lt)
  | Fin s m e, Fin t m' e' =>
      Some (num s m e * den e' ?= num t m' e' * den e)
  end.

(** Exact comparison with an integer, as Python compares [float] and
    [int]. *)
Definition compare_Z (x : float) (z : Z) : option comparison :=
  match x with
  | NaN => None
  | Inf s => Some (if s then Lt else Gt)
  | Fin s m e => Some (num s m e ?= z * den e)
  end.

(** [floor]: the largest integral float not above [x]. *)
Definition floor (x : float) : float :=
  match x with
  | Fin s m e => round_signed (num s m e / den e) 1 s
  | _ => x
  end.

(** C's [fmod]: the exact remainder of [x] by [y], with the sign of [x]. *)
Definition fmod (x y : float) : float :=
  match x, y with
  | NaN, _ | _, NaN | Inf _, _ => NaN
  | Fin _ _ _, Inf _ => x
  | Fin s m e, Fin t m' e' =>
      if m' =? 0 then NaN
      else
        let a := Z.abs (num s m e) * den e' in
        let b := Z.abs (num t m' e') * den e in
        round_signed ((if s then -1 else 1) * (a mod b)) (den e * den e') s
  end.

Definition ltb (x y : float) : bool :=
  match compare x y with Some Lt => true | _ => false end.

(** Powers of two, as real numbers. *)
Abbreviation B := (powerRZ 2).

(** The real number a finite float stands for. *)
Definition F2R (m e : Z) : R := (IZR m * powerRZ 2 e)%R.

Definition value (x : float) : R :=
  match x with
  | Fin s m e => if s then (- F2R m e)%R else F2R m e
  | _ => 0%R
  end.

(** Structural equality, which tells the two zeros apart. *)
Definition same (x y : float) : bool :=
  match x, y with
  | NaN, NaN => true
  | Inf s, Inf t => Bool.eqb s t
  | Fin s m e, Fin t m' e' => Bool.eqb s t && (m =? m') && (e =? e')
  | _, _ => false
  end.

End F64.

(** ** Decimal text: [str(int)], [repr(float)] and [format(x, '.2f')] *)

Module Text.

Local Open Scope string_scope.
Local Open Scope Z_scope.

Definition digit (z : Z) : ascii := ascii_of_nat (48 + Z.to_nat z).

Fixpoint digits_fuel (fuel : nat) (z : Z) (acc : string) : string :=
  match fuel with
  | O => acc
  | S fuel' =>
      let acc' := String (digit (z mod 10)) acc in
      if z <? 10 then acc' else digits_fuel fuel' (z / 10) acc'
  end.

(** Decimal digits of a non-negative integer. *)
Definition digits (z : Z) : string :=
  digits_fuel (S (Z.to_nat (Z.log2 z))) z "".

(** [str(z)] for a Python [int]. *)
Definition str_Z (z : Z) : string :=
  if z <? 0 then "-" ++ digits (- z) else digits z.

Definition sign_prefix (neg : bool) : string := if neg then "-" else "".

(** [format(x, '.2f')]: the exact value is rounded to hundredths, ties to
    even, as CPython's correctly rounded conversion does. *)
Definition format_2f (x : F64.float) : string :=
  match x with
  | F64.NaN => "nan"
  | F64.Inf s => sign_prefix s ++ "inf"
  | F64.Fin s m e =>
      let (N, D) := F64.scale (m * 100) 1 (- e) in
      let h := F64.rne N D in
      sign_prefix s ++ digits (h / 100) ++ "."
        ++ String (digit (h / 10 mod 10)) (String (digit (h mod 10)) "")
  end.

(** [scale10 n d p] is the fraction [n/d / 10^p]. *)
Definition scale10 (n d p : Z) : Z * Z :=
  if 0 <=? p then (n, d * 10 ^ p) else (n * 10 ^ (- p), d).

(** [floor (log10 (n/d))] for positive [n] and [d]. *)
Definition ilog10 (n d : Z) : Z :=
  let k0 := F64.ilog2 n d * 30103 / 100000 in
  let above (k : Z) := let (N, D) := scale10 n d k in D <=? N in
  if above (k0 + 1) then k0 + 1 else if above k0 then k0 else k0 - 1.

(** The float nearest to the decimal [c * 10^p]. *)
Definition of_decimal (c p : Z) : F64.float :=
  let (N, D) := scale10 c 1 (- p) in F64.round false N D.

(** The [nd]-digit decimals next to [n/d] that read back as [x]; of two,
    the nearer one. *)
Definition shortest_try (x : F64.float) (n d k nd : Z) : option (Z * Z) :=
  let p := k - nd + 1 in
  let (N, D) := scale10 n d p in
  let lo := N / D in
  let hi := lo + 1 in
  let nearer :=
    match 2 * (N mod D) ?= D with
    | Lt => lo
    | Gt => hi
    | Eq => if Z.even lo then lo else hi
    end in
  match F64.same (of_decimal lo p) x, F64.same (of_decimal hi p) x with
  | true, true => Some (nearer, p)
  | true, false => Some (lo, p)
  | false, true => Some (hi, p)
  | false, false => None
  end.

Fixpoint shortest_from (fuel : nat) (x : F64.float) (n d k nd : Z)
  : Z * Z :=
  match fuel with
  | O => (0, 0)
  | S fuel' =>
      match shortest_try x n d k nd with
      | Some r => r
      | None => shortest_from fuel' x n d k (nd + 1)
      end
  end.

Fixpoint strip_zeros (fuel : nat) (c p : Z) : Z * Z :=
  match fuel with
  | O => (c, p)
  | S fuel' =>
      if (c mod 10 =? 0) && negb (c =? 0) then strip_zeros fuel' (c / 10) (p + 1)
      else (c, p)
  end.

(** The shortest decimal [c * 10^p] that reads back as the positive finite
    float [m * 2^e]. *)
Definition shortest (m e : Z) : Z * Z :=
  let n := F64.num false m e in
  let d := F64.den e in
  let (c, p) := shortest_from 17 (F64.Fin false m e) n d (ilog10 n d) 1 in
  strip_zeros 18 c p.

Fixpoint zeros (n : nat) : string :=
  match n with O => "" | S n' => String "0" (zeros n') end.

Definition substring_from (i : nat) (s : string) : string :=
  substring i (String.length s - i) s.

(** [repr(x)], which is also [str(x)], for a Python [float]. *)
Definition repr_float (x : F64.float) : string :=
  match x with
  | F64.NaN => "nan"
  | F64.Inf s => sign_prefix s ++ "inf"
  | F64.Fin s m e =>
      if m =? 0 then sign_prefix s ++ "0.0"
      else
        let (c, p) := shortest m e in
        let ds := digits c in
        let len := Z.of_nat (String.length ds) in
        let decpt := len + p in
        sign_prefix s ++
        if (decpt <=? -4) || (16 <? decpt) then
          let ex := decpt - 1 in
          substring 0 1 ds
            ++ (if 1 <? len then "." ++ substring_from 1 ds else "")
            ++ "e" ++ (if ex <? 0 then "-" else "+")
            ++ (if Z.abs ex <? 10 then "0" else "") ++ digits (Z.abs ex)
        else if decpt <=? 0 then
          "0." ++ zeros (Z.to_nat (- decpt)) ++ ds
        else if len <=? decpt then
          ds ++ zeros (Z.to_nat (decpt - len)) ++ ".0"
        else
          substring 0 (Z.to_nat decpt) ds ++ "."
            ++ substring_from (Z.to_nat decpt) ds
  end.

End Text.

(** ** The Python runtime fragment *)

Module Py.

Local Open Scope string_scope.
Local Open Scope Z_scope.

(** *** Exceptions *)

(** The exception classes the module can meet: builtins, and those of
    [requests], [botocore] and [boto3]. *)
Inductive exn_class : Type :=
| Exception
| LookupError | KeyError | IndexError
| ArithmeticError | OverflowError | ZeroDivisionError
| TypeError | ValueError | AttributeError
| RequestException | HTTPError | ConnectionError | Timeout
| InvalidJSONError | JSONDecodeError
| BotoCoreError | NoCredentialsError | ClientError
| Boto3Error | S3UploadFailedError.

Definition exn_class_eqb (a b : exn_class) : bool :=
  match a, b with
  | Exception, Exception | LookupError, LookupError | KeyError, KeyError
  | IndexError, IndexError | ArithmeticError, ArithmeticError
  | OverflowError, OverflowError | ZeroDivisionError, ZeroDivisionError
  | TypeError, TypeError | ValueError, ValueError
  | AttributeError, AttributeError | RequestException, RequestException
  | HTTPError, HTTPError | ConnectionError, ConnectionError
  | Timeout, Timeout | InvalidJSONError, InvalidJSONError
  | JSONDecodeError, JSONDecodeError | BotoCoreError, BotoCoreError
  | NoCredentialsError, NoCredentialsError | ClientError, ClientError
  | Boto3Error, Boto3Error | S3UploadFailedError, S3UploadFailedError => true
  | _, _ => false
  end.

(** Direct base classes. [requests.exceptions.JSONDecodeError] derives from
    [InvalidJSONError] and from [json.JSONDecodeError], a [ValueError];
    [botocore]'s [ClientError] and [BotoCoreError] derive from [Exception]
    only, not from [boto3.exceptions.Boto3Error]. *)
Definition bases (c : exn_class) : list exn_class :=
  match c with
  | Exception => []
  | LookupError | ArithmeticError | TypeError | ValueError | AttributeError
  | RequestException | BotoCoreError | ClientError | Boto3Error => [Exception]
  | KeyError | IndexError => [LookupError]
  | OverflowError | ZeroDivisionError => [ArithmeticError]
  | HTTPError | ConnectionError | Timeout | InvalidJSONError =>
      [RequestException]
  | JSONDecodeError => [InvalidJSONError; ValueError]
  | NoCredentialsError => [BotoCoreError]
  | S3UploadFailedError => [Boto3Error]
  end.

Fixpoint issubclass_fuel (fuel : nat) (c d : exn_class) : bool :=
  exn_class_eqb c d ||
  match fuel with
  | O => false
  | S fuel' => existsb (fun b => issubclass_fuel fuel' b d) (bases c)
  end.

(** The hierarchy above has depth 3. *)
Definition issubclass : exn_class -> exn_class -> bool := issubclass_fuel 3.

(** A raised exception: its class and its argument, which is the missing
    key for a [KeyError] and the message otherwise. *)
Record exn : Type := Raise { exn_cls : exn_class; exn_msg : string }.

Definition isinstance (e : exn) (c : exn_class) : bool :=
  issubclass (exn_cls e) c.

(** *** Results *)

Inductive result (A : Type) : Type :=
| Ok (a : A)
| Err (e : exn).

Arguments Ok {A} a.
Arguments Err {A} e.

Definition bind {A B : Type} (r : result A) (k : A -> result B) : result B :=
  match r with
  | Ok a => k a
  | Err e => Err e
  end.

Definition raise {A : Type} (c : exn_class) (msg : string) : result A :=
  Err (Raise c msg).

(** *** Objects produced by [json.loads] *)

Inductive pyval : Type :=
| PNone
| PBool (b : bool)
| PInt (z : Z)
| PFloat (x : F64.float)
| PStr (s : string)
| PList (l : list pyval)
| PDict (d : list (string * pyval)).

Definition type_name (v : pyval) : string :=
  match v with
  | PNone => "NoneType"
  | PBool _ => "bool"
  | PInt _ => "int"
  | PFloat _ => "float"
  | PStr _ => "str"
  | PList _ => "list"
  | PDict _ => "dict"
  end.

(** A dict is kept as its items; a key is looked up from the front. *)
Fixpoint lookup (k : string) (d : list (string * pyval)) : option pyval :=
  match d with
  | [] => None
  | (k', v) :: d' => if String.eqb k k' then Some v else lookup k d'
  end.

(** [v[k]] for a string key. *)
Definition getitem (v : pyval) (k : string) : result pyval :=
  match v with
  | PDict d =>
      match lookup k d with
      | Some x => Ok x
      | None => raise KeyError k
      end
  | PList _ => raise TypeError "list indices must be integers or slices, not str"
  | PStr _ => raise TypeError "string indices must be integers, not 'str'"
  | _ => raise TypeError ("'" ++ type_name v ++ "' object is not subscriptable")
  end.

(** [v[0]]. *)
Definition getitem0 (v : pyval) : result pyval :=
  match v with
  | PList (x :: _) => Ok x
  | PList [] => raise IndexError "list index out of range"
  | PStr (String c _) => Ok (PStr (String c ""))
  | PStr "" => raise IndexError "string index out of range"
  | PDict _ => raise KeyError "0"
  | _ => raise TypeError ("'" ++ type_name v ++ "' object is not subscriptable")
  end.

(** Truth value of an object, as tested by [if v:]. *)
Definition truthy (v : pyval) : bool :=
  match v with
  | PNone => false
  | PBool b => b
  | PInt z => negb (z =? 0)
  | PFloat x => negb (F64.is_zero x)
  | PStr s => negb (String.eqb s "")
  | PList l => match l with [] => false | _ => true end
  | PDict d => match d with [] => false | _ => true end
  end.

(** *** Numbers *)

(** [bool] is a subclass of [int]: [True] and [False] count as 1 and 0 in
    arithmetic. *)
Inductive number : Type :=
| NInt (z : Z)
| NFloat (x : F64.float).

Definition as_number (v : pyval) : option number :=
  match v with
  | PBool b => Some (NInt (if b then 1 else 0))
  | PInt z => Some (NInt z)
  | PFloat x => Some (NFloat x)
  | _ => None
  end.

(** Conversion of an operand to [float]; an [int] beyond the range of
    binary64 raises. *)
Definition to_float (n : number) : result F64.float :=
  match n with
  | NFloat x => Ok x
  | NInt z =>
      match F64.of_Z z with
      | F64.Fin s m e => Ok (F64.Fin s m e)
      | _ => raise OverflowError "int too large to convert to float"
      end
  end.

Definition unsupported (op : string) (a b : pyval) : exn :=
  Raise TypeError ("unsupported operand type(s) for " ++ op ++ ": '"
                   ++ type_name a ++ "' and '" ++ type_name b ++ "'").

(** [a - b]. *)
Definition sub (a b : pyval) : result pyval :=
  match as_number a, as_number b with
  | Some (NInt x), Some (NInt y) => Ok (PInt (x - y))
  | Some x, Some y =>
      bind (to_float x) (fun fx =>
      bind (to_float y) (fun fy => Ok (PFloat (F64.sub fx fy))))
  | _, _ => Err (unsupported "-" a b)
  end.

(** [a / b]: true division, always a [float]. Two integers give the
    correctly rounded quotient. *)
Definition truediv (a b : pyval) : result pyval :=
  match as_number a, as_number b with
  | Some (NInt x), Some (NInt y) =>
      if y =? 0 then raise ZeroDivisionError "division by zero"
      else
        match F64.div_Z x y with
        | F64.Fin s m e => Ok (PFloat (F64.Fin s m e))
        | _ => raise OverflowError
                 "integer division result too large for a float"
        end
  | Some x, Some y =>
      bind (to_float x) (fun fx =>
      bind (to_float y) (fun fy =>
        if F64.is_zero fy then raise ZeroDivisionError "float division by zero"
        else Ok (PFloat (F64.div fx fy))))
  | _, _ => Err (unsupported "/" a b)
  end.

(** [a * b] on numbers. The module multiplies only the float a division
    returned, so sequence repetition is not needed. *)
Definition mul_number (a b : number) : result pyval :=
  match a, b with
  | NInt x, NInt y => Ok (PInt (x * y))
  | _, _ =>
      bind (to_float a) (fun fx =>
      bind (to_float b) (fun fy => Ok (PFloat (F64.mul fx fy))))
  end.

(** Exact comparison of a number with an integer literal. *)
Definition compare_int (a : number) (z : Z) : option comparison :=
  match a with
  | NInt x => Some (x ?= z)
  | NFloat x => F64.compare_Z x z
  end.

Definition not_supported (op : string) (a b : string) : exn :=
  Raise TypeError ("'" ++ op ++ "' not supported between instances of '"
                   ++ a ++ "' and '" ++ b ++ "'").

(** [a > z], [a < z] and [z <= a] for an integer literal [z]. A NaN
    compares false. *)
Definition gt_int (a : pyval) (z : Z) : result bool :=
  match as_number a with
  | Some n => Ok match compare_int n z with Some Gt => true | _ => false end
  | None => Err (not_supported ">" (type_name a) "int")
  end.

Definition lt_int (a : pyval) (z : Z) : result bool :=
  match as_number a with
  | Some n => Ok match compare_int n z with Some Lt => true | _ => false end
  | None => Err (not_supported "<" (type_name a) "int")
  end.

Definition int_le (z : Z) (a : pyval) : result bool :=
  match as_number a with
  | Some n =>
      Ok match compare_int n z with Some (Gt | Eq) => true | _ => false end
  | None => Err (not_supported "<=" "int" (type_name a))
  end.

(** [divmod(vx, wx)] on floats, after CPython's [float_divmod]; [wx] is
    not zero. *)
Definition float_divmod (vx wx : F64.float) : F64.float * F64.float :=
  let one := F64.of_Z 1 in
  let nonzero (x : F64.float) := negb (F64.is_zero x) in
  let negative (x : F64.float) := F64.ltb x (F64.zero false) in
  let m := F64.fmod vx wx in
  let d := F64.div (F64.sub vx m) wx in
  let '(m, d) :=
    if nonzero m then
      if xorb (negative wx) (negative m)
      then (F64.add m wx, F64.sub d one)
      else (m, d)
    else (F64.zero (F64.sign wx), d) in
  let floordiv :=
    if nonzero d then
      let fl := F64.floor d in
      if F64.ltb (F64.div_Z 1 2) (F64.sub d fl) then F64.add fl one else fl
    else F64.zero (F64.sign (F64.div vx wx)) in
  (floordiv, m).

(** [divmod(a, z)] for a positive integer literal [z]. *)
Definition divmod (a : pyval) (z : Z) : result (pyval * pyval) :=
  match as_number a with
  | Some (NInt x) => Ok (PInt (x / z), PInt (x mod z))
  | Some (NFloat x) =>
      let (q, r) := float_divmod x (F64.of_Z z) in Ok (PFloat q, PFloat r)
  | None => Err (unsupported "divmod()" a (PInt z))
  end.

(** *** Text *)

Definition nl : string := String "010" "".

Definition quote1 : ascii := "'".
Definition quote2 : ascii := "034".
Definition backslash : ascii := "\".

Fixpoint contains (c : ascii) (s : string) : bool :=
  match s with
  | "" => false
  | String c' s' => Ascii.eqb c c' || contains c s'
  end.

Definition hex_digit (n : nat) : ascii :=
  if Nat.ltb n 10 then ascii_of_nat (48 + n) else ascii_of_nat (87 + n).

Definition repr_char (q c : ascii) : string :=
  let n := nat_of_ascii c in
  if Ascii.eqb c backslash || Ascii.eqb c q then String backslash (String c "")
  else if Nat.eqb n 9 then String backslash "t"
  else if Nat.eqb n 10 then String backslash "n"
  else if Nat.eqb n 13 then String backslash "r"
  else if Nat.ltb n 32 || Nat.eqb n 127 then
    String backslash
      (String "x" (String (hex_digit (n / 16)) (String (hex_digit (n mod 16)) "")))
  else String c "".

Fixpoint concat_map (f : ascii -> string) (s : string) : string :=
  match s with
  | "" => ""
  | String c s' => f c ++ concat_map f s'
  end.

(** [repr(s)] for a string of ASCII characters. *)
Definition repr_str (s : string) : string :=
  let q := if contains quote1 s && negb (contains quote2 s)
           then quote2 else quote1 in
  String q (concat_map (repr_char q) s) ++ String q "".

Definition join (sep : string) (l : list string) : string :=
  match l with
  | [] => ""
  | x :: l' => fold_left (fun acc y => acc ++ sep ++ y) l' x
  end.

(** [repr(v)]. *)
Fixpoint repr (v : pyval) : string :=
  match v with
  | PNone => "None"
  | PBool b => if b then "True" else "False"
  | PInt z => Text.str_Z z
  | PFloat x => Text.repr_float x
  | PStr s => repr_str s
  | PList l => "[" ++ join ", " (map repr l) ++ "]"
  | PDict d =>
      "{" ++ join ", " (map (fun kv => repr_str (fst kv) ++ ": " ++ repr (snd kv)) d)
          ++ "}"
  end.

(** [str(v)], the text an f-string puts in place of [{v}]. *)
Definition str (v : pyval) : string :=
  match v with
  | PStr s => s
  | _ => repr v
  end.

(** [format(v, '.2f')]; an [int] is converted to [float] first. *)
Definition format_2f (v : pyval) : result string :=
  match as_number v, v with
  | Some n, _ => bind (to_float n) (fun x => Ok (Text.format_2f x))
  | None, PStr _ => raise ValueError "Unknown format code 'f' for object of type 'str'"
  | None, _ =>
      raise TypeError ("unsupported format string passed to "
                       ++ type_name v ++ ".__format__")
  end.

Definition upper (c : ascii) : ascii :=
  let n := nat_of_ascii c in
  if Nat.leb 97 n && Nat.leb n 122 then ascii_of_nat (n - 32) else c.

Definition lower (c : ascii) : ascii :=
  let n := nat_of_ascii c in
  if Nat.leb 65 n && Nat.leb n 90 then ascii_of_nat (n + 32) else c.

Fixpoint map_string (f : ascii -> ascii) (s : string) : string :=
  match s with
  | "" => ""
  | String c s' => String (f c) (map_string f s')
  end.

(** [v.capitalize()] for a string of ASCII characters. *)
Definition capitalize (v : pyval) : result string :=
  match v with
  | PStr "" => Ok ""
  | PStr (String c s) => Ok (String (upper c) (map_string lower s))
  | _ => raise AttributeError ("'" ++ type_name v
                               ++ "' object has no attribute 'capitalize'")
  end.

(** [a * b]. *)
Definition mul (a b : pyval) : result pyval :=
  match as_number a, as_number b with
  | Some x, Some y => mul_number x y
  | _, _ => Err (unsupported "*" a b)
  end.

(** [d.get(k, default)] on a dict. *)
Definition dict_get (d : pyval) (k : string) (default : pyval)
  : result pyval :=
  match d with
  | PDict items =>
      Ok match lookup k items with Some x => x | None => default end
  | _ => raise AttributeError ("'" ++ type_name d
                               ++ "' object has no attribute 'get'")
  end.

(** *** [json.dumps] *)

Definition json_char (c : ascii) : string :=
  let n := nat_of_ascii c in
  if Ascii.eqb c quote2 || Ascii.eqb c backslash
  then String backslash (String c "")
  else if Nat.eqb n 8 then String backslash "b"
  else if Nat.eqb n 9 then String backslash "t"
  else if Nat.eqb n 10 then String backslash "n"
  else if Nat.eqb n 12 then String backslash "f"
  else if Nat.eqb n 13 then String backslash "r"
  else if Nat.ltb n 32 || Nat.leb 127 n then
    String backslash
      ("u00" ++ String (hex_digit (n / 16)) (String (hex_digit (n mod 16)) ""))
  else String c "".

Definition json_str (s : string) : string :=
  String quote2 (concat_map json_char s) ++ String quote2 "".

Definition json_float (x : F64.float) : string :=
  match x with
  | F64.NaN => "NaN"
  | F64.Inf s => Text.sign_prefix s ++ "Infinity"
  | _ => Text.repr_float x
  end.

(** [json.dumps(v)] with the default separators, for ASCII strings. *)
Fixpoint json_dumps (v : pyval) : string :=
  match v with
  | PNone => "null"
  | PBool b => if b then "true" else "false"
  | PInt z => Text.str_Z z
  | PFloat x => json_float x
  | PStr s => json_str s
  | PList l => "[" ++ join ", " (map json_dumps l) ++ "]"
  | PDict d =>
      "{" ++ join ", "
               (map (fun kv => json_str (fst kv) ++ ": " ++ json_dumps (snd kv)) d)
          ++ "}"
  end.

End Py.

(** ** The services and libraries around the module *)

Import Py.
Local Open Scope string_scope.
Local Open Scope Z_scope.

(** The call [requests.post(url=..., json=..., headers=...)]. *)
Record post_request : Type := {
  url : string;
  json : pyval;
  headers : list (string * string)
}.

(** What the call gives back: a response, whose body may or may not be
    JSON, or an exception raised by [requests]. *)
Inductive post_outcome : Type :=
| Response (status_code : Z) (body : option pyval)
| PostRaised (e : exn).

(** A token made by [Fernet(key).encrypt(data)], kept symbolic. *)
Inductive fernet_token : Type :=
| Fernet_encrypt (key : string) (data : string).

Record put_object_request : Type := {
  Bucket : string;
  Key : string;
  Body : fernet_token
}.

Record publish_request : Type := {
  TopicArn : string;
  Message : string;
  Subject : string;
  MessageAttributes : pyval
}.

(** Everything the module gets from outside for one invocation: the
    environment variable, the subscription key (a literal in the source,
    not repeated here), the upstream API, the key generator, the clock,
    the two AWS services (which answer a call with success or with an
    exception) and [datetime]'s parser, composed with
    [strftime('%Y-%m-%d %H:%M:%S')]; [None] is a [ValueError]. *)
Record platform : Type := {
  api_access_code : pyval;
  subscription_key : string;
  requests_post : post_request -> post_outcome;
  generate_key : string;
  now_strftime : string;
  put_object : put_object_request -> option exn;
  publish : publish_request -> option exn;
  fromisoformat_strftime : string -> option string
}.

(** What one invocation does to the outside, in order. *)
Inductive effect : Type :=
| Posted (req : post_request)
| PutObject (req : put_object_request) (failure : option exn)
| Published (req : publish_request) (failure : option exn)
| Logged (level : string) (msg : string).

Definition trace : Type := list effect.

(** Computations that may raise and that leave a trace. *)
Definition M (A : Type) : Type := trace -> result A * trace.

Definition ret {A : Type} (a : A) : M A := fun t => (Ok a, t).

Definition bindM {A B : Type} (c : M A) (k : A -> M B) : M B :=
  fun t =>
    match c t with
    | (Ok a, t') => k a t'
    | (Err e, t') => (Err e, t')
    end.

Definition lift {A : Type} (r : result A) : M A := fun t => (r, t).

Definition emit (ev : effect) : M unit := fun t => (Ok tt, (t ++ [ev])%list).

(** [try: c except cls: h], for a list of clauses tried in order. *)
Fixpoint handle {A : Type} (clauses : list (exn_class * (exn -> M A)))
  (e : exn) : M A :=
  match clauses with
  | [] => lift (Err e)
  | (cls, h) :: rest => if isinstance e cls then h e else handle rest e
  end.

Definition try_except {A : Type} (c : M A)
  (clauses : list (exn_class * (exn -> M A))) : M A :=
  fun t =>
    match c t with
    | (Ok a, t') => (Ok a, t')
    | (Err e, t') => handle clauses e t'
    end.

Declare Scope py_scope.
Delimit Scope py_scope with py.
Notation "x <- c ;; k" := (bind c (fun x => k))
  (at level 61, c at next level, right associativity) : py_scope.
Notation "' pat <- c ;; k" := (bind c (fun x => match x with pat => k end))
  (at level 61, pat pattern, c at next level, right associativity) : py_scope.
Notation "x <~ c ;; k" := (bindM c (fun x => k))
  (at level 61, c at next level, right associativity) : py_scope.
Notation "c ;;; k" := (bindM c (fun _ => k))
  (at level 61, right associativity) : py_scope.
Notation "v .[ k ]" := (bind v (fun x => getitem x k))
  (at level 1, left associativity, format "v .[ k ]") : py_scope.
Notation "v .[0]" := (bind v getitem0)
  (at level 1, left associativity, format "v .[0]") : py_scope.
Local Open Scope py_scope.

Definition logger_info (msg : string) : M unit := emit (Logged "INFO" msg).
Definition logger_error (msg : string) : M unit := emit (Logged "ERROR" msg).

Definition BUCKET_NAME : string := "traffic-monitoring-data-bucket".
Definition SNS_TOPIC_ARN : string :=
  "arn:aws:sns:us-east-1:021891607807:traffic-alerts".

(** ** The module [lambda_function.py] *)

Definition calculate_congestion_level (data : pyval) : result pyval :=
  (* Extract current speed and free flow speed from the JSON data *)
  current_speed <- (Ok data).["traffic_flow"].["flowSegmentData"].["currentSpeed"] ;;
  free_flow_speed <- (Ok data).["traffic_flow"].["flowSegmentData"].["freeFlowSpeed"] ;;
  (* Calculate the congestion level as a percentage reduction in speed *)
  positive <- gt_int free_flow_speed 0 ;;
  congestion_level <-
    (if positive : bool then
       difference <- sub free_flow_speed current_speed ;;
       ratio <- truediv difference free_flow_speed ;;
       mul ratio (PInt 100)
     else Ok (PInt 0)) ;;
  (* Categorize the congestion level *)
  below_20 <- lt_int congestion_level 20 ;;
  category <-
    (if below_20 : bool then Ok "Low"
     else
       from_20 <- int_le 20 congestion_level ;;
       below_50 <- (if from_20 : bool then lt_int congestion_level 50
                    else Ok false) ;;
       Ok (if below_50 : bool then "Moderate" else "High")) ;;
  level <- format_2f congestion_level ;;
  Ok (PDict [("congestion_level", PStr (level ++ "%"));
             ("congestion_category", PStr category)]).

Definition check_road_accidents (data : pyval) : result pyval :=
  (* Check if there are any points of interest (POI) in the incidents data *)
  incidents <- (Ok data).["traffic_incidents"].["tm"].["poi"] ;;
  let msg :=
    if truthy incidents then "There are road accidents."
    else "There are no road accidents." in
  Ok (PDict [("road_accidents", PStr msg)]).

Section Handler.

Variable P : platform.

(** [datetime.fromisoformat(v).strftime('%Y-%m-%d %H:%M:%S')]. *)
Definition human_readable (v : pyval) : result string :=
  match v with
  | PStr s =>
      match fromisoformat_strftime P s with
      | Some t => Ok t
      | None => raise ValueError ("Invalid isoformat string: " ++ repr_str s)
      end
  | _ => raise TypeError "fromisoformat: argument must be str"
  end.

Definition extract_route_details (data : pyval) : result pyval :=
  route_summary <- (Ok data).["route_details"].["routes"].[0].["summary"] ;;
  mode <- (Ok data).["route_details"].["routes"].[0].["sections"].[0].["travelMode"] ;;
  travel_mode <- capitalize mode ;;
  (* Extracting required details *)
  length_in_meters <- getitem route_summary "lengthInMeters" ;;
  distance_km <- truediv length_in_meters (PInt 1000) ;;
  (* Convert travel time and traffic delay to hours, minutes, and seconds *)
  travel_time_seconds <- getitem route_summary "travelTimeInSeconds" ;;
  traffic_delay_seconds <- getitem route_summary "trafficDelayInSeconds" ;;
  ' (travel_time_hr, travel_time_min) <- divmod travel_time_seconds 3600 ;;
  ' (travel_time_min, travel_time_sec) <- divmod travel_time_min 60 ;;
  ' (traffic_delay_hr, traffic_delay_min) <- divmod traffic_delay_seconds 3600 ;;
  ' (traffic_delay_min, traffic_delay_sec) <- divmod traffic_delay_min 60 ;;
  (* Convert traffic length to km if it's more than 1000 meters *)
  traffic_length_meters <- getitem route_summary "trafficLengthInMeters" ;;
  more_than_1000 <- gt_int traffic_length_meters 1000 ;;
  traffic_length <-
    (if more_than_1000 : bool then
       km <- truediv traffic_length_meters (PInt 1000) ;;
       text <- format_2f km ;;
       Ok (text ++ " km")
     else Ok (str traffic_length_meters ++ " meters")) ;;
  departure_time <- getitem route_summary "departureTime" ;;
  arrival_time <- getitem route_summary "arrivalTime" ;;
  (* Convert departure and arrival times to human-readable format *)
  departure_time <- human_readable departure_time ;;
  arrival_time <- human_readable arrival_time ;;
  Ok (PDict
        [("distance_km", distance_km);
         ("travel_time",
           PStr (str travel_time_hr ++ " hr " ++ str travel_time_min ++ " min "
                 ++ str travel_time_sec ++ " sec"));
         ("traffic_delay",
           PStr (str traffic_delay_hr ++ " hr " ++ str traffic_delay_min
                 ++ " min " ++ str traffic_delay_sec ++ " sec"));
         ("traffic_length", PStr traffic_length);
         ("departure_time", PStr departure_time);
         ("arrival_time", PStr arrival_time);
         ("travel_mode", PStr travel_mode)]).

(** The text of the alert, the f-string of [send_sns_alert]. *)
Definition alert_message
  (from_location to_location congestion_data road_accident_data
     route_details_data : pyval) : result string :=
  let na := PStr "N/A" in
  congestion_level <- dict_get congestion_data "congestion_level" na ;;
  congestion_category <- dict_get congestion_data "congestion_category" na ;;
  road_accidents <- dict_get road_accident_data "road_accidents" na ;;
  distance_km <- dict_get route_details_data "distance_km" na ;;
  travel_time <- dict_get route_details_data "travel_time" na ;;
  traffic_delay <- dict_get route_details_data "traffic_delay" na ;;
  traffic_length <- dict_get route_details_data "traffic_length" na ;;
  departure_time <- dict_get route_details_data "departure_time" na ;;
  arrival_time <- dict_get route_details_data "arrival_time" na ;;
  travel_mode <- dict_get route_details_data "travel_mode" na ;;
  Ok ("__Traffic Alert:__" ++ nl ++ nl
      ++ "Route: " ++ str from_location ++ " to " ++ str to_location ++ nl ++ nl
      ++ "Congestion Level: " ++ str congestion_level
      ++ " (" ++ str congestion_category ++ ")" ++ nl ++ nl
      ++ "Road Accidents: " ++ str road_accidents ++ nl ++ nl
      ++ "Route Details:" ++ nl
      ++ "Distance: " ++ str distance_km ++ " km" ++ nl
      ++ "Travel Time: " ++ str travel_time ++ " " ++ nl
      ++ "Traffic Delay: " ++ str traffic_delay ++ " " ++ nl
      ++ "Traffic Length: " ++ str traffic_length ++ nl
      ++ "Departure Time: " ++ str departure_time ++ nl
      ++ "Arrival Time: " ++ str arrival_time ++ nl
      ++ "Travel Mode: " ++ str travel_mode).

(** A call to a service: it is recorded, and its failure is raised. *)
Definition call (ev : option exn -> effect) (outcome : option exn) : M unit :=
  emit (ev outcome) ;;;
  match outcome with
  | Some e => lift (Err e)
  | None => ret tt
  end.

(** The arguments of [sns_client.publish]. *)
Definition alert_request (message : string) (email : pyval)
  : publish_request :=
  {| TopicArn := SNS_TOPIC_ARN;
     Message := message;
     Subject := "Traffic Alert";
     MessageAttributes :=
       PDict [("email", PDict [("DataType", PStr "String");
                               ("StringValue", email)])] |}.

Definition send_sns_alert
  (from_location to_location email congestion_data road_accident_data
     route_details_data : pyval) : M unit :=
  (* Create the message for SNS *)
  message <~ lift (alert_message from_location to_location congestion_data
                     road_accident_data route_details_data) ;;
  (* Publish the message to the SNS topic *)
  let request := alert_request message email in
  call (Published request) (publish P request) ;;;
  logger_info "SNS alert sent".

(** [response.raise_for_status()]: statuses 400 to 599 raise. The message
    keeps the status code only. *)
Definition raise_for_status (status_code : Z) : result unit :=
  if (400 <=? status_code) && (status_code <? 600)
  then raise HTTPError (Text.str_Z status_code)
  else Ok tt.

(** [response.json()]: a body that is not JSON raises
    [requests.exceptions.JSONDecodeError], a [RequestException] since
    requests 2.27. The message keeps the first words only, without the
    position in the body. *)
Definition response_json (body : option pyval) : result pyval :=
  match body with
  | Some v => Ok v
  | None => raise JSONDecodeError "Expecting value"
  end.

(** [event.get(k)]. *)
Definition event_get (event : list (string * pyval)) (k : string) : pyval :=
  match lookup k event with
  | Some v => v
  | None => PNone
  end.

Definition http_response (status : Z) (message : string) : pyval :=
  PDict [("statusCode", PInt status);
         ("body", PStr (json_dumps (PStr message)))].

(** The call to the upstream API: the request built from the event, and
    the three statements that post it, check the status and parse the
    body. *)
Definition traffic_request (event : list (string * pyval)) : post_request :=
  (* Extract 'from' location and 'to' location from the event *)
  let from_location := event_get event "from" in
  let to_location := event_get event "to" in
  (* Fetch real-time traffic data *)
  let url := "https://funcappazuremap.azurewebsites.net/api/azureMapApi?code="
             ++ str (api_access_code P) in
  let payload := PDict [("from", from_location); ("to", to_location)] in
  {| url := url; json := payload;
     headers := [("subscription_key", subscription_key P)] |}.

Definition fetch (request : post_request) : result pyval :=
  match requests_post P request with
  | PostRaised e => Err e
  | Response status_code body =>
      _ <- raise_for_status status_code ;;
      response_json body
  end.

(** The combined record, and the arguments of [s3_client.put_object]: the
    record is serialised and encrypted with a key generated on the spot. *)
Definition output_record
  (email route_details_data congestion_data road_accident_data : pyval)
  : pyval :=
  PDict [("email", email);
         ("route_details", route_details_data);
         ("congestion_details", congestion_data);
         ("road_accident_details", road_accident_data)].

Definition archive_object (output_json : pyval) : put_object_request :=
  let key := generate_key P in
  let json_data := json_dumps output_json in
  let encrypted_data := Fernet_encrypt key json_data in
  {| Bucket := BUCKET_NAME;
     Key := "traffic_data_" ++ now_strftime P ++ ".json";
     Body := encrypted_data |}.

(** The [try] block of [lambda_handler]. *)
Definition pipeline (event : list (string * pyval)) : M pyval :=
  let from_location := event_get event "from" in
  let to_location := event_get event "to" in
  let email := event_get event "email" in
  let request := traffic_request event in
  emit (Posted request) ;;;
  traffic_data <~ lift (fetch request) ;;
  (* Calculate and categorize the congestion level *)
  congestion_data <~ lift (calculate_congestion_level traffic_data) ;;
  (* Check for road accidents *)
  road_accident_data <~ lift (check_road_accidents traffic_data) ;;
  (* Extract route details *)
  route_details_data <~ lift (extract_route_details traffic_data) ;;
  let output_json :=
    output_record email route_details_data congestion_data
      road_accident_data in
  (* Generate a key, encrypt the JSON data and save it to S3 *)
  let object := archive_object output_json in
  call (PutObject object) (put_object P object) ;;;
  logger_info "Traffic data saved to S3" ;;;
  (* Send alerts via SNS *)
  send_sns_alert from_location to_location email congestion_data
    road_accident_data route_details_data ;;;
  ret (http_response 200 "Traffic data processed and alerts sent!").

Definition lambda_handler (event : list (string * pyval)) : M pyval :=
  try_except (pipeline event)
    [(RequestException, fun e =>
        logger_error ("Error fetching traffic data: " ++ exn_msg e) ;;;
        ret (http_response 500 "Error fetching traffic data"));
     (NoCredentialsError, fun e =>
        logger_error ("Error with AWS credentials: " ++ exn_msg e) ;;;
        ret (http_response 500 "Error with AWS credentials"));
     (Boto3Error, fun e =>
        logger_error ("Error with AWS services: " ++ exn_msg e) ;;;
        ret (http_response 500 "Error with AWS services"))].

End Handler.

(** ** A stub platform: the end-to-end scenario of the specification *)

Module Scenario.

Definition summary (length time delay traffic_length : pyval) : pyval :=
  PDict [("lengthInMeters", length);
         ("travelTimeInSeconds", time);
         ("trafficDelayInSeconds", delay);
         ("trafficLengthInMeters", traffic_length);
         ("departureTime", PStr "2024-01-01T08:00:00");
         ("arrivalTime", PStr "2024-01-01T08:10:00")].

(** An upstream response with the three sections. *)
Definition traffic_response (current free : pyval) (poi : list pyval)
  (route_summary : pyval) : pyval :=
  PDict [("traffic_flow",
           PDict [("flowSegmentData",
                    PDict [("currentSpeed", current);
                           ("freeFlowSpeed", free)])]);
         ("traffic_incidents", PDict [("tm", PDict [("poi", PList poi)])]);
         ("route_details",
           PDict [("routes",
                    PList [PDict [("summary", route_summary);
                                  ("sections",
                                    PList [PDict [("travelMode", PStr "car")]])]])])].

Definition traffic_data : pyval :=
  traffic_response (PInt 40) (PInt 100) []
    (summary (PInt 1200) (PInt 600) (PInt 0) (PInt 1200)).

(** The same response with another route summary, or other incidents. *)
Definition with_route (time delay traffic_length : Z) : pyval :=
  traffic_response (PInt 40) (PInt 100) []
    (summary (PInt 1200) (PInt time) (PInt delay) (PInt traffic_length)).

Definition with_incidents (poi : list pyval) : pyval :=
  traffic_response (PInt 40) (PInt 100) poi
    (summary (PInt 1200) (PInt 600) (PInt 0) (PInt 1200)).

Definition with_speeds (current free : pyval) : pyval :=
  traffic_response current free []
    (summary (PInt 1200) (PInt 600) (PInt 0) (PInt 1200)).

Definition event : list (string * pyval) :=
  [("from", PStr "A"); ("to", PStr "B"); ("email", PStr "x@example.com")].

(** Timestamps of the form [YYYY-MM-DDTHH:MM:SS] only. *)
Definition iso_seconds (s : string) : option string :=
  if Nat.eqb (String.length s) 19
  then Some (substring 0 10 s ++ " " ++ substring 11 8 s)
  else None.

(** A platform whose upstream answers [outcome] and whose services answer
    [put] and [pub]. *)
Definition stub (outcome : post_outcome) (put pub : option exn) : platform :=
  {| api_access_code := PStr "code";
     subscription_key := "key";
     requests_post := fun _ => outcome;
     generate_key := "k";
     now_strftime := "20240101080000";
     put_object := fun _ => put;
     publish := fun _ => pub;
     fromisoformat_strftime := iso_seconds |}.

Definition healthy : platform := stub (Response 200 (Some traffic_data)) None None.

(** The upstream answers 200 with an empty JSON object. *)
Definition empty_answer : platform := stub (Response 200 (Some (PDict []))) None None.

(** The upstream answers 503. *)
Definition unavailable : platform := stub (Response 503 None) None None.

End Scenario.

(** ** Vocabulary of the specification *)

(** The places of the upstream response the derivations read. *)
Definition current_speed_of (data : pyval) : result pyval :=
  (Ok data).["traffic_flow"].["flowSegmentData"].["currentSpeed"].

Definition free_flow_speed_of (data : pyval) : result pyval :=
  (Ok data).["traffic_flow"].["flowSegmentData"].["freeFlowSpeed"].

Definition incidents_of (data : pyval) : result pyval :=
  (Ok data).["traffic_incidents"].["tm"].["poi"].

Definition route_summary_of (data : pyval) : result pyval :=
  (Ok data).["route_details"].["routes"].[0].["summary"].

(** A speed: a non-negative number that binary64 holds exactly, with its
    real value. *)
Inductive is_speed : pyval -> R -> Prop :=
| speed_int (z : Z) :
    0 <= z <= 2 ^ 53 -> is_speed (PInt z) (IZR z)
| speed_float (s : bool) (m e : Z) :
    F64.canonical m e -> (0 <= F64.value (F64.Fin s m e))%R ->
    is_speed (PFloat (F64.Fin s m e)) (F64.value (F64.Fin s m e)).

(** The percentage reduction in speed as the specification words it:
    [(freeFlow - current) / freeFlow * 100] when [freeFlow > 0], else 0. *)
Definition spec_percentage (current free : pyval) : result pyval :=
  positive <- gt_int free 0 ;;
  if positive : bool then
    difference <- sub free current ;;
    ratio <- truediv difference free ;;
    mul ratio (PInt 100)
  else Ok (PInt 0).

(** The threshold table of the specification:
    below 20 is Low, from 20 and below 50 is Moderate, from 50 is High. *)
Inductive in_category : pyval -> string -> Prop :=
| cat_low v n :
    as_number v = Some n -> compare_int n 20 = Some Lt -> in_category v "Low"
| cat_moderate v n :
    as_number v = Some n -> compare_int n 20 <> Some Lt ->
    compare_int n 20 <> None -> compare_int n 50 = Some Lt ->
    in_category v "Moderate"
| cat_high v n c :
    as_number v = Some n -> compare_int n 50 = Some c -> c <> Lt ->
    in_category v "High".

(** A text with exactly two decimal digits: an optional sign, the digits of
    a whole number, a point and two digits. *)
Definition is_digit (c : ascii) : Prop :=
  exists d : Z, 0 <= d <= 9 /\ c = Text.digit d.

Definition two_decimals (s : string) : Prop :=
  exists (neg : bool) (whole : Z) (c1 c2 : ascii),
    0 <= whole /\ is_digit c1 /\ is_digit c2 /\
    s = Text.sign_prefix neg ++ Text.digits whole ++ "."
          ++ String c1 (String c2 "").

(** The notification layout of the specification's interface section. *)
Definition spec_template
  (from to level category accidents distance time delay length departure
     arrival mode : string) : string :=
  "__Traffic Alert:__" ++ nl
  ++ nl
  ++ "Route: " ++ from ++ " to " ++ to ++ nl
  ++ nl
  ++ "Congestion Level: " ++ level ++ " (" ++ category ++ ")" ++ nl
  ++ nl
  ++ "Road Accidents: " ++ accidents ++ nl
  ++ nl
  ++ "Route Details:" ++ nl
  ++ "Distance: " ++ distance ++ " km" ++ nl
  ++ "Travel Time: " ++ time ++ nl
  ++ "Traffic Delay: " ++ delay ++ nl
  ++ "Traffic Length: " ++ length ++ nl
  ++ "Departure Time: " ++ departure ++ nl
  ++ "Arrival Time: " ++ arrival ++ nl
  ++ "Travel Mode: " ++ mode.

(** The layout filled with the derived fields of the three results. *)
Definition spec_message
  (from_location to_location congestion_data road_accident_data
     route_details_data : pyval) : result string :=
  level <- getitem congestion_data "congestion_level" ;;
  category <- getitem congestion_data "congestion_category" ;;
  accidents <- getitem road_accident_data "road_accidents" ;;
  distance <- getitem route_details_data "distance_km" ;;
  time <- getitem route_details_data "travel_time" ;;
  delay <- getitem route_details_data "traffic_delay" ;;
  length <- getitem route_details_data "traffic_length" ;;
  departure <- getitem route_details_data "departure_time" ;;
  arrival <- getitem route_details_data "arrival_time" ;;
  mode <- getitem route_details_data "travel_mode" ;;
  Ok (spec_template (str from_location) (str to_location) (str level)
        (str category) (str accidents) (str distance) (str time) (str delay)
        (str length) (str departure) (str arrival) (str mode)).

(** What a trace says about the two services. *)
Definition storage_writes (t : trace) : list put_object_request :=
  flat_map (fun ev => match ev with PutObject r _ => [r] | _ => [] end) t.

Definition stored_objects (t : trace) : list put_object_request :=
  flat_map (fun ev => match ev with PutObject r None => [r] | _ => [] end) t.

Definition notifications (t : trace) : list publish_request :=
  flat_map (fun ev => match ev with Published r _ => [r] | _ => [] end) t.

Definition delivered (t : trace) : list publish_request :=
  flat_map (fun ev => match ev with Published r None => [r] | _ => [] end) t.

(** The handler reports an outcome when it returns one of its responses
    instead of raising. *)
Definition reported (outcome : result pyval * trace) (response : pyval)
  : Prop :=
  fst outcome = Ok response.

(** The four responses of the handler. *)
Definition response_ok : pyval :=
  http_response 200 "Traffic data processed and alerts sent!".
Definition response_fetch_error : pyval :=
  http_response 500 "Error fetching traffic data".
Definition response_credentials_error : pyval :=
  http_response 500 "Error with AWS credentials".
Definition response_services_error : pyval :=
  http_response 500 "Error with AWS services".

(** ** [get_secret] *)

(** [str(e)], the text an f-string puts in place of [{e}]: the argument of
    the exception, which a [KeyError] shows as the [repr] of its key. *)
Definition str_exn (e : exn) : string :=
  match exn_cls e with
  | KeyError => repr_str (exn_msg e)
  | _ => exn_msg e
  end.

Section Secrets.

(** [secrets_client.get_secret_value(SecretId=...)], which answers with a
    response or raises, and [json.loads], which parses or raises. *)
Variable get_secret_value : string -> result pyval.
Variable json_loads : pyval -> result pyval.

Definition get_secret (secret_name : string) : M pyval :=
  try_except
    (response <~ lift (get_secret_value secret_name) ;;
     secret_string <~ lift (getitem response "SecretString") ;;
     secret <~ lift (json_loads secret_string) ;;
     ret secret)
    [(Exception, fun e =>
        logger_error ("Error retrieving secret " ++ secret_name ++ ": "
                      ++ str_exn e) ;;;
        lift (Err e))].

End Secrets.

(** ** More platforms *)

Module Cases.

(** The storage has no credentials. *)
Definition no_credentials : platform :=
  Scenario.stub (Response 200 (Some Scenario.traffic_data))
    (Some (Raise NoCredentialsError "Unable to locate credentials")) None.

(** The notification service refuses the call with a [ClientError]. *)
Definition publish_denied : platform :=
  Scenario.stub (Response 200 (Some Scenario.traffic_data)) None
    (Some (Raise ClientError "AuthorizationError")).

(** The upstream answers without a route. *)
Definition no_routes : pyval :=
  PDict [("traffic_flow",
           PDict [("flowSegmentData",
                    PDict [("currentSpeed", PInt 40);
                           ("freeFlowSpeed", PInt 100)])]);
         ("traffic_incidents", PDict [("tm", PDict [("poi", PList [])])]);
         ("route_details", PDict [("routes", PList [])])].

Definition routeless : platform :=
  Scenario.stub (Response 200 (Some no_routes)) None None.

(** A secrets manager with one secret, and a parser that knows its text. *)
Definition secrets (secret_id : string) : result pyval :=
  if String.eqb secret_id "traffic-monitoring-secrets"
  then Ok (PDict [("SecretString", PStr "{}")])
  else if String.eqb secret_id "binary"
  then Ok (PDict [("SecretBinary", PStr "")])
  else raise ClientError "ResourceNotFoundException".

Definition loads (v : pyval) : result pyval :=
  match v with
  | PStr "{}" => Ok (PDict [])
  | PStr _ => raise ValueError "Expecting value"
  | _ => raise TypeError "the JSON object must be str, bytes or bytearray"
  end.

End Cases.

(** ** Vocabulary of the properties *)

(** The classes of the exceptions a computation can raise. *)
Definition raises_only {A : Type} (classes : list exn_class)
  (r : result A) : Prop :=
  match r with
  | Ok _ => True
  | Err e => In (exn_cls e) classes
  end.

(** The exceptions the handler has an [except] clause for. *)
Definition caught (e : exn) : bool :=
  isinstance e RequestException || isinstance e NoCredentialsError
  || isinstance e Boto3Error.

(** More of what a trace says. *)
Definition posts (t : trace) : list post_request :=
  flat_map (fun ev => match ev with Posted r => [r] | _ => [] end) t.

Definition logged (level : string) (t : trace) : list string :=
  flat_map (fun ev =>
              match ev with
              | Logged l msg => if String.eqb l level then [msg] else []
              | _ => []
              end) t.

(** The part of a trace before the first call to the notification
    service. *)
Fixpoint before_publish (t : trace) : trace :=
  match t with
  | [] => []
  | Published _ _ :: _ => []
  | ev :: t' => ev :: before_publish t'
  end.

(** The same platform with another key generator. *)
Definition with_key (P : platform) (key : string) : platform :=
  {| api_access_code := api_access_code P;
     subscription_key := subscription_key P;
     requests_post := requests_post P;
     generate_key := key;
     now_strftime := now_strftime P;
     put_object := put_object P;
     publish := publish P;
     fromisoformat_strftime := fromisoformat_strftime P |}.

(** A trace with the keys of its tokens blanked. *)
Definition plaintext (token : fernet_token) : string :=
  match token with Fernet_encrypt _ data => data end.

Definition forget_key (ev : effect) : effect :=
  match ev with
  | PutObject r failure =>
      PutObject {| Bucket := Bucket r; Key := Key r;
                   Body := Fernet_encrypt "" (plaintext (Body r)) |} failure
  | _ => ev
  end.

(** The objects Python takes for false. *)
Definition falsy (v : pyval) : Prop :=
  v = PNone \/ v = PBool false \/ v = PInt 0
  \/ (exists s e, v = PFloat (F64.Fin s 0 e))
  \/ v = PStr "" \/ v = PList [] \/ v = PDict [].

(** The place of the upstream response the travel mode is read from. *)
Definition travel_mode_of (data : pyval) : result pyval :=
  (Ok data).["route_details"].["routes"].[0].["sections"].[0].["travelMode"].

Definition routes_of (data : pyval) : result pyval :=
  (Ok data).["route_details"].["routes"].

(** Letters of the two cases. *)
Definition is_lower (c : ascii) : bool :=
  let n := nat_of_ascii c in Nat.leb 97 n && Nat.leb n 122.

Definition is_upper (c : ascii) : bool :=
  let n := nat_of_ascii c in Nat.leb 65 n && Nat.leb n 90.

Fixpoint forallb_string (p : ascii -> bool) (s : string) : bool :=
  match s with
  | "" => true
  | String c s' => p c && forallb_string p s'
  end.

(** What the alert shows for a key of a derived record: its value, or N/A
    when the record lacks the key. *)
Definition shown (d : list (string * pyval)) (k : string) : string :=
  str match lookup k d with Some x => x | None => PStr "N/A" end.

(** * Properties *)

(** ** The model at work *)

(** Values of CPython 3.11 that the runtime model reproduces. *)
Example repr_of_a_tenth : Text.repr_float (F64.div_Z 1 10) = "0.1".
Proof. reflexivity. Qed.

Example repr_of_a_sum :
  Text.repr_float (F64.add (F64.div_Z 1 10) (F64.div_Z 2 10))
  = "0.30000000000000004".
Proof. vm_compute. reflexivity. Qed.

Example repr_of_a_large_power :
  Text.repr_float (F64.of_Z (10 ^ 22)) = "1e+22".
Proof. vm_compute. reflexivity. Qed.

Example format_rounds_the_binary_value :
  Text.format_2f (F64.div_Z 1005 1000) = "1.00"
  /\ Text.format_2f (F64.div_Z 1 8) = "0.12"
  /\ Text.format_2f (F64.div_Z (-1) 1000) = "-0.00".
Proof. repeat split; vm_compute; reflexivity. Qed.

Example divmod_of_a_float :
  divmod (PFloat (F64.div_Z 7451 2)) 3600
  = Ok (PFloat (F64.of_Z 1), PFloat (F64.div_Z 251 2)).
Proof. vm_compute. reflexivity. Qed.

(** The end-to-end scenario of the specification: speeds 40 and 100, no
    incident, a route of 1200 m and 600 s travelled by car. *)
Example end_to_end_scenario :
  calculate_congestion_level Scenario.traffic_data
  = Ok (PDict [("congestion_level", PStr "60.00%");
               ("congestion_category", PStr "High")])
  /\ check_road_accidents Scenario.traffic_data
     = Ok (PDict [("road_accidents", PStr "There are no road accidents.")])
  /\ extract_route_details Scenario.healthy Scenario.traffic_data
     = Ok (PDict [("distance_km", PFloat (F64.div_Z 12 10));
                  ("travel_time", PStr "0 hr 10 min 0 sec");
                  ("traffic_delay", PStr "0 hr 0 min 0 sec");
                  ("traffic_length", PStr "1.20 km");
                  ("departure_time", PStr "2024-01-01 08:00:00");
                  ("arrival_time", PStr "2024-01-01 08:10:00");
                  ("travel_mode", PStr "Car")])
  /\ str (PFloat (F64.div_Z 12 10)) = "1.2"
  /\ fst (lambda_handler Scenario.healthy Scenario.event []) = Ok response_ok
  /\ response_ok
     = PDict [("statusCode", PInt 200);
              ("body", PStr (String quote2 "Traffic data processed and alerts sent!"
                             ++ String quote2 ""))].
Proof. repeat split; vm_compute; reflexivity. Qed.

(** ** Accident detector *)

Lemma bind_ok {A B : Type} (r : result A) (k : A -> result B) (b : B) :
  bind r k = Ok b -> exists a, r = Ok a /\ k a = Ok b.
Proof.
  destruct r as [a | e]; simpl; intros H.
  - exists a. split; [reflexivity | exact H].
  - discriminate H.
Qed.

(** C7. Whatever the response, the detector answers with one of two fixed
    texts; when the points of interest are a list, the text says only
    whether the list is empty. *)
Theorem check_road_accidents_presence (data : pyval) (poi : list pyval) :
  incidents_of data = Ok (PList poi) ->
  check_road_accidents data =
    Ok (PDict [("road_accidents",
                 PStr (match poi with
                       | [] => "There are no road accidents."
                       | _ :: _ => "There are road accidents."
                       end))])
  /\ (forall data' r,
        check_road_accidents data' = Ok r ->
        r = PDict [("road_accidents", PStr "There are no road accidents.")]
        \/ r = PDict [("road_accidents", PStr "There are road accidents.")]).
Proof.
  intros Hpoi. split.
  - unfold check_road_accidents. unfold incidents_of in Hpoi.
    rewrite Hpoi. simpl. destruct poi; reflexivity.
  - intros data' r H. unfold check_road_accidents in H.
    apply bind_ok in H. destruct H as [v [_ H]].
    destruct (truthy v); inversion H; auto.
Qed.

Lemma check_road_accidents_presence_witness :
  check_road_accidents (Scenario.with_incidents [PDict []])
  = Ok (PDict [("road_accidents", PStr "There are road accidents.")])
  /\ check_road_accidents (Scenario.with_incidents [])
     = Ok (PDict [("road_accidents", PStr "There are no road accidents.")]).
Proof.
  split.
  - apply (check_road_accidents_presence
             (Scenario.with_incidents [PDict []]) [PDict []]).
    reflexivity.
  - apply (check_road_accidents_presence (Scenario.with_incidents []) []).
    reflexivity.
Defined.

(** ** Route detail extractor *)

(** Unfolds a successful run into the successful runs of its steps. *)
Ltac invert_run H :=
  repeat match type of H with
         | bind _ _ = Ok _ =>
             let a := fresh "a" in
             let Ha := fresh "Hstep" in
             apply bind_ok in H; destruct H as [a [Ha H]]
         | match ?x with (_, _) => _ end = Ok _ => destruct x
         end.

Lemma ok_inj {A : Type} (a b : A) : Ok a = Ok b -> a = b.
Proof. intros H. inversion H. reflexivity. Qed.

(** C6. Whole seconds are split into hours, minutes and seconds by
    division by 3600 and then by 60, and shown as [H hr M min S sec];
    minutes and seconds are below 60. *)
Theorem travel_time_rendering (P : platform) (data s r : pyval) (t d : Z) :
  route_summary_of data = Ok s ->
  getitem s "travelTimeInSeconds" = Ok (PInt t) ->
  getitem s "trafficDelayInSeconds" = Ok (PInt d) ->
  0 <= t -> 0 <= d ->
  extract_route_details P data = Ok r ->
  let hms (x : Z) :=
    Text.str_Z (x / 3600) ++ " hr " ++ Text.str_Z (x mod 3600 / 60) ++ " min "
      ++ Text.str_Z (x mod 3600 mod 60) ++ " sec" in
  getitem r "travel_time" = Ok (PStr (hms t))
  /\ getitem r "traffic_delay" = Ok (PStr (hms d))
  /\ (forall x, x = t \/ x = d ->
        0 <= x / 3600
        /\ 0 <= x mod 3600 / 60 < 60
        /\ 0 <= x mod 3600 mod 60 < 60
        /\ x = 3600 * (x / 3600) + 60 * (x mod 3600 / 60) + x mod 3600 mod 60).
Proof.
  intros Hs Ht Hd Ht0 Hd0 H hms.
  unfold extract_route_details in H.
  fold (route_summary_of data) in H. rewrite Hs in H.
  invert_run H.
  apply ok_inj in Hstep. subst a.
  rewrite Ht in Hstep4. apply ok_inj in Hstep4. subst a4.
  rewrite Hd in Hstep5. apply ok_inj in Hstep5. subst a5.
  simpl in Hstep6. apply ok_inj in Hstep6. inversion Hstep6; subst.
  simpl in Hstep7. apply ok_inj in Hstep7. inversion Hstep7; subst.
  simpl in Hstep8. apply ok_inj in Hstep8. inversion Hstep8; subst.
  simpl in Hstep9. apply ok_inj in Hstep9. inversion Hstep9; subst.
  apply ok_inj in H. subst r.
  split; [reflexivity | split; [reflexivity |]].
  intros x Hx.
  assert (0 <= x) by (destruct Hx; subst; assumption).
  pose proof (Z.mod_pos_bound x 3600 ltac:(lia)).
  pose proof (Z.mod_pos_bound (x mod 3600) 60 ltac:(lia)).
  pose proof (Z.div_mod x 3600 ltac:(lia)).
  pose proof (Z.div_mod (x mod 3600) 60 ltac:(lia)).
  repeat split; lia.
Qed.

Lemma travel_time_rendering_witness :
  exists r,
    extract_route_details Scenario.healthy (Scenario.with_route 3725 59 1200)
    = Ok r
    /\ getitem r "travel_time" = Ok (PStr "1 hr 2 min 5 sec")
    /\ getitem r "traffic_delay" = Ok (PStr "0 hr 0 min 59 sec").
Proof.
  eexists. split; [reflexivity |].
  destruct (travel_time_rendering Scenario.healthy
              (Scenario.with_route 3725 59 1200)
              (Scenario.summary (PInt 1200) (PInt 3725) (PInt 59) (PInt 1200))
              _ 3725 59 eq_refl eq_refl eq_refl ltac:(lia) ltac:(lia) eq_refl)
    as [H1 [H2 _]].
  split; [exact H1 | exact H2].
Defined.

(** ** Orchestrator *)

(** The runs of the [try] block from an empty trace, step by step. *)
Lemma pipeline_unfold (P : platform) (event : list (string * pyval)) :
  pipeline P event [] =
    let email := event_get event "email" in
    let request := traffic_request P event in
    match fetch P request with
    | Err e => (Err e, [Posted request])
    | Ok traffic_data =>
    match calculate_congestion_level traffic_data with
    | Err e => (Err e, [Posted request])
    | Ok c =>
    match check_road_accidents traffic_data with
    | Err e => (Err e, [Posted request])
    | Ok a =>
    match extract_route_details P traffic_data with
    | Err e => (Err e, [Posted request])
    | Ok r =>
    let object := archive_object P (output_record email r c a) in
    match put_object P object with
    | Some e => (Err e, [Posted request; PutObject object (Some e)])
    | None =>
    let saved := [Posted request; PutObject object None;
                  Logged "INFO" "Traffic data saved to S3"] in
    match alert_message (event_get event "from") (event_get event "to")
            c a r with
    | Err e => (Err e, saved)
    | Ok message =>
    let alert := alert_request message email in
    match publish P alert with
    | Some e => (Err e, (saved ++ [Published alert (Some e)])%list)
    | None =>
        (Ok response_ok,
         (saved ++ [Published alert None; Logged "INFO" "SNS alert sent"])%list)
    end end end end end end end.
Proof.
  unfold pipeline, bindM, lift, emit, send_sns_alert, call, logger_info,
    bindM, lift, emit, ret.
  simpl.
  destruct (fetch P (traffic_request P event)) as [td | e]; [| reflexivity].
  destruct (calculate_congestion_level td) as [c | e]; [| reflexivity].
  destruct (check_road_accidents td) as [a | e]; [| reflexivity].
  destruct (extract_route_details P td) as [r | e]; [| reflexivity].
  destruct (put_object P _) as [e |]; [reflexivity |].
  destruct (alert_message _ _ c a r) as [msg | e]; [| reflexivity].
  simpl. destruct (publish P _) as [e |]; reflexivity.
Qed.

(** The handler on top of the [try] block: the three [except] clauses in
    the order of the source. *)
Lemma lambda_handler_unfold (P : platform) (event : list (string * pyval)) :
  lambda_handler P event [] =
    match pipeline P event [] with
    | (Ok resp, tr) => (Ok resp, tr)
    | (Err e, tr) =>
        if isinstance e RequestException then
          (Ok response_fetch_error,
           (tr ++ [Logged "ERROR" ("Error fetching traffic data: " ++ exn_msg e)])%list)
        else if isinstance e NoCredentialsError then
          (Ok response_credentials_error,
           (tr ++ [Logged "ERROR" ("Error with AWS credentials: " ++ exn_msg e)])%list)
        else if isinstance e Boto3Error then
          (Ok response_services_error,
           (tr ++ [Logged "ERROR" ("Error with AWS services: " ++ exn_msg e)])%list)
        else (Err e, tr)
    end.
Proof.
  unfold lambda_handler, try_except.
  destruct (pipeline P event []) as [[resp | e] tr]; [reflexivity |].
  simpl.
  destruct (isinstance e RequestException); [reflexivity |].
  destruct (isinstance e NoCredentialsError); [reflexivity |].
  destruct (isinstance e Boto3Error); reflexivity.
Qed.

Lemma fetch_raises (P : platform) (request : post_request) (e : exn) :
  fetch P request = Err e ->
  requests_post P request = PostRaised e
  \/ (exists status body,
        requests_post P request = Response status body
        /\ 400 <= status < 600 /\ exn_cls e = HTTPError)
  \/ (exists status,
        requests_post P request = Response status None
        /\ exn_cls e = JSONDecodeError).
Proof.
  unfold fetch, raise_for_status, response_json, raise.
  destruct (requests_post P request) as [status body | e'].
  - destruct ((400 <=? status) && (status <? 600)) eqn:Hs; simpl.
    + intros H. inversion H; subst. right. left.
      exists status, body. split; [reflexivity |].
      apply andb_true_iff in Hs. destruct Hs as [H1 H2].
      apply Z.leb_le in H1. apply Z.ltb_lt in H2. split; [lia | reflexivity].
    + destruct body; intros H; [discriminate H |].
      inversion H; subst. right. right. exists status. split; reflexivity.
  - intros H. inversion H; subst. left. reflexivity.
Qed.

(** C1, counterexample. An upstream response that lacks the
    [traffic_flow] section makes the congestion step raise [KeyError],
    which no [except] clause catches: the handler raises instead of
    returning a response. *)
Lemma missing_section_propagates :
  lambda_handler Scenario.empty_answer Scenario.event []
  = (Err (Raise KeyError "traffic_flow"),
     [Posted (traffic_request Scenario.empty_answer Scenario.event)])
  /\ ~ (exists response,
          reported (lambda_handler Scenario.empty_answer Scenario.event [])
            response).
Proof.
  split; [reflexivity |].
  intros [response H]. unfold reported in H. simpl in H. discriminate H.
Qed.

(** C1, amended. The handler returns the success response when the [try]
    block completes, and one of three fixed 500 responses when the block
    raises an exception of class [RequestException], [NoCredentialsError] or
    [Boto3Error], tried in this order; an exception of any other class is
    raised to the caller. Failures of the upstream call (an exception of
    [requests], a status from 400 to 599, a body that is not JSON) are of
    the first kind. *)
Theorem handler_error_taxonomy (P : platform) (event : list (string * pyval)) :
  match pipeline P event [] with
  | (Ok response, tr) =>
      response = response_ok
      /\ lambda_handler P event [] = (Ok response_ok, tr)
  | (Err e, tr) =>
      if isinstance e RequestException then
        reported (lambda_handler P event []) response_fetch_error
      else if isinstance e NoCredentialsError then
        reported (lambda_handler P event []) response_credentials_error
      else if isinstance e Boto3Error then
        reported (lambda_handler P event []) response_services_error
      else lambda_handler P event [] = (Err e, tr)
  end
  /\ (forall e,
        fetch P (traffic_request P event) = Err e ->
        requests_post P (traffic_request P event) = PostRaised e
        \/ isinstance e RequestException = true)
  /\ (forall e,
        fetch P (traffic_request P event) = Err e ->
        isinstance e RequestException = true ->
        reported (lambda_handler P event []) response_fetch_error).
Proof.
  split; [| split].
  - rewrite lambda_handler_unfold.
    destruct (pipeline P event []) as [[response | e] tr] eqn:Hrun.
    + split; [| ].
      * rewrite pipeline_unfold in Hrun. simpl in Hrun.
        repeat match type of Hrun with
               | context [match ?x with _ => _ end] => destruct x
               end; inversion Hrun; reflexivity.
      * rewrite pipeline_unfold in Hrun. simpl in Hrun.
        repeat match type of Hrun with
               | context [match ?x with _ => _ end] => destruct x
               end; inversion Hrun; reflexivity.
    + unfold reported.
      destruct (isinstance e RequestException); [reflexivity |].
      destruct (isinstance e NoCredentialsError); [reflexivity |].
      destruct (isinstance e Boto3Error); reflexivity.
  - intros e He. apply fetch_raises in He.
    destruct He as [He | [[status [body [_ [_ He]]]] | [status [_ He]]]].
    + left. exact He.
    + right. unfold isinstance. rewrite He. reflexivity.
    + right. unfold isinstance. rewrite He. reflexivity.
  - intros e He Hcls. unfold reported.
    rewrite lambda_handler_unfold, pipeline_unfold. simpl.
    rewrite He. rewrite Hcls. reflexivity.
Qed.

(** C4. A call to the storage or to the notification service is made only
    when the upstream call and the three derivations have all returned;
    when the upstream call fails, whatever the failure, the trace has no
    such call; a status from 400 to 599, such as 503, is answered with the
    fetch error. *)
Theorem persistence_is_gated (P : platform) (event : list (string * pyval))
  (outcome : result pyval) (tr : trace) :
  lambda_handler P event [] = (outcome, tr) ->
  (storage_writes tr <> [] \/ notifications tr <> [] ->
   exists traffic_data c a r,
     fetch P (traffic_request P event) = Ok traffic_data
     /\ calculate_congestion_level traffic_data = Ok c
     /\ check_road_accidents traffic_data = Ok a
     /\ extract_route_details P traffic_data = Ok r)
  /\ (forall e,
        fetch P (traffic_request P event) = Err e ->
        storage_writes tr = [] /\ notifications tr = [])
  /\ (forall status body,
        requests_post P (traffic_request P event) = Response status body ->
        400 <= status < 600 ->
        storage_writes tr = [] /\ notifications tr = []
        /\ outcome = Ok response_fetch_error).
Proof.
  intros Hrun. rewrite lambda_handler_unfold, pipeline_unfold in Hrun.
  simpl in Hrun.
  assert (Hgate :
            storage_writes tr <> [] \/ notifications tr <> [] ->
            exists traffic_data c a r,
              fetch P (traffic_request P event) = Ok traffic_data
              /\ calculate_congestion_level traffic_data = Ok c
              /\ check_road_accidents traffic_data = Ok a
              /\ extract_route_details P traffic_data = Ok r).
  { intros Hcalls.
    destruct (fetch P (traffic_request P event)) as [td | e] eqn:Hf.
    2: { repeat match type of Hrun with
                | context [if ?x then _ else _] => destruct x
                end; inversion Hrun; subst; simpl in Hcalls;
         destruct Hcalls as [Hx | Hx]; contradiction Hx; reflexivity. }
    destruct (calculate_congestion_level td) as [c | e] eqn:Hc.
    2: { repeat match type of Hrun with
                | context [if ?x then _ else _] => destruct x
                end; inversion Hrun; subst; simpl in Hcalls;
         destruct Hcalls as [Hx | Hx]; contradiction Hx; reflexivity. }
    destruct (check_road_accidents td) as [a | e] eqn:Ha.
    2: { repeat match type of Hrun with
                | context [if ?x then _ else _] => destruct x
                end; inversion Hrun; subst; simpl in Hcalls;
         destruct Hcalls as [Hx | Hx]; contradiction Hx; reflexivity. }
    destruct (extract_route_details P td) as [r | e] eqn:Hr.
    2: { repeat match type of Hrun with
                | context [if ?x then _ else _] => destruct x
                end; inversion Hrun; subst; simpl in Hcalls;
         destruct Hcalls as [Hx | Hx]; contradiction Hx; reflexivity. }
    exists td, c, a, r. repeat split; assumption. }
  split; [exact Hgate |]. split.
  - intros e He.
    destruct (storage_writes tr) eqn:Hw; destruct (notifications tr) eqn:Hn;
      try (split; reflexivity);
      (destruct Hgate as (td & _ & _ & _ & Hf & _);
       [first [left; discriminate | right; discriminate]
       | rewrite He in Hf; discriminate Hf]).
  - intros status body Hpost Hstatus.
    unfold fetch, raise_for_status in Hrun. rewrite Hpost in Hrun.
    replace ((400 <=? status) && (status <? 600)) with true in Hrun
      by (symmetry; apply andb_true_iff; split;
          [apply Z.leb_le | apply Z.ltb_lt]; lia).
    simpl in Hrun. inversion Hrun; subst. repeat split; reflexivity.
Qed.

Lemma persistence_is_gated_witness :
  storage_writes (snd (lambda_handler Scenario.unavailable Scenario.event []))
  = []
  /\ notifications (snd (lambda_handler Scenario.unavailable Scenario.event []))
     = []
  /\ fst (lambda_handler Scenario.unavailable Scenario.event [])
     = Ok response_fetch_error.
Proof.
  destruct (persistence_is_gated Scenario.unavailable Scenario.event
              (fst (lambda_handler Scenario.unavailable Scenario.event []))
              (snd (lambda_handler Scenario.unavailable Scenario.event []))
              eq_refl) as [_ [_ H]].
  apply (H 503 None); [reflexivity | lia].
Defined.

(** C10. The notification service refuses the call with a [ClientError],
    the exception [botocore] raises for an answer of the service, after
    the storage accepted the object: no [except] clause matches, so the
    handler raises the exception instead of answering 500 with
    "Error with AWS services"; the accepted write of the encrypted record
    stays in the trace, and no ERROR record is written. *)
Theorem refused_publish_is_not_answered :
  exists object alert,
    lambda_handler Cases.publish_denied Scenario.event []
    = (Err (Raise ClientError "AuthorizationError"),
       [Posted (traffic_request Cases.publish_denied Scenario.event);
        PutObject object None;
        Logged "INFO" "Traffic data saved to S3";
        Published alert (Some (Raise ClientError "AuthorizationError"))])
    /\ Bucket object = "traffic-monitoring-data-bucket"
    /\ Key object = "traffic_data_20240101080000.json"
    /\ Body object
       = Fernet_encrypt "k"
           (json_dumps
              (PDict
                 [("email", PStr "x@example.com");
                  ("route_details",
                    PDict
                      [("distance_km", PFloat (F64.div_Z 12 10));
                       ("travel_time", PStr "0 hr 10 min 0 sec");
                       ("traffic_delay", PStr "0 hr 0 min 0 sec");
                       ("traffic_length", PStr "1.20 km");
                       ("departure_time", PStr "2024-01-01 08:00:00");
                       ("arrival_time", PStr "2024-01-01 08:10:00");
                       ("travel_mode", PStr "Car")]);
                  ("congestion_details",
                    PDict [("congestion_level", PStr "60.00%");
                           ("congestion_category", PStr "High")]);
                  ("road_accident_details",
                    PDict [("road_accidents",
                             PStr "There are no road accidents.")])]))
    /\ TopicArn alert = "arn:aws:sns:us-east-1:021891607807:traffic-alerts"
    /\ Subject alert = "Traffic Alert"
    /\ isinstance (Raise ClientError "AuthorizationError") Boto3Error = false
    /\ (forall response,
          ~ reported (lambda_handler Cases.publish_denied Scenario.event [])
              response).
Proof.
  eexists _, _. split; [vm_compute; reflexivity |].
  split; [reflexivity |]. split; [reflexivity |].
  split; [vm_compute; reflexivity |].
  split; [reflexivity |]. split; [reflexivity |]. split; [reflexivity |].
  intros response H. unfold reported in H. vm_compute in H. discriminate H.
Qed.

(** ** Notifier *)

Lemma append_assoc (a b c : string) : (a ++ b) ++ c = a ++ b ++ c.
Proof.
  induction a as [| ch a IH]; simpl; [reflexivity | rewrite IH; reflexivity].
Qed.

Lemma truediv_float (a b v : pyval) :
  truediv a b = Ok v -> exists x, v = PFloat x.
Proof.
  unfold truediv, raise.
  destruct (as_number a) as [[x | x] |]; destruct (as_number b) as [[y | y] |];
    simpl; try discriminate.
  - destruct (y =? 0); [discriminate |].
    destruct (F64.div_Z x y); try discriminate.
    intros H. inversion H. eexists. reflexivity.
  - intros H. invert_run H.
    match type of H with
    | context [if ?c then _ else _] => destruct c
    end; [discriminate |].
    inversion H. eexists. reflexivity.
  - intros H. invert_run H.
    match type of H with
    | context [if ?c then _ else _] => destruct c
    end; [discriminate |].
    inversion H. eexists. reflexivity.
  - destruct (F64.is_zero y); [discriminate |].
    intros H. inversion H. eexists. reflexivity.
Qed.

(** C8, counterexample. In the end-to-end scenario the handler succeeds and
    publishes one message, and that message is not the layout of the
    specification filled with the derived fields: the source puts a space
    before the line break after the travel time and after the traffic
    delay. *)
Lemma alert_is_not_the_layout :
  exists c a r alert message,
    calculate_congestion_level Scenario.traffic_data = Ok c
    /\ check_road_accidents Scenario.traffic_data = Ok a
    /\ extract_route_details Scenario.healthy Scenario.traffic_data = Ok r
    /\ fst (lambda_handler Scenario.healthy Scenario.event []) = Ok response_ok
    /\ notifications (snd (lambda_handler Scenario.healthy Scenario.event []))
       = [alert]
    /\ spec_message (PStr "A") (PStr "B") c a r = Ok message
    /\ Message alert <> message.
Proof.
  do 5 eexists.
  repeat (split; [reflexivity |]).
  intros H. vm_compute in H. discriminate H.
Qed.

(** C8, amended. On every successful invocation exactly one message is
    published, and it is delivered. Its text is the layout of the
    specification filled with the derived fields, with one space added after
    the travel time and after the traffic delay; its subject is
    "Traffic Alert"; its only attribute is [email], of type String, with the
    address of the request. *)
Theorem alert_layout (P : platform) (event : list (string * pyval))
  (tr : trace) :
  lambda_handler P event [] = (Ok response_ok, tr) ->
  exists traffic_data c a r level category accidents distance
         time delay length departure arrival mode,
    fetch P (traffic_request P event) = Ok traffic_data
    /\ calculate_congestion_level traffic_data = Ok c
    /\ check_road_accidents traffic_data = Ok a
    /\ extract_route_details P traffic_data = Ok r
    /\ c = PDict [("congestion_level", PStr level);
                  ("congestion_category", PStr category)]
    /\ a = PDict [("road_accidents", PStr accidents)]
    /\ r = PDict [("distance_km", PFloat distance);
                  ("travel_time", PStr time);
                  ("traffic_delay", PStr delay);
                  ("traffic_length", PStr length);
                  ("departure_time", PStr departure);
                  ("arrival_time", PStr arrival);
                  ("travel_mode", PStr mode)]
    /\ notifications tr =
         [{| TopicArn := SNS_TOPIC_ARN;
             Message :=
               spec_template (str (event_get event "from"))
                 (str (event_get event "to")) level category accidents
                 (Text.repr_float distance) (time ++ " ") (delay ++ " ")
                 length departure arrival mode;
             Subject := "Traffic Alert";
             MessageAttributes :=
               PDict [("email",
                        PDict [("DataType", PStr "String");
                               ("StringValue", event_get event "email")])] |}]
    /\ delivered tr = notifications tr.
Proof.
  intros Hrun. rewrite lambda_handler_unfold, pipeline_unfold in Hrun.
  simpl in Hrun.
  destruct (fetch P (traffic_request P event)) as [td | e] eqn:Hf.
  2: { repeat match type of Hrun with
              | context [if ?x then _ else _] => destruct x
              end; inversion Hrun. }
  destruct (calculate_congestion_level td) as [c | e] eqn:Hc.
  2: { repeat match type of Hrun with
              | context [if ?x then _ else _] => destruct x
              end; inversion Hrun. }
  destruct (check_road_accidents td) as [a | e] eqn:Ha.
  2: { repeat match type of Hrun with
              | context [if ?x then _ else _] => destruct x
              end; inversion Hrun. }
  destruct (extract_route_details P td) as [r | e] eqn:Hr.
  2: { repeat match type of Hrun with
              | context [if ?x then _ else _] => destruct x
              end; inversion Hrun. }
  pose proof Hc as Hc'. pose proof Ha as Ha'. pose proof Hr as Hr'.
  unfold calculate_congestion_level in Hc'. invert_run Hc'.
  apply ok_inj in Hc'. subst c.
  unfold check_road_accidents in Ha'. invert_run Ha'.
  apply ok_inj in Ha'. subst a.
  unfold extract_route_details in Hr'. invert_run Hr'.
  apply ok_inj in Hr'. subst r.
  match goal with
  | H : truediv _ (PInt 1000) = Ok ?d |- _ =>
      destruct (truediv_float _ _ _ H) as [distance Hd]; subst d
  end.
  simpl in Hrun.
  destruct (put_object P _) as [e |].
  { repeat match type of Hrun with
           | context [if ?x then _ else _] => destruct x
           end; inversion Hrun. }
  destruct (publish P _) as [e |].
  { repeat match type of Hrun with
           | context [if ?x then _ else _] => destruct x
           end; inversion Hrun. }
  inversion Hrun; subst tr. clear Hrun.
  exists td. do 13 eexists.
  split; [reflexivity |]. split; [exact Hc |].
  split; [exact Ha |]. split; [exact Hr |].
  repeat (split; [reflexivity |]).
  split; [| reflexivity].
  unfold notifications. simpl. unfold alert_request, spec_template. simpl.
  rewrite !append_assoc. reflexivity.
Qed.

Lemma alert_layout_witness :
  exists alert,
    notifications (snd (lambda_handler Scenario.healthy Scenario.event []))
    = [alert]
    /\ Subject alert = "Traffic Alert"
    /\ Message alert =
         spec_template "A" "B" "60.00%" "High" "There are no road accidents."
           "1.2" "0 hr 10 min 0 sec " "0 hr 0 min 0 sec " "1.20 km"
           "2024-01-01 08:00:00" "2024-01-01 08:10:00" "Car".
Proof.
  destruct (alert_layout Scenario.healthy Scenario.event
              (snd (lambda_handler Scenario.healthy Scenario.event []))
              eq_refl)
    as (td & c & a & r & level & category & accidents & distance & time
        & delay & len & departure & arrival & mode
        & Hf & Hc & Ha & Hr & Ec & Ea & Er & Hn & _).
  eexists. split; [exact Hn |].
  apply ok_inj in Hf. subst td.
  rewrite Ec in Hc. rewrite Ea in Ha. rewrite Er in Hr.
  vm_compute in Hc. vm_compute in Ha. vm_compute in Hr.
  inversion Hc. inversion Ha. inversion Hr.
  split; reflexivity.
Defined.

(** ** Binary64 arithmetic: rounding and its bounds *)

Module F64Facts.
Import F64.



Lemma B_pos (e : Z) : (0 < B e)%R.
Proof. apply powerRZ_lt. lra. Qed.

Lemma B_add (a b : Z) : (B (a + b) = B a * B b)%R.
Proof. apply powerRZ_add. lra. Qed.

Lemma B_opp (a : Z) : (B (- a) = / B a)%R.
Proof. apply powerRZ_neg'. Qed.

Lemma B_nonneg (e : Z) : 0 <= e -> B e = IZR (2 ^ e).
Proof.
  intros He. destruct e as [| p | p]; [reflexivity | | lia].
  symmetry. apply (Zpower_pos_powerRZ 2 p).
Qed.

Lemma B_succ (e : Z) : (B (e + 1) = 2 * B e)%R.
Proof. rewrite B_add. simpl. lra. Qed.

Lemma B_le (a b : Z) : a <= b -> (B a <= B b)%R.
Proof.
  intros H. replace b with (a + (b - a)) by lia. rewrite B_add.
  assert (1 <= B (b - a))%R.
  { rewrite B_nonneg by lia. apply IZR_le.
    pose proof (Z.pow_pos_nonneg 2 (b - a) ltac:(lia) ltac:(lia)). lia. }
  pose proof (B_pos a). nra.
Qed.


Lemma scale_spec (n d e N D : Z) :
  0 < d -> scale n d e = (N, D) ->
  0 < D /\ (0 <= n -> 0 <= N) /\ (0 < n -> 0 < N)
  /\ (IZR N / IZR D = IZR n / IZR d * B (- e))%R.
Proof.
  intros Hd H. unfold scale in H.
  assert (Hd' : (0 < IZR d)%R) by (apply IZR_lt; exact Hd).
  destruct (0 <=? e) eqn:He; inversion H; subst; clear H.
  - apply Z.leb_le in He.
    pose proof (Z.pow_pos_nonneg 2 e ltac:(lia) He) as Hp.
    repeat split; try lia.
    rewrite mult_IZR, <- B_nonneg by exact He. rewrite B_opp.
    pose proof (B_pos e). field. lra.
  - apply Z.leb_gt in He.
    pose proof (Z.pow_pos_nonneg 2 (- e) ltac:(lia) ltac:(lia)) as Hp.
    repeat split; try nia.
    rewrite mult_IZR, <- B_nonneg by lia. field. lra.
Qed.

Lemma rne_Z (N D : Z) :
  0 < D ->
  2 * Z.abs (rne N D * D - N) <= D
  /\ (forall K, N <= K * D -> rne N D <= K)
  /\ (forall K, K * D <= N -> K <= rne N D).
Proof.
  intros HD. unfold rne.
  pose proof (Z.div_mod N D ltac:(lia)) as Hdm.
  pose proof (Z.mod_pos_bound N D HD) as Hr.
  set (q := N / D) in *. set (r := N mod D) in *.
  assert (Hk1 : forall K, N <= K * D -> q <= K) by (intros K HK; nia).
  assert (Hk2 : forall K, K * D <= N -> K <= q) by (intros K HK; nia).
  destruct (Z.compare_spec (2 * r) D) as [Hc | Hc | Hc].
  - destruct (Z.even q).
    + repeat split; [nia | exact Hk1 | exact Hk2].
    + repeat split; [nia | | intros K HK; specialize (Hk2 K HK); lia].
      intros K HK. assert (q < K) by nia. lia.
  - repeat split; [nia | exact Hk1 | exact Hk2].
  - repeat split; [nia | | intros K HK; specialize (Hk2 K HK); lia].
    intros K HK. assert (q < K) by nia. lia.
Qed.

Lemma rne_R (N D : Z) :
  0 < D ->
  (- (1 / 2) <= IZR (rne N D) - IZR N / IZR D <= 1 / 2)%R
  /\ (forall K, (IZR N / IZR D <= IZR K)%R -> rne N D <= K)
  /\ (forall K, (IZR K <= IZR N / IZR D)%R -> K <= rne N D).
Proof.
  intros HD. destruct (rne_Z N D HD) as [Ha [Hb Hc]].
  assert (HD' : (0 < IZR D)%R) by (apply IZR_lt; exact HD).
  split; [| split].
  - assert (H : (2 * Rabs (IZR (rne N D) * IZR D - IZR N) <= IZR D)%R).
    { rewrite <- mult_IZR, <- minus_IZR, <- abs_IZR.
      change 2%R with (IZR 2). rewrite <- mult_IZR. apply IZR_le. exact Ha. }
    assert (E : (IZR (rne N D) - IZR N / IZR D
                 = (IZR (rne N D) * IZR D - IZR N) / IZR D)%R)
      by (field; lra).
    rewrite E. set (u := (IZR (rne N D) * IZR D - IZR N)%R) in *.
    assert (Hu : (- IZR D <= 2 * u <= IZR D)%R).
    { unfold Rabs in H. destruct (Rcase_abs u); lra. }
    split.
    + apply Rmult_le_reg_r with (IZR D); [exact HD' |].
      unfold Rdiv at 2. rewrite Rmult_assoc, Rinv_l by lra. lra.
    + apply Rmult_le_reg_r with (IZR D); [exact HD' |].
      unfold Rdiv at 1. rewrite Rmult_assoc, Rinv_l by lra. lra.
  - intros K HK. apply Hb. apply le_IZR. rewrite mult_IZR.
    apply Rmult_le_compat_r with (r := IZR D) in HK; [| lra].
    unfold Rdiv in HK. rewrite Rmult_assoc, Rinv_l in HK by lra. lra.
  - intros K HK. apply Hc. apply le_IZR. rewrite mult_IZR.
    apply Rmult_le_compat_r with (r := IZR D) in HK; [| lra].
    unfold Rdiv in HK. rewrite Rmult_assoc, Rinv_l in HK by lra. lra.
Qed.


Lemma log2_R (n : Z) :
  0 < n -> (B (Z.log2 n) <= IZR n < B (Z.log2 n + 1))%R.
Proof.
  intros Hn. destruct (Z.log2_spec n Hn) as [H1 H2].
  pose proof (Z.log2_nonneg n) as H0.
  rewrite !B_nonneg by lia. split; [apply IZR_le | apply IZR_lt]; lia.
Qed.


Lemma ilog2_spec (n d : Z) :
  0 < n -> 0 < d ->
  (B (ilog2 n d) <= IZR n / IZR d < B (ilog2 n d + 1))%R.
Proof.
  intros Hn Hd. unfold ilog2.
  destruct (log2_R n Hn) as [Ha1 Ha2]. destruct (log2_R d Hd) as [Hb1 Hb2].
  set (a := Z.log2 n) in *. set (b := Z.log2 d) in *.
  destruct (scale n d (a - b)) as [N D] eqn:Hs.
  destruct (scale_spec _ _ _ _ _ Hd Hs) as [HD [_ [_ HND]]].
  assert (Hd' : (0 < IZR d)%R) by (apply IZR_lt; exact Hd).
  assert (HD' : (0 < IZR D)%R) by (apply IZR_lt; exact HD).
  set (x := (IZR n / IZR d)%R) in *.
  pose proof (B_pos (a - b)) as Hk. pose proof (B_pos b) as Hpb.
  pose proof (B_pos a) as Hpa.
  assert (Ek : (B a = B (a - b) * B b)%R)
    by (rewrite <- B_add; f_equal; lia).
  assert (Ex : (x * IZR d = IZR n)%R) by (unfold x; field; lra).
  assert (Hup : (x < B (a - b + 1))%R).
  { rewrite B_succ. apply Rmult_lt_reg_r with (IZR d); [exact Hd' |].
    rewrite Ex. rewrite B_succ in Ha2. nra. }
  assert (Hlo : (B (a - b - 1) <= x)%R).
  { assert (E1 : (B (a - b) = 2 * B (a - b - 1))%R)
      by (rewrite <- B_succ; f_equal; lia).
    apply Rmult_le_reg_r with (IZR d); [exact Hd' |].
    rewrite Ex. rewrite B_succ in Hb2. nra. }
  assert (Escaled : (IZR N = x * B (- (a - b)) * IZR D)%R).
  { rewrite <- HND. field. lra. }
  rewrite B_opp in Escaled.
  set (u := (/ B (a - b))%R) in *.
  assert (Hu : (B (a - b) * u = 1)%R) by (unfold u; field; lra).
  assert (Hu0 : (0 < u)%R) by (apply Rinv_0_lt_compat; lra).
  destruct (D <=? N) eqn:Hc.
  - apply Z.leb_le in Hc. apply IZR_le in Hc. split; [| exact Hup].
    assert (H1 : (1 <= x * u)%R) by nra.
    nra.
  - apply Z.leb_gt in Hc. apply IZR_lt in Hc.
    replace (a - b - 1 + 1) with (a - b) by lia. split; [exact Hlo |].
    assert (H1 : (x * u < 1)%R) by nra.
    nra.
Qed.

Lemma B_53 : B 53 = IZR (2 ^ 53).
Proof. apply B_nonneg. lia. Qed.

Lemma B_52 : B 52 = IZR (2 ^ 52).
Proof. apply B_nonneg. lia. Qed.

(** The rounding before the mantissa is renormalised. *)
Lemma round_spec (s : bool) (n d : Z) :
  0 < n -> 0 < d ->
  exists m0 e0,
    e0 = Z.max (ilog2 n d - 52) emin
    /\ 0 <= m0 <= 2 ^ 53
    /\ (emin < e0 -> 2 ^ 52 <= m0)
    /\ (- (1 / 2) <= IZR m0 - IZR n / IZR d * B (- e0) <= 1 / 2)%R
    /\ (forall K, (IZR n / IZR d * B (- e0) <= IZR K)%R -> m0 <= K)
    /\ (forall K, (IZR K <= IZR n / IZR d * B (- e0))%R -> K <= m0)
    /\ round s n d =
         (let (m', e') :=
            if m0 =? 2 ^ 53 then (2 ^ 52, e0 + 1) else (m0, e0) in
          if emax <? e' then Inf s else Fin s m' e').
Proof.
  intros Hn Hd. unfold round.
  replace (n =? 0) with false by (symmetry; apply Z.eqb_neq; lia).
  destruct (ilog2_spec n d Hn Hd) as [Hk1 Hk2].
  set (k := ilog2 n d) in *. set (e0 := Z.max (k - 52) emin).
  destruct (scale n d e0) as [N D] eqn:Hs.
  destruct (scale_spec _ _ _ _ _ Hd Hs) as [HD [_ [HN HND]]].
  destruct (rne_R N D HD) as [Herr [Hup Hlo]].
  rewrite HND in Herr, Hup, Hlo.
  set (x := (IZR n / IZR d)%R) in *.
  pose proof (B_pos (- e0)) as Hpe.
  assert (Hx0 : (0 < x)%R) by (pose proof (B_pos k); lra).
  exists (rne N D), e0.
  split; [reflexivity |].
  split; [split |].
  - apply Hlo. simpl. nra.
  - apply Hup. rewrite <- B_53.
    apply Rle_trans with (B (k + 1) * B (- e0))%R; [nra |].
    rewrite <- B_add. apply B_le. unfold e0. lia.
  - split; [| split; [exact Herr | split; [exact Hup | split; [exact Hlo | reflexivity]]]].
    intros He. apply Hlo. rewrite <- B_52.
    apply Rle_trans with (B k * B (- e0))%R; [| nra].
    rewrite <- B_add. apply B_le. unfold e0 in *. lia.
Qed.


(** The outcome of a rounding: the rounded value [m0 * 2^e0] overflows, or
    it is the value of the canonical float returned. *)
Lemma round_value (s : bool) (n d : Z) :
  0 < n -> 0 < d ->
  exists m0 e0,
    e0 = Z.max (ilog2 n d - 52) emin
    /\ 0 <= m0 <= 2 ^ 53
    /\ (emin < e0 -> 2 ^ 52 <= m0)
    /\ (- (1 / 2) <= IZR m0 - IZR n / IZR d * B (- e0) <= 1 / 2)%R
    /\ (forall K, (IZR n / IZR d * B (- e0) <= IZR K)%R -> m0 <= K)
    /\ (forall K, (IZR K <= IZR n / IZR d * B (- e0))%R -> K <= m0)
    /\ ((round s n d = Inf s /\ (B 1024 <= IZR m0 * B e0)%R)
        \/ exists m e,
             round s n d = Fin s m e /\ canonical m e
             /\ F2R m e = (IZR m0 * B e0)%R).
Proof.
  intros Hn Hd.
  destruct (round_spec s n d Hn Hd)
    as (m0 & e0 & He0 & Hm0 & Hnorm & Herr & Hup & Hlo & Hr).
  exists m0, e0. repeat (split; [assumption |]).
  assert (Hemin : emin <= e0) by (rewrite He0; lia).
  rewrite Hr. clear Hr.
  destruct (m0 =? 2 ^ 53) eqn:Hm.
  - apply Z.eqb_eq in Hm.
    assert (Ev : (IZR m0 * B e0 = IZR (2 ^ 52) * B (e0 + 1))%R).
    { rewrite Hm, B_succ, <- B_53, <- B_52.
      replace 53 with (52 + 1) by lia. rewrite B_succ. ring. }
    destruct (emax <? e0 + 1) eqn:Ho.
    + left. split; [reflexivity |]. apply Z.ltb_lt in Ho.
      rewrite Ev, <- B_52, <- B_add. apply B_le. unfold emax in Ho. lia.
    + right. apply Z.ltb_ge in Ho. exists (2 ^ 52), (e0 + 1).
      split; [reflexivity |]. split; [| unfold F2R; lra].
      unfold canonical. lia.
  - apply Z.eqb_neq in Hm.
    destruct (emax <? e0) eqn:Ho.
    + left. split; [reflexivity |]. apply Z.ltb_lt in Ho.
      assert (H52 : 2 ^ 52 <= m0) by (apply Hnorm; unfold emax, emin in *; lia).
      apply IZR_le in H52. rewrite <- B_52 in H52.
      apply Rle_trans with (B 52 * B e0)%R.
      * rewrite <- B_add. apply B_le. unfold emax in Ho. lia.
      * pose proof (B_pos e0). nra.
    + right. apply Z.ltb_ge in Ho. exists m0, e0.
      split; [reflexivity |]. split; [| reflexivity].
      unfold canonical. split; [lia |]. split; [lia |].
      destruct (Z.eq_dec e0 emin); [right; assumption | left; apply Hnorm; lia].
Qed.

Lemma F2R_pow (M E e : Z) :
  e <= E -> F2R M E = (IZR (M * 2 ^ (E - e)) * B e)%R.
Proof.
  intros H. unfold F2R. rewrite mult_IZR, <- B_nonneg by lia.
  rewrite Rmult_assoc, <- B_add. repeat f_equal. lia.
Qed.

Lemma F2R_lt_pow (M E : Z) : 0 <= M < 2 ^ 53 -> (F2R M E < B (53 + E))%R.
Proof.
  intros HM. unfold F2R. rewrite B_add, B_53.
  pose proof (B_pos E). assert (IZR M < IZR (2 ^ 53))%R by (apply IZR_lt; lia).
  nra.
Qed.

(** Rounding does not step over a representable number. *)
Lemma round_le (s : bool) (n d M E : Z) :
  0 < n -> 0 < d -> 0 <= M < 2 ^ 53 -> emin <= E <= emax ->
  (IZR n / IZR d <= F2R M E)%R ->
  exists m e,
    round s n d = Fin s m e /\ canonical m e /\ (F2R m e <= F2R M E)%R.
Proof.
  intros Hn Hd HM HE Hx.
  destruct (round_value s n d Hn Hd)
    as (m0 & e0 & He0 & Hm0 & Hnorm & Herr & Hup & Hlo & Hr).
  destruct (ilog2_spec n d Hn Hd) as [Hk1 Hk2].
  set (x := (IZR n / IZR d)%R) in *.
  pose proof (B_pos e0) as Hp. pose proof (B_pos (- e0)) as Hp'.
  assert (Hinv : (B e0 * B (- e0) = 1)%R)
    by (rewrite <- B_add; replace (e0 + - e0) with 0 by lia; reflexivity).
  assert (Hval : (IZR m0 * B e0 <= F2R M E)%R).
  { destruct (Z_le_gt_dec e0 E) as [Hle | Hgt].
    - rewrite (F2R_pow M E e0 Hle) in *.
      set (K := M * 2 ^ (E - e0)) in *.
      assert (EK : (IZR K * B e0 * B (- e0) = IZR K)%R)
        by (rewrite Rmult_assoc, Hinv; ring).
      assert (m0 <= K).
      { apply Hup.
        apply Rmult_le_compat_r with (r := B (- e0)) in Hx; lra. }
      apply IZR_le in H. nra.
    - exfalso. pose proof (F2R_lt_pow M E HM) as Hlt.
      assert (B (53 + E) <= B (ilog2 n d))%R by (apply B_le; lia).
      lra. }
  destruct Hr as [[_ Hov] | (m & e & Hr & Hc & Hv)].
  - exfalso. pose proof (F2R_lt_pow M E HM) as Hlt.
    assert (B (53 + E) <= B 1024)%R by (apply B_le; unfold emax in HE; lia).
    lra.
  - exists m, e. rewrite Hv. auto.
Qed.

Lemma round_ge (s : bool) (n d M E : Z) :
  0 < n -> 0 < d -> 0 <= M < 2 ^ 53 -> emin <= E ->
  (F2R M E <= IZR n / IZR d)%R ->
  round s n d = Inf s
  \/ exists m e,
       round s n d = Fin s m e /\ canonical m e /\ (F2R M E <= F2R m e)%R.
Proof.
  intros Hn Hd HM HE Hx.
  destruct (round_value s n d Hn Hd)
    as (m0 & e0 & He0 & Hm0 & Hnorm & Herr & Hup & Hlo & Hr).
  set (x := (IZR n / IZR d)%R) in *.
  pose proof (B_pos e0) as Hp. pose proof (B_pos (- e0)) as Hp'.
  assert (Hinv : (B e0 * B (- e0) = 1)%R)
    by (rewrite <- B_add; replace (e0 + - e0) with 0 by lia; reflexivity).
  assert (Hval : (F2R M E <= IZR m0 * B e0)%R).
  { destruct (Z_le_gt_dec e0 E) as [Hle | Hgt].
    - rewrite (F2R_pow M E e0 Hle) in *.
      set (K := M * 2 ^ (E - e0)) in *.
      assert (EK : (IZR K * B e0 * B (- e0) = IZR K)%R)
        by (rewrite Rmult_assoc, Hinv; ring).
      assert (K <= m0).
      { apply Hlo.
        apply Rmult_le_compat_r with (r := B (- e0)) in Hx; lra. }
      apply IZR_le in H. nra.
    - pose proof (F2R_lt_pow M E HM) as Hlt.
      assert (H52 : 2 ^ 52 <= m0) by (apply Hnorm; lia).
      apply IZR_le in H52. rewrite <- B_52 in H52.
      assert (H : (B (53 + E) <= B (52 + e0))%R) by (apply B_le; lia).
      rewrite (B_add 52 e0) in H.
      assert (B 52 * B e0 <= IZR m0 * B e0)%R
        by (apply Rmult_le_compat_r; lra).
      lra. }
  destruct Hr as [[Hr _] | (m & e & Hr & Hc & Hv)].
  - left. exact Hr.
  - right. exists m, e. rewrite Hv. auto.
Qed.


Lemma canonical_representable (m e : Z) : canonical m e -> representable m e.
Proof. unfold canonical, representable. tauto. Qed.

Lemma round_between (s : bool) (n d M1 E1 M2 E2 : Z) :
  0 < n -> 0 < d -> representable M1 E1 -> representable M2 E2 ->
  (F2R M1 E1 <= IZR n / IZR d <= F2R M2 E2)%R ->
  exists m e,
    round s n d = Fin s m e /\ canonical m e
    /\ (F2R M1 E1 <= F2R m e <= F2R M2 E2)%R.
Proof.
  intros Hn Hd [HM1 HE1] [HM2 HE2] [Hlo Hhi].
  destruct (round_le s n d M2 E2 Hn Hd HM2 HE2 Hhi) as (m & e & Hr & Hc & Hv).
  destruct (round_ge s n d M1 E1 Hn Hd HM1 ltac:(lia) Hlo)
    as [Hinf | (m' & e' & Hr' & _ & Hv')].
  - rewrite Hr in Hinf. discriminate Hinf.
  - rewrite Hr in Hr'. inversion Hr'; subst m' e'.
    exists m, e. auto.
Qed.

Lemma round_signed_pos (n d : Z) (z : bool) :
  0 < n -> round_signed n d z = round false n d.
Proof.
  intros Hn. unfold round_signed.
  replace (n =? 0) with false by (symmetry; apply Z.eqb_neq; lia).
  replace (n <? 0) with false by (symmetry; apply Z.ltb_ge; lia).
  rewrite Z.abs_eq by lia. reflexivity.
Qed.

Lemma den_pos (e : Z) : 0 < den e.
Proof.
  unfold den. destruct (0 <=? e) eqn:He; [lia |].
  apply Z.leb_gt in He. apply Z.pow_pos_nonneg; lia.
Qed.

Lemma num_den (m e : Z) :
  (IZR (num false m e) / IZR (den e) = F2R m e)%R.
Proof.
  unfold num, den, F2R. destruct (0 <=? e) eqn:He.
  - apply Z.leb_le in He. rewrite mult_IZR, <- B_nonneg by lia. field.
  - apply Z.leb_gt in He. rewrite <- B_nonneg by lia. rewrite B_opp.
    pose proof (B_pos e). field. lra.
Qed.

Lemma num_pos (m e : Z) : 0 < m -> 0 < num false m e.
Proof.
  intros Hm. unfold num. destruct (0 <=? e) eqn:He; [| lia].
  apply Z.leb_le in He.
  pose proof (Z.pow_pos_nonneg 2 e ltac:(lia) He). nia.
Qed.

Lemma num_neg (m e : Z) : num true m e = - num false m e.
Proof. reflexivity. Qed.

Lemma F2R_pos (m e : Z) : 0 < m -> (0 < F2R m e)%R.
Proof.
  intros Hm. unfold F2R. apply Rmult_lt_0_compat; [| apply B_pos].
  apply IZR_lt. exact Hm.
Qed.

Lemma F2R_pos_inv (m e : Z) : (0 < F2R m e)%R -> 0 < m.
Proof.
  intros H. unfold F2R in H. pose proof (B_pos e).
  apply lt_IZR. nra.
Qed.

Lemma F2R_one : F2R (2 ^ 52) (- 52) = 1%R.
Proof.
  unfold F2R. rewrite <- B_52, <- B_add. reflexivity.
Qed.

Lemma num_den_value (s : bool) (m e : Z) :
  (IZR (num s m e) / IZR (den e) = value (Fin s m e))%R.
Proof.
  destruct s; simpl value; [| apply num_den].
  rewrite num_neg, opp_IZR, <- num_den.
  pose proof (den_pos e) as Hd. apply IZR_lt in Hd. field. lra.
Qed.

Lemma frac_mul (a b c d : Z) :
  0 < b -> 0 < d ->
  (IZR (a * c) / IZR (b * d) = IZR a / IZR b * (IZR c / IZR d))%R.
Proof.
  intros Hb Hd. apply IZR_lt in Hb, Hd. rewrite !mult_IZR. field. lra.
Qed.

Lemma frac_div (a b c d : Z) :
  0 < b -> 0 < d -> 0 < c ->
  (IZR (a * d) / IZR (b * c) = IZR a / IZR b / (IZR c / IZR d))%R.
Proof.
  intros Hb Hd Hc. apply IZR_lt in Hb, Hd, Hc. rewrite !mult_IZR. field. lra.
Qed.

Lemma frac_sub (a b c d : Z) :
  0 < b -> 0 < d ->
  (IZR (a * d + - c * b) / IZR (b * d) = IZR a / IZR b - IZR c / IZR d)%R.
Proof.
  intros Hb Hd. apply IZR_lt in Hb, Hd.
  rewrite plus_IZR, !mult_IZR, opp_IZR. field. lra.
Qed.

Lemma frac_pos (a b : Z) : 0 < b -> (0 < IZR a / IZR b)%R -> 0 < a.
Proof.
  intros Hb H. apply IZR_lt in Hb. apply lt_IZR.
  apply Rmult_lt_compat_r with (r := IZR b) in H; [| lra].
  unfold Rdiv in H. rewrite Rmult_assoc, Rinv_l in H by lra. lra.
Qed.

Lemma compare_Z_value (s : bool) (m e z : Z) :
  match compare_Z (Fin s m e) z with
  | Some Lt => (value (Fin s m e) < IZR z)%R
  | Some Eq => value (Fin s m e) = IZR z
  | Some Gt => (IZR z < value (Fin s m e))%R
  | None => False
  end.
Proof.
  unfold compare_Z. rewrite <- num_den_value.
  pose proof (den_pos e) as Hd. assert (Hd' := IZR_lt _ _ Hd).
  assert (E : forall a : Z, (IZR a / IZR (den e) * IZR (den e) = IZR a)%R)
    by (intros; field; lra).
  destruct (Z.compare_spec (num s m e) (z * den e)) as [H | H | H].
  - rewrite H, mult_IZR. field. lra.
  - apply IZR_lt in H. rewrite mult_IZR in H.
    apply Rmult_lt_reg_r with (IZR (den e)); [exact Hd' |]. rewrite E. lra.
  - apply IZR_lt in H. rewrite mult_IZR in H.
    apply Rmult_lt_reg_r with (IZR (den e)); [exact Hd' |]. rewrite E. lra.
Qed.

Lemma of_Z_100 : of_Z 100 = Fin false 7036874417766400 (-46).
Proof. reflexivity. Qed.

Lemma F2R_100 : F2R 7036874417766400 (-46) = 100%R.
Proof.
  unfold F2R. replace 7036874417766400 with (100 * 2 ^ 46) by reflexivity.
  rewrite mult_IZR, <- B_nonneg by lia. rewrite Rmult_assoc, <- B_add.
  simpl. lra.
Qed.

(** Two distinct floats are at least half a unit in the last place of the
    larger one apart. *)
Lemma gap_below (M E mc ec : Z) :
  canonical M E -> canonical mc ec ->
  (F2R mc ec < F2R M E)%R ->
  (B (Z.max (E - 1) emin) <= F2R M E - F2R mc ec)%R.
Proof.
  intros [HM [HE HN]] [Hmc [Hec _]] Hlt.
  set (E0 := Z.max (E - 1) emin).
  pose proof (B_pos E0) as Hp.
  destruct (Z_le_gt_dec E0 ec) as [Hle | Hgt].
  - rewrite (F2R_pow M E E0) in * by (unfold E0; lia).
    rewrite (F2R_pow mc ec E0) in * by exact Hle.
    set (Kf := M * 2 ^ (E - E0)) in *. set (Kc := mc * 2 ^ (ec - E0)) in *.
    assert (Kc < Kf) by (apply lt_IZR; nra).
    assert (IZR Kc + 1 <= IZR Kf)%R
      by (rewrite <- (plus_IZR Kc 1); apply IZR_le; lia).
    nra.
  - assert (HE0 : E0 = E - 1) by (unfold E0 in *; lia).
    assert (H52 : 2 ^ 52 <= M) by (destruct HN; [assumption | unfold E0 in *; lia]).
    pose proof (F2R_lt_pow mc ec Hmc) as Hc.
    assert (Hc' : (B (53 + ec) <= B (51 + E))%R) by (apply B_le; lia).
    assert (Hf : (B (52 + E) <= F2R M E)%R).
    { unfold F2R. rewrite B_add, B_52. apply Rmult_le_compat_r.
      - pose proof (B_pos E). lra.
      - apply IZR_le. exact H52. }
    replace (52 + E) with (51 + E + 1) in Hf by lia. rewrite B_succ in Hf.
    assert (B E0 <= B (51 + E))%R by (apply B_le; lia).
    lra.
Qed.

(** Integers up to [2^53] convert exactly. *)
Lemma of_Z_exact (z : Z) :
  0 < z <= 2 ^ 53 ->
  exists m e, of_Z z = Fin false m e /\ canonical m e /\ F2R m e = IZR z.
Proof.
  intros Hz. unfold of_Z. rewrite round_signed_pos by lia.
  assert (Hrep : exists M E, representable M E /\ F2R M E = IZR z).
  { destruct (Z.eq_dec z (2 ^ 53)) as [-> | Hne].
    - exists (2 ^ 52), 1. split; [unfold representable, emin, emax; lia |].
      unfold F2R. rewrite <- B_52, <- B_53, <- B_add. reflexivity.
    - exists z, 0. split; [unfold representable, emin, emax; lia |].
      unfold F2R. simpl. ring. }
  destruct Hrep as (M & E & Hrep & HME).
  destruct (round_between false z 1 M E M E) as (m & e & Hr & Hc & Hlo & Hhi);
    try assumption; try lia.
  { rewrite HME. unfold Rdiv. rewrite Rinv_1. lra. }
  exists m, e. split; [exact Hr |]. split; [exact Hc |]. lra.
Qed.

(** In the normal range, rounding is off by at most half a unit in the last
    place. *)
Lemma round_error (s : bool) (n d : Z) :
  0 < n -> 0 < d ->
  (B (emin + 52) <= IZR n / IZR d)%R ->
  round s n d = Inf s
  \/ exists m e,
       round s n d = Fin s m e /\ canonical m e
       /\ (- (IZR n / IZR d * B (- 53)) <= F2R m e - IZR n / IZR d
           <= IZR n / IZR d * B (- 53))%R.
Proof.
  intros Hn Hd Hx.
  destruct (round_value s n d Hn Hd)
    as (m0 & e0 & He0 & Hm0 & Hnorm & Herr & Hup & Hlo & Hr).
  destruct Hr as [[Hr _] | (m & e & Hr & Hc & Hv)]; [left; exact Hr |].
  right. exists m, e. split; [exact Hr |]. split; [exact Hc |].
  rewrite Hv. destruct (ilog2_spec n d Hn Hd) as [Hk1 Hk2].
  set (x := (IZR n / IZR d)%R) in *. set (k := ilog2 n d) in *.
  assert (Hk : emin + 52 <= k).
  { destruct (Z_lt_le_dec k (emin + 52)) as [Hlt | Hle]; [| exact Hle].
    assert (B (k + 1) <= B (emin + 52))%R by (apply B_le; lia). lra. }
  assert (Ee : e0 = k - 52) by lia.
  pose proof (B_pos e0) as Hp. pose proof (B_pos (- e0)) as Hp'.
  assert (Hinv : (B e0 * B (- e0) = 1)%R)
    by (rewrite <- B_add; replace (e0 + - e0) with 0 by lia; reflexivity).
  assert (Ek : (B k = B e0 * B 52)%R) by (rewrite <- B_add; f_equal; lia).
  assert (E53 : (B 52 * B (- 53) = 1 / 2)%R)
    by (rewrite <- B_add; simpl; lra).
  assert (Hhalf : (B e0 / 2 <= x * B (- 53))%R).
  { pose proof (B_pos (- 53)). pose proof (B_pos 52).
    assert (B e0 * (B 52 * B (- 53)) <= x * B (- 53))%R.
    { rewrite <- Rmult_assoc, <- Ek. apply Rmult_le_compat_r; lra. }
    rewrite E53 in H1. lra. }
  assert (Ediff : (IZR m0 * B e0 - x
                   = (IZR m0 - x * B (- e0)) * B e0)%R).
  { rewrite Rmult_minus_distr_r, (Rmult_assoc x), (Rmult_comm (B (- e0))), Hinv.
    ring. }
  rewrite Ediff. split; nra.
Qed.

Lemma round_wf (s : bool) (n d : Z) :
  0 < n -> 0 < d -> well_formed (round s n d).
Proof.
  intros Hn Hd.
  destruct (round_value s n d Hn Hd)
    as (m0 & e0 & _ & _ & _ & _ & _ & _ & Hr).
  destruct Hr as [[Hr _] | (m & e & Hr & Hc & _)]; rewrite Hr; simpl; auto.
Qed.

Lemma zero_canonical : canonical 0 emin.
Proof. unfold canonical, emin, emax. lia. Qed.

Lemma round_signed_wf (n d : Z) (z : bool) :
  0 < d -> well_formed (round_signed n d z).
Proof.
  intros Hd. unfold round_signed. destruct (n =? 0) eqn:Hn.
  - simpl. apply zero_canonical.
  - apply Z.eqb_neq in Hn. apply round_wf; lia.
Qed.

Lemma mul_wf (x y : float) : well_formed (mul x y).
Proof.
  destruct x as [| s | s m e]; destruct y as [| t | t m' e']; simpl; auto.
  - destruct (m' =? 0); simpl; auto.
  - destruct (m =? 0); simpl; auto.
  - apply round_signed_wf. pose proof (den_pos e). pose proof (den_pos e'). nia.
Qed.

(** The unit roundoff. *)
Lemma u_small : (0 < B (- 53) <= 1 / 4)%R.
Proof.
  split; [apply B_pos |].
  replace (1 / 4)%R with (B (- 2)) by (simpl; lra).
  apply B_le. lia.
Qed.

Lemma B_51 : (B (- 51) = 4 * B (- 53))%R.
Proof.
  replace (- 51) with (2 + - 53) by lia. rewrite B_add. simpl. lra.
Qed.

(** Rounding in the normal range, below a representable bound: the result
    is finite, below the bound, and within one unit roundoff of the
    argument. *)
Lemma round_normal (s : bool) (n d M E : Z) :
  0 < n -> 0 < d -> representable M E ->
  (B (emin + 52) <= IZR n / IZR d <= F2R M E)%R ->
  exists m e,
    round s n d = Fin s m e /\ canonical m e
    /\ (F2R m e <= F2R M E)%R
    /\ ((1 - B (- 53)) * (IZR n / IZR d) <= F2R m e
        <= (1 + B (- 53)) * (IZR n / IZR d))%R.
Proof.
  intros Hn Hd [HM HE] [Hlo Hhi].
  destruct (round_le s n d M E Hn Hd HM HE Hhi) as (m & e & Hr & Hc & Hb).
  destruct (round_error s n d Hn Hd Hlo)
    as [Hinf | (m' & e' & Hr' & _ & Herr)].
  - rewrite Hr in Hinf. discriminate Hinf.
  - rewrite Hr in Hr'. inversion Hr'; subst m' e'.
    exists m, e. split; [exact Hr |]. split; [exact Hc |].
    split; [exact Hb |]. lra.
Qed.

(** A representable number rounds to itself. *)
Lemma round_exact (s : bool) (n d M E : Z) :
  0 < n -> 0 < d -> representable M E ->
  (IZR n / IZR d = F2R M E)%R ->
  exists m e,
    round s n d = Fin s m e /\ canonical m e
    /\ F2R m e = (IZR n / IZR d)%R.
Proof.
  intros Hn Hd HME Hx.
  destruct (round_between s n d M E M E Hn Hd HME HME ltac:(lra))
    as (m & e & Hr & Hc & H1 & H2).
  exists m, e. split; [exact Hr |]. split; [exact Hc |]. lra.
Qed.


(** Each operation on positive finite floats is the rounding of its exact
    result. *)
Lemma mul_as_round (ma ea mb eb : Z) :
  0 < ma -> 0 < mb ->
  exists n d,
    0 < n /\ 0 < d
    /\ mul (Fin false ma ea) (Fin false mb eb) = round false n d
    /\ (IZR n / IZR d = F2R ma ea * F2R mb eb)%R.
Proof.
  intros Ha Hb.
  pose proof (num_pos ma ea Ha). pose proof (num_pos mb eb Hb).
  pose proof (den_pos ea). pose proof (den_pos eb).
  exists (num false ma ea * num false mb eb), (den ea * den eb).
  split; [nia |]. split; [nia |]. split.
  - unfold mul. apply round_signed_pos. nia.
  - rewrite frac_mul, !num_den by assumption. reflexivity.
Qed.

Lemma div_as_round (ma ea mb eb : Z) :
  0 < ma -> 0 < mb ->
  exists n d,
    0 < n /\ 0 < d
    /\ div (Fin false ma ea) (Fin false mb eb) = round false n d
    /\ (IZR n / IZR d = F2R ma ea / F2R mb eb)%R.
Proof.
  intros Ha Hb.
  pose proof (num_pos ma ea Ha). pose proof (num_pos mb eb Hb).
  pose proof (den_pos ea). pose proof (den_pos eb).
  exists (num false ma ea * den eb), (den ea * num false mb eb).
  split; [nia |]. split; [nia |]. split.
  - unfold div.
    replace (mb =? 0) with false by (symmetry; apply Z.eqb_neq; lia).
    simpl xorb. cbv iota. rewrite !Z.abs_eq by lia. rewrite Z.mul_1_l.
    apply round_signed_pos. nia.
  - rewrite frac_div, !num_den by assumption. reflexivity.
Qed.

Lemma sub_as_round (ma ea mb eb : Z) (s : bool) :
  (0 < F2R ma ea - value (Fin s mb eb))%R ->
  exists n d,
    0 < n /\ 0 < d
    /\ sub (Fin false ma ea) (Fin s mb eb) = round false n d
    /\ (IZR n / IZR d = F2R ma ea - value (Fin s mb eb))%R.
Proof.
  intros Hpos.
  pose proof (den_pos ea). pose proof (den_pos eb).
  assert (E : num (negb s) mb eb = - num s mb eb)
    by (destruct s; simpl; unfold num; destruct (0 <=? eb); lia).
  assert (Ex : (IZR (num false ma ea * den eb + - num s mb eb * den ea)
                / IZR (den ea * den eb)
                = F2R ma ea - value (Fin s mb eb))%R).
  { rewrite frac_sub, num_den, num_den_value by assumption. reflexivity. }
  assert (Hn : 0 < num false ma ea * den eb + - num s mb eb * den ea).
  { apply frac_pos with (b := den ea * den eb); [nia |]. rewrite Ex. exact Hpos. }
  exists (num false ma ea * den eb + - num s mb eb * den ea),
         (den ea * den eb).
  split; [exact Hn |]. split; [nia |]. split; [| exact Ex].
  unfold sub, neg, add. rewrite E. apply round_signed_pos. exact Hn.
Qed.

Lemma div_Z_as_round (n f : Z) :
  0 < n -> 0 < f -> div_Z n f = round false n f.
Proof.
  intros Hn Hf. unfold div_Z.
  rewrite Z.sgn_pos by exact Hf. rewrite Z.mul_1_l, Z.abs_eq by lia.
  apply round_signed_pos. exact Hn.
Qed.


Lemma hundred_representable : representable 7036874417766400 (-46).
Proof. unfold representable, emin, emax. lia. Qed.

Lemma one_representable : representable (2 ^ 52) (- 52).
Proof. unfold representable, emin, emax. lia. Qed.

Lemma B_normal_le (k : Z) : emin + 52 <= k -> (B (emin + 52) <= B k)%R.
Proof. apply B_le. Qed.

(** A ratio in [2^-55, 1] times 100: a percentage in (0, 100], within one
    unit roundoff of the exact product. *)
Lemma percent_of_ratio (mq eq : Z) :
  canonical mq eq -> (B (- 55) <= F2R mq eq <= 1)%R ->
  exists m e,
    mul (Fin false mq eq) (of_Z 100) = Fin false m e /\ canonical m e
    /\ (0 < F2R m e <= 100)%R
    /\ ((1 - B (- 53)) * (100 * F2R mq eq) <= F2R m e
        <= (1 + B (- 53)) * (100 * F2R mq eq))%R.
Proof.
  intros Hc [Hlo Hhi]. rewrite of_Z_100.
  pose proof (B_pos (- 55)) as Hp55.
  assert (Hq : 0 < mq) by (apply F2R_pos_inv with (e := eq); lra).
  destruct (mul_as_round mq eq 7036874417766400 (-46) Hq ltac:(lia))
    as (n & d & Hn & Hd & Hmul & Hx).
  rewrite F2R_100 in Hx.
  pose proof (B_normal_le (- 55) ltac:(unfold emin; lia)) as Hnorm.
  destruct (round_normal false n d 7036874417766400 (-46) Hn Hd
              hundred_representable)
    as (m & e & Hr & Hcm & Hb & Hacc).
  { rewrite Hx, F2R_100. lra. }
  rewrite F2R_100 in Hb. rewrite Hx in Hacc.
  exists m, e. rewrite Hmul. split; [exact Hr |]. split; [exact Hcm |].
  pose proof u_small as Hu.
  split; [| lra]. split; [nra | exact Hb].
Qed.

(** The quotient of two integers [0 < n <= f <= 2^53]. *)
Lemma ratio_of_ints (n f : Z) :
  0 < n <= f -> f <= 2 ^ 53 ->
  exists m e,
    div_Z n f = Fin false m e /\ canonical m e
    /\ (B (- 55) <= F2R m e <= 1)%R
    /\ ((1 - B (- 53)) * (IZR n / IZR f) <= F2R m e
        <= (1 + B (- 53)) * (IZR n / IZR f))%R.
Proof.
  intros Hn Hf.
  assert (Hf' : (0 < IZR f)%R) by (apply IZR_lt; lia).
  assert (Hn' : (1 <= IZR n <= IZR f)%R) by (split; apply IZR_le; lia).
  assert (Hfb : (IZR f <= B 53)%R) by (rewrite B_53; apply IZR_le; lia).
  assert (Einv : (B (- 53) * B 53 = 1)%R) by (rewrite <- B_add; reflexivity).
  pose proof u_small as Hu. pose proof (B_pos 53) as Hp53.
  assert (Hx : (B (- 53) <= IZR n / IZR f <= 1)%R).
  { split.
    - apply Rmult_le_reg_r with (IZR f); [exact Hf' |].
      unfold Rdiv. rewrite Rmult_assoc, Rinv_l by lra. nra.
    - apply Rmult_le_reg_r with (IZR f); [exact Hf' |].
      unfold Rdiv. rewrite Rmult_assoc, Rinv_l by lra. lra. }
  rewrite div_Z_as_round by lia.
  pose proof (B_normal_le (- 53) ltac:(unfold emin; lia)) as Hnorm.
  destruct (round_normal false n f (2 ^ 52) (- 52) ltac:(lia) ltac:(lia)
              one_representable)
    as (m & e & Hr & Hcm & Hb & Hacc).
  { rewrite F2R_one. lra. }
  rewrite F2R_one in Hb.
  exists m, e. split; [exact Hr |]. split; [exact Hcm |].
  split; [| exact Hacc]. split; [| exact Hb].
  assert (E55 : (B (- 53) = 4 * B (- 55))%R).
  { replace (- 53) with (2 + - 55) by lia. rewrite B_add. simpl. lra. }
  pose proof (B_pos (- 55)). nra.
Qed.


Lemma nonneg_value (s : bool) (m e : Z) :
  canonical m e -> (0 <= value (Fin s m e))%R ->
  value (Fin s m e) = F2R m e.
Proof.
  intros Hc H0. destruct s; [| reflexivity]. simpl in *.
  assert (0 <= F2R m e)%R; [| lra].
  unfold F2R. apply Rmult_le_pos; [| pose proof (B_pos e); lra].
  apply IZR_le. destruct Hc as [H _]. lia.
Qed.

(** The difference of two floats [0 <= c < f]: at least half a unit in the
    last place of [f], at most [f], and within one unit roundoff of the
    exact difference. *)
Lemma sub_accuracy (M E mc ec : Z) (s : bool) :
  canonical M E -> canonical mc ec ->
  (0 <= value (Fin s mc ec) < F2R M E)%R ->
  exists md ed,
    sub (Fin false M E) (Fin s mc ec) = Fin false md ed /\ canonical md ed
    /\ (B (Z.max (E - 1) emin) <= F2R md ed <= F2R M E)%R
    /\ ((1 - B (- 53)) * (F2R M E - value (Fin s mc ec)) <= F2R md ed
        <= (1 + B (- 53)) * (F2R M E - value (Fin s mc ec)))%R.
Proof.
  intros HcM Hcc [Hc0 Hlt].
  pose proof (nonneg_value s mc ec Hcc Hc0) as Hv.
  rewrite Hv in *.
  pose proof (gap_below M E mc ec HcM Hcc Hlt) as Hgap.
  set (E0 := Z.max (E - 1) emin) in *.
  set (D := (F2R M E - F2R mc ec)%R) in *.
  assert (HD : (0 < D <= F2R M E)%R) by (unfold D; lra).
  assert (HE0 : representable 1 E0).
  { destruct HcM as [_ [HE _]]. unfold representable, E0. lia. }
  destruct (sub_as_round M E mc ec s) as (n & d & Hn & Hd & Hsub & Hx).
  { rewrite Hv. apply HD. }
  rewrite Hv in Hx. fold D in Hx.
  destruct (round_between false n d 1 E0 M E Hn Hd HE0
              (canonical_representable _ _ HcM))
    as (md & ed & Hr & Hcd & Hdlo & Hdhi).
  { rewrite Hx. replace (F2R 1 E0) with (B E0) by (unfold F2R; lra). lra. }
  exists md, ed. rewrite Hsub. split; [exact Hr |]. split; [exact Hcd |].
  split; [unfold F2R in Hdlo at 1; lra |].
  pose proof u_small as Hu.
  destruct (Rle_lt_dec (B (emin + 52)) D) as [Hnormal | Hsub'].
  - destruct (round_normal false n d M E Hn Hd
                (canonical_representable _ _ HcM))
      as (m' & e' & Hr' & _ & _ & Hacc).
    { rewrite Hx. lra. }
    rewrite Hr in Hr'. inversion Hr'; subst m' e'.
    rewrite Hx in Hacc. exact Hacc.
  - assert (HEM : emin <= E) by (destruct HcM as [_ [H _]]; lia).
    assert (Hec : emin <= ec) by (destruct Hcc as [_ [H _]]; lia).
    set (K := M * 2 ^ (E - emin) - mc * 2 ^ (ec - emin)).
    assert (EK : D = F2R K emin).
    { unfold D, K. rewrite (F2R_pow M E emin HEM), (F2R_pow mc ec emin Hec).
      unfold F2R. rewrite minus_IZR. ring. }
    assert (HK : 0 < K < 2 ^ 52).
    { pose proof (B_pos emin) as Hp. split.
      - apply F2R_pos_inv with (e := emin). rewrite <- EK. apply HD.
      - apply lt_IZR. rewrite <- B_52. rewrite B_add in Hsub'.
        rewrite EK in Hsub'. unfold F2R in Hsub'. nra. }
    destruct (round_exact false n d K emin Hn Hd) as (m' & e' & Hr' & _ & Hex).
    { unfold representable, emin, emax. lia. }
    { rewrite Hx. exact EK. }
    rewrite Hr in Hr'. inversion Hr'; subst m' e'.
    rewrite Hex, Hx. nra.
Qed.


Lemma cube_roundoff (u : R) :
  (0 < u <= 1 / 4 ->
   1 - 4 * u <= (1 - u) * ((1 - u) * (1 - u))
   /\ (1 + u) * ((1 + u) * (1 + u)) <= 1 + 4 * u)%R.
Proof. intros Hu. split; nra. Qed.

(** Three roundings of a positive quantity stay within [4u] of it. *)
Lemma three_roundings (u x a b c : R) :
  (0 < u <= 1 / 4 -> 0 < x ->
   (1 - u) * x <= a <= (1 + u) * x ->
   (1 - u) * a <= b <= (1 + u) * a ->
   (1 - u) * b <= c <= (1 + u) * b ->
   (1 - 4 * u) * x <= c <= (1 + 4 * u) * x)%R.
Proof.
  intros Hu Hx Ha Hb Hc.
  destruct (cube_roundoff u Hu) as [Hlo Hhi].
  assert (H1 : (0 < 1 - u)%R) by lra.
  assert (Hb' : ((1 - u) * ((1 - u) * x) <= b
                 <= (1 + u) * ((1 + u) * x))%R) by (split; nra).
  assert (Hc' : ((1 - u) * ((1 - u) * ((1 - u) * x)) <= c
                 <= (1 + u) * ((1 + u) * ((1 + u) * x)))%R) by (split; nra).
  split.
  - apply Rle_trans with ((1 - u) * ((1 - u) * (1 - u)) * x)%R; [| lra].
    apply Rmult_le_compat_r; lra.
  - apply Rle_trans with ((1 + u) * ((1 + u) * (1 + u)) * x)%R; [lra |].
    apply Rmult_le_compat_r; lra.
Qed.

(** The percentage of two floats [0 <= c < f]: finite, in (0, 100], and
    within [2^-51] of the exact percentage, relatively. *)
Lemma percentage_of_floats (M E mc ec : Z) (s : bool) :
  canonical M E -> canonical mc ec ->
  (0 <= value (Fin s mc ec) < F2R M E)%R ->
  exists m e,
    mul (div (sub (Fin false M E) (Fin s mc ec)) (Fin false M E)) (of_Z 100)
    = Fin false m e
    /\ canonical m e /\ (0 < F2R m e <= 100)%R
    /\ ((1 - B (- 51))
          * (100 * ((F2R M E - value (Fin s mc ec)) / F2R M E))
        <= F2R m e
        <= (1 + B (- 51))
             * (100 * ((F2R M E - value (Fin s mc ec)) / F2R M E)))%R.
Proof.
  intros HcM Hcc Hv.
  destruct (sub_accuracy M E mc ec s HcM Hcc Hv)
    as (md & ed & Hd & Hcd & [Hdlo Hdhi] & Hdacc).
  set (vc := value (Fin s mc ec)) in *.
  set (F := F2R M E) in *. set (vd := F2R md ed) in *.
  pose proof u_small as Hu. set (u := B (- 53)) in *.
  assert (HF : (0 < F)%R) by lra.
  assert (HM0 : 0 < M) by (apply F2R_pos_inv with (e := E); exact HF).
  assert (Hvd : (0 < vd)%R).
  { pose proof (B_pos (Z.max (E - 1) emin)). lra. }
  assert (Hd0 : 0 < md) by (apply F2R_pos_inv with (e := ed); exact Hvd).
  assert (Hrel : (B (- 54) * F <= vd)%R).
  { pose proof (F2R_lt_pow M E (proj1 HcM)) as Hup. fold F in Hup.
    assert (B (- 54) * B (53 + E) <= B (Z.max (E - 1) emin))%R.
    { rewrite <- B_add. apply B_le. lia. }
    pose proof (B_pos (- 54)). nra. }
  destruct (div_as_round md ed M E Hd0 HM0) as (n & d & Hn & Hdd & Hdiv & Hx).
  fold F vd in Hx.
  assert (Hx2 : (B (- 54) <= vd / F <= 1)%R).
  { split.
    - apply Rmult_le_reg_r with F; [exact HF |].
      unfold Rdiv. rewrite Rmult_assoc, Rinv_l by lra. lra.
    - apply Rmult_le_reg_r with F; [exact HF |].
      unfold Rdiv. rewrite Rmult_assoc, Rinv_l by lra. lra. }
  pose proof (B_normal_le (- 54) ltac:(unfold emin; lia)) as Hnorm.
  destruct (round_normal false n d (2 ^ 52) (- 52) Hn Hdd one_representable)
    as (mq & eq & Hq & Hcq & Hqb & Hqacc).
  { rewrite Hx, F2R_one. lra. }
  rewrite F2R_one in Hqb. rewrite Hx in Hqacc. fold u in Hqacc.
  set (vq := F2R mq eq) in *.
  assert (E54 : (B (- 54) = 2 * B (- 55))%R).
  { replace (- 54) with (- 55 + 1) by lia. apply B_succ. }
  pose proof (B_pos (- 55)) as Hp55.
  destruct (percent_of_ratio mq eq Hcq) as (m & e & Hm & Hcm & Hr & Hpacc).
  { fold vq. split; [nra | exact Hqb]. }
  fold vq u in Hpacc.
  exists m, e. rewrite Hd, Hdiv, Hq. split; [exact Hm |].
  split; [exact Hcm |]. split; [exact Hr |].
  rewrite B_51. fold u.
  set (x := (100 * ((F - vc) / F))%R).
  assert (Hx0 : (0 < x)%R).
  { unfold x. apply Rmult_lt_0_compat; [lra |].
    apply Rdiv_lt_0_compat; lra. }
  apply (three_roundings u x (100 * (vd / F)) (100 * vq) (F2R m e) Hu Hx0).
  - unfold x. assert (Hinv : (0 < / F)%R) by (apply Rinv_0_lt_compat; lra).
    unfold Rdiv. split; nra.
  - split; nra.
  - exact Hpacc.
Qed.


(** The percentage of two integers [0 <= c < f <= 2^53]. *)
Lemma percentage_of_ints (zc zf : Z) :
  0 <= zc < zf -> zf <= 2 ^ 53 ->
  exists m e,
    mul (div_Z (zf - zc) zf) (of_Z 100) = Fin false m e
    /\ canonical m e /\ (0 < F2R m e <= 100)%R
    /\ ((1 - B (- 51)) * (100 * ((IZR zf - IZR zc) / IZR zf)) <= F2R m e
        <= (1 + B (- 51)) * (100 * ((IZR zf - IZR zc) / IZR zf)))%R.
Proof.
  intros Hz Hb.
  destruct (ratio_of_ints (zf - zc) zf ltac:(lia) Hb)
    as (mq & eq & Hq & Hcq & Hqb & Hqacc).
  destruct (percent_of_ratio mq eq Hcq Hqb)
    as (m & e & Hm & Hcm & Hr & Hpacc).
  exists m, e. rewrite Hq. split; [exact Hm |]. split; [exact Hcm |].
  split; [exact Hr |].
  rewrite minus_IZR in Hqacc.
  pose proof u_small as Hu. rewrite B_51. set (u := B (- 53)) in *.
  assert (Hf : (0 < IZR zf)%R) by (apply IZR_lt; lia).
  assert (Hc : (IZR zc < IZR zf)%R) by (apply IZR_lt; lia).
  set (r := ((IZR zf - IZR zc) / IZR zf)%R) in *.
  assert (Hr0 : (0 < r)%R) by (unfold r; apply Rdiv_lt_0_compat; lra).
  apply (three_roundings u (100 * r) (100 * r) (100 * F2R mq eq) (F2R m e)
           Hu ltac:(lra)).
  - split; nra.
  - split; nra.
  - exact Hpacc.
Qed.

Lemma round_signed_neg (n d : Z) (z : bool) :
  n < 0 -> round_signed n d z = round true (- n) d.
Proof.
  intros Hn. unfold round_signed.
  replace (n =? 0) with false by (symmetry; apply Z.eqb_neq; lia).
  replace (n <? 0) with true by (symmetry; apply Z.ltb_lt; lia).
  rewrite Z.abs_neq by lia. reflexivity.
Qed.

(** A product with a positive float keeps the sign of the other factor. *)
Lemma mul_signed_as_round (s : bool) (ma ea mb eb : Z) :
  0 < ma -> 0 < mb ->
  exists n d,
    0 < n /\ 0 < d
    /\ mul (Fin s ma ea) (Fin false mb eb) = round s n d
    /\ (IZR n / IZR d = F2R ma ea * F2R mb eb)%R.
Proof.
  intros Ha Hb. destruct s; [| apply mul_as_round; assumption].
  pose proof (num_pos ma ea Ha). pose proof (num_pos mb eb Hb).
  pose proof (den_pos ea). pose proof (den_pos eb).
  exists (num false ma ea * num false mb eb), (den ea * den eb).
  split; [nia |]. split; [nia |]. split.
  - unfold mul. rewrite num_neg. rewrite round_signed_neg by nia.
    f_equal. lia.
  - rewrite frac_mul, !num_den by assumption. reflexivity.
Qed.

Lemma sixty_representable : representable (2 ^ 52) 8.
Proof. unfold representable, emin, emax. lia. Qed.

Lemma F2R_sixty : F2R (2 ^ 52) 8 = B 60.
Proof. unfold F2R. rewrite <- B_52, <- B_add. reflexivity. Qed.

(** A ratio of either sign, of magnitude in [2^-55, 2^53], times 100. *)
Lemma percent_of_signed_ratio (s : bool) (mq eq : Z) :
  canonical mq eq -> (B (- 55) <= F2R mq eq <= B 53)%R ->
  exists m e,
    mul (Fin s mq eq) (of_Z 100) = Fin s m e /\ canonical m e
    /\ (0 < F2R m e)%R
    /\ ((1 - B (- 53)) * (100 * F2R mq eq) <= F2R m e
        <= (1 + B (- 53)) * (100 * F2R mq eq))%R.
Proof.
  intros Hc [Hlo Hhi]. rewrite of_Z_100.
  pose proof (B_pos (- 55)) as Hp55.
  assert (Hq : 0 < mq) by (apply F2R_pos_inv with (e := eq); lra).
  destruct (mul_signed_as_round s mq eq 7036874417766400 (-46) Hq ltac:(lia))
    as (n & d & Hn & Hd & Hmul & Hx).
  rewrite F2R_100 in Hx.
  pose proof (B_normal_le (- 55) ltac:(unfold emin; lia)) as Hnorm.
  assert (H60 : (100 * B 53 <= B 60)%R).
  { replace 60 with (7 + 53) by lia. rewrite B_add.
    pose proof (B_pos 53). simpl. nra. }
  destruct (round_normal s n d (2 ^ 52) 8 Hn Hd sixty_representable)
    as (m & e & Hr & Hcm & Hb & Hacc).
  { rewrite Hx, F2R_sixty. split; nra. }
  rewrite Hx in Hacc.
  exists m, e. rewrite Hmul. split; [exact Hr |]. split; [exact Hcm |].
  pose proof u_small as Hu. split; [nra | lra].
Qed.

(** The quotient of a negative by a positive integer. *)
Lemma ratio_of_ints_neg (n f : Z) :
  0 < n <= 2 ^ 53 -> 0 < f <= 2 ^ 53 ->
  exists m e,
    div_Z (- n) f = Fin true m e /\ canonical m e
    /\ (B (- 55) <= F2R m e <= B 53)%R
    /\ ((1 - B (- 53)) * (IZR n / IZR f) <= F2R m e
        <= (1 + B (- 53)) * (IZR n / IZR f))%R.
Proof.
  intros Hn Hf.
  assert (Hf' : (1 <= IZR f <= B 53)%R).
  { rewrite B_53. split; apply IZR_le; lia. }
  assert (Hn' : (1 <= IZR n <= B 53)%R).
  { rewrite B_53. split; apply IZR_le; lia. }
  assert (Einv : (B (- 53) * B 53 = 1)%R) by (rewrite <- B_add; reflexivity).
  pose proof u_small as Hu. pose proof (B_pos 53) as Hp53.
  assert (Hx : (B (- 53) <= IZR n / IZR f <= B 53)%R).
  { split.
    - apply Rmult_le_reg_r with (IZR f); [lra |].
      unfold Rdiv. rewrite Rmult_assoc, Rinv_l by lra. nra.
    - apply Rmult_le_reg_r with (IZR f); [lra |].
      unfold Rdiv. rewrite Rmult_assoc, Rinv_l by lra. nra. }
  assert (Hdiv : div_Z (- n) f = round true n f).
  { unfold div_Z. rewrite Z.sgn_pos by lia.
    rewrite Z.mul_1_l, Z.abs_eq by lia.
    rewrite round_signed_neg by lia. f_equal. lia. }
  pose proof (B_normal_le (- 53) ltac:(unfold emin; lia)) as Hnorm.
  destruct (round_normal true n f (2 ^ 52) 1 ltac:(lia) ltac:(lia))
    as (m & e & Hr & Hcm & Hb & Hacc).
  { unfold representable, emin, emax. lia. }
  { replace (F2R (2 ^ 52) 1) with (B 53); [lra |].
    unfold F2R. rewrite <- B_52, <- B_add. reflexivity. }
  replace (F2R (2 ^ 52) 1) with (B 53) in Hb
    by (unfold F2R; rewrite <- B_52, <- B_add; reflexivity).
  exists m, e. rewrite Hdiv. split; [exact Hr |]. split; [exact Hcm |].
  split; [| exact Hacc]. split; [| exact Hb].
  assert (E55 : (B (- 53) = 4 * B (- 55))%R).
  { replace (- 53) with (2 + - 55) by lia. rewrite B_add. simpl. lra. }
  pose proof (B_pos (- 55)). nra.
Qed.

End F64Facts.

Import F64Facts.

(** ** Congestion classifier *)

Lemma mul_float_100 (q : F64.float) :
  mul (PFloat q) (PInt 100) = Ok (PFloat (F64.mul q (F64.of_Z 100))).
Proof. reflexivity. Qed.

(** The percentage is the integer 0 or a well-formed float. *)
Lemma spec_percentage_shape (c f pct : pyval) :
  spec_percentage c f = Ok pct ->
  pct = PInt 0 \/ exists x, pct = PFloat x /\ F64.well_formed x.
Proof.
  unfold spec_percentage. intros H. invert_run H.
  destruct a; [| left; inversion H; reflexivity].
  invert_run H. right.
  destruct (truediv_float _ _ _ Hstep1) as [q Hq]. subst.
  rewrite mul_float_100 in H. inversion H.
  eexists. split; [reflexivity |]. apply mul_wf.
Qed.

(** [format(x, '.2f')] of a finite float: the hundredths nearest to it. *)
Lemma format_2f_hundredths (s : bool) (m e : Z) :
  0 <= m ->
  exists h,
    0 <= h
    /\ Text.format_2f (F64.Fin s m e) =
         Text.sign_prefix s ++ Text.digits (h / 100) ++ "."
           ++ String (Text.digit (h / 10 mod 10))
                (String (Text.digit (h mod 10)) "")
    /\ (- (1 / 2) <= IZR h - 100 * F64.F2R m e <= 1 / 2)%R.
Proof.
  intros Hm. unfold Text.format_2f.
  destruct (F64.scale (m * 100) 1 (- e)) as [N D] eqn:Hs.
  destruct (scale_spec (m * 100) 1 (- e) N D ltac:(lia) Hs)
    as [HD [HN [_ HND]]].
  destruct (rne_R N D HD) as [Herr [_ Hlo]].
  exists (F64.rne N D). split; [| split; [reflexivity |]].
  - apply Hlo. rewrite HND.
    assert (0 <= IZR (m * 100))%R by (apply IZR_le; lia).
    pose proof (B_pos (- - e)). unfold Rdiv. rewrite Rinv_1. simpl. nra.
  - rewrite HND in Herr. rewrite mult_IZR in Herr.
    replace (- - e) with e in Herr by lia. unfold F64.F2R.
    unfold Rdiv in Herr. rewrite Rinv_1 in Herr. lra.
Qed.

Lemma digit_is_digit (d : Z) : 0 <= d <= 9 -> is_digit (Text.digit d).
Proof. intros H. exists d. split; [exact H | reflexivity]. Qed.

Lemma format_2f_two_decimals (x : F64.float) :
  F64.well_formed x -> F64.finite x = true ->
  two_decimals (Text.format_2f x).
Proof.
  destruct x as [| s | s m e]; simpl; try discriminate.
  intros [Hm _] _.
  destruct (format_2f_hundredths s m e ltac:(lia)) as (h & Hh & Heq & _).
  exists s, (h / 100), (Text.digit (h / 10 mod 10)), (Text.digit (h mod 10)).
  split; [apply Z.div_pos; lia |].
  split; [apply digit_is_digit; pose proof (Z.mod_pos_bound (h / 10) 10); lia |].
  split; [apply digit_is_digit; pose proof (Z.mod_pos_bound h 10); lia |].
  exact Heq.
Qed.

(** The category the source assigns to a float percentage. *)
Lemma calculate_float (data c f : pyval) (x : F64.float) :
  current_speed_of data = Ok c ->
  free_flow_speed_of data = Ok f ->
  spec_percentage c f = Ok (PFloat x) ->
  calculate_congestion_level data =
    Ok (PDict
          [("congestion_level", PStr (Text.format_2f x ++ "%"));
           ("congestion_category",
             PStr match F64.compare_Z x 20 with
                  | Some Lt => "Low"
                  | Some _ =>
                      match F64.compare_Z x 50 with
                      | Some Lt => "Moderate"
                      | _ => "High"
                      end
                  | None => "High"
                  end)]).
Proof.
  intros Hc Hf H. unfold calculate_congestion_level.
  unfold current_speed_of in Hc. unfold free_flow_speed_of in Hf.
  cbn [bind] in Hc, Hf |- *. rewrite Hc. cbn [bind]. rewrite Hf. cbn [bind].
  unfold spec_percentage in H.
  destruct (gt_int f 0) as [positive | e]; [| discriminate H].
  cbn [bind] in *. rewrite H. cbn [bind].
  unfold lt_int, int_le, format_2f. cbn [as_number compare_int bind to_float].
  destruct (F64.compare_Z x 20) as [[| |] |]; cbn [bind];
    destruct (F64.compare_Z x 50) as [[| |] |]; reflexivity.
Qed.

Lemma calculate_zero (data c f : pyval) :
  current_speed_of data = Ok c ->
  free_flow_speed_of data = Ok f ->
  spec_percentage c f = Ok (PInt 0) ->
  calculate_congestion_level data =
    Ok (PDict [("congestion_level", PStr "0.00%");
               ("congestion_category", PStr "Low")]).
Proof.
  intros Hc Hf H. unfold calculate_congestion_level.
  unfold current_speed_of in Hc. unfold free_flow_speed_of in Hf.
  cbn [bind] in Hc, Hf |- *. rewrite Hc. cbn [bind]. rewrite Hf. cbn [bind].
  unfold spec_percentage in H.
  destruct (gt_int f 0) as [positive | e]; [| discriminate H].
  cbn [bind] in *. rewrite H. reflexivity.
Qed.

Lemma compare_Z_lt_mono (x : F64.float) (a b : Z) :
  a <= b -> F64.compare_Z x a = Some Lt -> F64.compare_Z x b = Some Lt.
Proof.
  intros Hab. destruct x as [| s | s m e]; simpl; try (intros; assumption).
  intros H. injection H as H'. rewrite Z.compare_lt_iff in H'.
  f_equal. apply Z.compare_lt_iff.
  pose proof (den_pos e).
  assert (a * F64.den e <= b * F64.den e)
    by (apply Z.mul_le_mono_nonneg_r; lia).
  lia.
Qed.

Lemma compare_Z_some (x : F64.float) (a b : Z) :
  F64.compare_Z x a <> None -> F64.compare_Z x b <> None.
Proof. destruct x; simpl; intros H; try discriminate; contradiction. Qed.

Lemma two_decimals_zero : two_decimals "0.00".
Proof.
  exists false, 0, (Text.digit 0), (Text.digit 0).
  split; [lia |]. split; [apply digit_is_digit; lia |].
  split; [apply digit_is_digit; lia | reflexivity].
Qed.

(** *** Speeds and the exact percentage *)

Lemma speed_float_form (v : pyval) (x : R) :
  is_speed v x ->
  exists n s m e,
    as_number v = Some n /\ to_float n = Ok (F64.Fin s m e)
    /\ F64.canonical m e /\ F64.value (F64.Fin s m e) = x /\ (0 <= x)%R.
Proof.
  intros [z Hz | s m e Hc Hv].
  - exists (NInt z). destruct (Z.eq_dec z 0) as [-> | Hne].
    + exists false, 0, F64.emin.
      split; [reflexivity |]. split; [reflexivity |].
      split; [apply zero_canonical |]. split; [| lra].
      simpl. unfold F64.F2R. lra.
    + destruct (of_Z_exact z ltac:(lia)) as (m & e & Ho & Hc & Hv).
      exists false, m, e. split; [reflexivity |].
      split; [unfold to_float; rewrite Ho; reflexivity |].
      split; [exact Hc |]. split; [exact Hv |]. apply IZR_le. lia.
  - exists (NFloat (F64.Fin s m e)), s, m, e.
    repeat (split; [reflexivity || assumption |]). exact Hv.
Qed.

Lemma positive_float (s : bool) (m e : Z) :
  F64.canonical m e -> (0 < F64.value (F64.Fin s m e))%R ->
  s = false /\ 0 < m.
Proof.
  intros [Hm _] Hv. destruct s; simpl in Hv.
  - exfalso. assert (0 <= F64.F2R m e)%R; [| lra].
    unfold F64.F2R. apply Rmult_le_pos; [apply IZR_le; lia |].
    pose proof (B_pos e). lra.
  - split; [reflexivity |]. apply F2R_pos_inv with (e := e). exact Hv.
Qed.

(** The exact percentage reduction of two speeds. *)
Lemma percentage_of_speeds (c f : pyval) (xc xf : R) :
  is_speed c xc -> is_speed f xf -> (xc < xf)%R ->
  exists m e,
    spec_percentage c f = Ok (PFloat (F64.Fin false m e))
    /\ F64.canonical m e /\ (0 < F64.F2R m e <= 100)%R
    /\ ((1 - F64.B (- 51)) * (100 * ((xf - xc) / xf)) <= F64.F2R m e
        <= (1 + F64.B (- 51)) * (100 * ((xf - xc) / xf)))%R.
Proof.
  intros Hc Hf Hlt.
  destruct (speed_float_form c xc Hc)
    as (nc & sc & mc & ec & Hnc & Hfc & Hcc & Hvc & Hc0).
  destruct (speed_float_form f xf Hf)
    as (nf & sf & M & E & Hnf & Hff & HcM & Hvf & _).
  destruct (positive_float sf M E HcM ltac:(lra)) as [-> HM0].
  simpl in Hvf.
  destruct (percentage_of_floats M E mc ec sc HcM Hcc ltac:(lra))
    as (m & e & Hm & Hcm & Hr & Hacc).
  rewrite Hvc, Hvf in Hacc.
  destruct Hc as [zc Hzc | s1 m1 e1 Hc1 Hv1];
    destruct Hf as [zf Hzf | s2 m2 e2 Hc2 Hv2].
  - clear m e Hm Hcm Hr Hacc.
    assert (Hz : 0 <= zc < zf) by (split; [lia | apply lt_IZR; exact Hlt]).
    destruct (percentage_of_ints zc zf Hz ltac:(lia))
      as (m & e & Hm & Hcm & Hr & Hacc).
    exists m, e. split; [| auto].
    unfold spec_percentage, gt_int. cbn [as_number compare_int bind].
    replace (zf ?= 0) with Gt by (symmetry; apply Z.compare_gt_iff; lia).
    unfold sub. cbn [as_number bind].
    unfold truediv. cbn [as_number].
    replace (zf =? 0) with false by (symmetry; apply Z.eqb_neq; lia).
    assert (Hq : exists mq eq,
               F64.div_Z (zf - zc) zf = F64.Fin false mq eq).
    { destruct (ratio_of_ints (zf - zc) zf ltac:(lia) ltac:(lia))
        as (mq & eq & Hq & _). exists mq, eq. exact Hq. }
    destruct Hq as (mq & eq & Hq). rewrite Hq in Hm |- *.
    cbn [bind]. rewrite mul_float_100, Hm. reflexivity.
  - exists m, e. split; [| auto].
    cbn [as_number] in Hnc, Hnf. inversion Hnc; subst nc.
    inversion Hnf; subst nf. cbn [to_float] in Hff. inversion Hff; subst.
    unfold spec_percentage, gt_int. cbn [as_number compare_int bind].
    replace (F64.compare_Z (F64.Fin false M E) 0) with (Some Gt).
    2: { unfold F64.compare_Z. f_equal. symmetry. apply Z.compare_gt_iff.
         rewrite Z.mul_0_l. apply num_pos. exact HM0. }
    unfold sub. cbn [as_number bind]. rewrite Hfc. cbn [bind to_float].
    unfold truediv. cbn [as_number bind to_float].
    replace (F64.is_zero (F64.Fin false M E)) with false
      by (symmetry; apply Z.eqb_neq; lia).
    cbn [bind]. rewrite mul_float_100, Hm. reflexivity.
  - exists m, e. split; [| auto].
    cbn [as_number] in Hnc, Hnf. inversion Hnc; subst nc.
    inversion Hnf; subst nf. cbn [to_float] in Hfc. inversion Hfc; subst.
    unfold spec_percentage, gt_int. cbn [as_number compare_int bind].
    replace (zf ?= 0) with Gt.
    2: { symmetry. apply Z.compare_gt_iff. apply lt_IZR.
         rewrite <- Hvf. apply F2R_pos. exact HM0. }
    assert (Hff' := Hff). cbn [to_float] in Hff'.
    unfold sub. cbn [as_number bind]. rewrite Hff. cbn [bind to_float].
    unfold truediv. cbn [as_number bind to_float]. rewrite Hff'. cbn [bind].
    replace (F64.is_zero (F64.Fin false M E)) with false
      by (symmetry; apply Z.eqb_neq; lia).
    cbn [bind]. rewrite mul_float_100, Hm. reflexivity.
  - exists m, e. split; [| auto].
    cbn [as_number] in Hnc, Hnf. inversion Hnc; subst nc.
    inversion Hnf; subst nf. cbn [to_float] in Hfc, Hff.
    inversion Hfc; subst. inversion Hff; subst.
    unfold spec_percentage, gt_int. cbn [as_number compare_int bind].
    replace (F64.compare_Z (F64.Fin false M E) 0) with (Some Gt).
    2: { unfold F64.compare_Z. f_equal. symmetry. apply Z.compare_gt_iff.
         rewrite Z.mul_0_l. apply num_pos. exact HM0. }
    unfold sub. cbn [as_number bind to_float].
    unfold truediv. cbn [as_number bind to_float].
    replace (F64.is_zero (F64.Fin false M E)) with false
      by (symmetry; apply Z.eqb_neq; lia).
    cbn [bind]. rewrite mul_float_100, Hm. reflexivity.
Qed.

Lemma spec_percentage_ints (zc zf : Z) (s : bool) (m e : Z) :
  0 < zf ->
  F64.div_Z (zf - zc) zf = F64.Fin s m e ->
  spec_percentage (PInt zc) (PInt zf)
  = Ok (PFloat (F64.mul (F64.Fin s m e) (F64.of_Z 100))).
Proof.
  intros Hf Hq.
  unfold spec_percentage, gt_int. cbn [as_number compare_int bind].
  replace (zf ?= 0) with Gt by (symmetry; apply Z.compare_gt_iff; lia).
  unfold sub. cbn [as_number bind].
  unfold truediv. cbn [as_number].
  replace (zf =? 0) with false by (symmetry; apply Z.eqb_neq; lia).
  rewrite Hq. cbn [bind]. apply mul_float_100.
Qed.

(** For integer speeds, the percentage is finite and equals the exact
    percentage up to a relative error of [2^-51], whatever its sign. *)
Lemma percentage_of_integer_speeds (zc zf : Z) (pct : pyval) :
  0 <= zc <= 2 ^ 53 -> 0 < zf <= 2 ^ 53 ->
  spec_percentage (PInt zc) (PInt zf) = Ok pct ->
  exists x,
    pct = PFloat x /\ F64.finite x = true
    /\ (Rabs (F64.value x - 100 * ((IZR zf - IZR zc) / IZR zf))
        <= F64.B (- 51) * Rabs (100 * ((IZR zf - IZR zc) / IZR zf)))%R.
Proof.
  intros Hc Hf Hp.
  assert (Hf' : (0 < IZR zf)%R) by (apply IZR_lt; lia).
  pose proof u_small as Hu. pose proof B_51 as E51.
  destruct (Z.lt_trichotomy zc zf) as [Hlt | [Heq | Hgt]].
  - destruct (percentage_of_speeds (PInt zc) (PInt zf) (IZR zc) (IZR zf)
                (speed_int zc Hc) (speed_int zf ltac:(lia))
                ltac:(apply IZR_lt; exact Hlt))
      as (m & e & Hp' & _ & Hr & Hacc).
    rewrite Hp in Hp'. apply ok_inj in Hp'. subst pct.
    exists (F64.Fin false m e). split; [reflexivity |].
    split; [reflexivity |]. simpl F64.value.
    set (X := (100 * ((IZR zf - IZR zc) / IZR zf))%R) in *.
    assert (HX : (0 < X)%R).
    { unfold X. apply Rmult_lt_0_compat; [lra |].
      apply Rdiv_lt_0_compat; [| exact Hf'].
      apply IZR_lt in Hlt. lra. }
    rewrite (Rabs_pos_eq X) by lra. apply Rabs_le. split; nra.
  - subst zc.
    assert (Hq : F64.div_Z (zf - zf) zf = F64.Fin false 0 F64.emin).
    { rewrite Z.sub_diag. unfold F64.div_Z, F64.round_signed.
      rewrite Z.mul_0_r. simpl (0 =? 0). cbv iota.
      replace (zf <? 0) with false by (symmetry; apply Z.ltb_ge; lia).
      reflexivity. }
    rewrite (spec_percentage_ints zf zf false 0 F64.emin ltac:(lia) Hq) in Hp.
    apply ok_inj in Hp. subst pct.
    exists (F64.Fin false 0 F64.emin). split; [reflexivity |].
    split; [reflexivity |]. simpl F64.value. unfold F64.F2R.
    replace (IZR zf - IZR zf)%R with 0%R by ring.
    unfold Rdiv. rewrite !Rmult_0_l, Rmult_0_r, Rminus_0_r, Rabs_R0. lra.
  - destruct (ratio_of_ints_neg (zc - zf) zf ltac:(lia) Hf)
      as (mq & eq & Hq & Hcq & Hqb & Hqacc).
    replace (- (zc - zf)) with (zf - zc) in Hq by lia.
    destruct (percent_of_signed_ratio true mq eq Hcq Hqb)
      as (m & e & Hm & Hcm & Hpos & Hpacc).
    rewrite (spec_percentage_ints zc zf true mq eq ltac:(lia) Hq) in Hp.
    rewrite Hm in Hp. apply ok_inj in Hp. subst pct.
    exists (F64.Fin true m e). split; [reflexivity |].
    split; [reflexivity |]. simpl F64.value.
    rewrite minus_IZR in Hqacc.
    set (r := ((IZR zc - IZR zf) / IZR zf)%R) in *.
    assert (Hr0 : (0 < r)%R).
    { unfold r. apply Rdiv_lt_0_compat; [| exact Hf'].
      apply IZR_lt in Hgt. lra. }
    assert (Ex : (100 * ((IZR zf - IZR zc) / IZR zf) = - (100 * r))%R)
      by (unfold r; field; lra).
    rewrite Ex, Rabs_Ropp, (Rabs_pos_eq (100 * r)) by lra.
    pose proof (three_roundings (F64.B (- 53)) (100 * r) (100 * r)
                  (100 * F64.F2R mq eq) (F64.F2R m e) Hu ltac:(lra)
                  ltac:(split; nra) ltac:(split; nra) Hpacc) as Hacc.
    apply Rabs_le. split; nra.
Qed.

(** *** The two claims *)

Lemma contains_append (c : ascii) (a b : string) :
  contains c (a ++ b) = contains c a || contains c b.
Proof.
  induction a as [| ch a IH]; simpl; [reflexivity |].
  rewrite IH, orb_assoc. reflexivity.
Qed.

(** A text with two decimals has a decimal point. *)
Lemma two_decimals_has_a_point (s : string) :
  two_decimals s -> contains "." s = true.
Proof.
  intros (neg & whole & c1 & c2 & _ & _ & _ & ->).
  rewrite !contains_append. simpl. rewrite !orb_true_r. reflexivity.
Qed.

(** C2, counterexample. The finite speeds 1e308 and 1e-320, current and
    free-flow, give a quotient beyond the range of binary64: the percentage
    is minus infinity and the level is [-inf%], a text without decimals. *)
Lemma overflowing_percentage_has_no_decimals :
  F64.finite (Text.of_decimal 1 308) = true
  /\ F64.finite (Text.of_decimal 1 (-320)) = true
  /\ gt_int (PFloat (Text.of_decimal 1 (-320))) 0 = Ok true
  /\ spec_percentage (PFloat (Text.of_decimal 1 308))
       (PFloat (Text.of_decimal 1 (-320)))
     = Ok (PFloat (F64.Inf true))
  /\ calculate_congestion_level
       (Scenario.with_speeds (PFloat (Text.of_decimal 1 308))
          (PFloat (Text.of_decimal 1 (-320))))
     = Ok (PDict [("congestion_level", PStr "-inf%");
                  ("congestion_category", PStr "Low")])
  /\ ~ two_decimals "-inf".
Proof.
  split; [vm_compute; reflexivity |].
  split; [vm_compute; reflexivity |].
  split; [vm_compute; reflexivity |].
  split; [vm_compute; reflexivity |].
  split; [vm_compute; reflexivity |].
  intros H. apply two_decimals_has_a_point in H. discriminate H.
Qed.

(** C3, counterexample. Three pairs of speeds with
    [0 <= current < free-flow] whose percentage is not in (0, 100]: an
    integer just above [2^53] over the float [2^53], which the conversion
    rounds to the same float, gives 0.00%; so do the integers [10^400 - 1]
    and [10^400], whose quotient is below the smallest float; and an
    infinite free-flow speed gives a NaN, shown as nan% and High. *)
Lemma percentage_outside_the_range :
  (F64.compare_Z (F64.of_Z (2 ^ 53)) 0 = Some Gt
   /\ F64.compare_Z (F64.of_Z (2 ^ 53)) (2 ^ 53 + 1) = Some Lt
   /\ spec_percentage (PFloat (F64.of_Z (2 ^ 53))) (PInt (2 ^ 53 + 1))
      = Ok (PFloat (F64.zero false))
   /\ calculate_congestion_level
        (Scenario.with_speeds (PFloat (F64.of_Z (2 ^ 53)))
           (PInt (2 ^ 53 + 1)))
      = Ok (PDict [("congestion_level", PStr "0.00%");
                   ("congestion_category", PStr "Low")]))
  /\ (0 <= 10 ^ 400 - 1 < 10 ^ 400
      /\ spec_percentage (PInt (10 ^ 400 - 1)) (PInt (10 ^ 400))
         = Ok (PFloat (F64.zero false))
      /\ calculate_congestion_level
           (Scenario.with_speeds (PInt (10 ^ 400 - 1)) (PInt (10 ^ 400)))
         = Ok (PDict [("congestion_level", PStr "0.00%");
                      ("congestion_category", PStr "Low")]))
  /\ (F64.compare_Z (F64.Inf false) 40 = Some Gt
      /\ spec_percentage (PInt 40) (PFloat (F64.Inf false))
         = Ok (PFloat F64.NaN)
      /\ calculate_congestion_level
           (Scenario.with_speeds (PInt 40) (PFloat (F64.Inf false)))
         = Ok (PDict [("congestion_level", PStr "nan%");
                      ("congestion_category", PStr "High")]))
  /\ gt_int (PFloat (F64.zero false)) 0 = Ok false
  /\ gt_int (PFloat F64.NaN) 0 = Ok false.
Proof.
  split; [repeat split; vm_compute; reflexivity |].
  split; [split; [split; [vm_compute; discriminate | vm_compute; reflexivity] |];
          split; vm_compute; reflexivity |].
  split; [repeat split; vm_compute; reflexivity |].
  split; reflexivity.
Qed.

(** C2, amended. The congestion level is the percentage of the
    specification's formula, evaluated in binary64, followed by a percent
    sign, and the category follows the threshold table; a negative
    percentage is Low; a free-flow speed of zero gives 0.00% and Low. The
    level has exactly two decimals whenever the percentage is finite, and
    is [nan], [inf] or [-inf] otherwise. For integer speeds up to [2^53]
    the percentage is finite and within a relative error of [2^-51] of the
    exact [(free-flow - current) / free-flow * 100]. *)
Theorem congestion_classification (data c f pct : pyval) :
  current_speed_of data = Ok c ->
  free_flow_speed_of data = Ok f ->
  spec_percentage c f = Ok pct ->
  exists level category,
    calculate_congestion_level data =
      Ok (PDict [("congestion_level", PStr (level ++ "%"));
                 ("congestion_category", PStr category)])
    /\ format_2f pct = Ok level
    /\ (forall n, as_number pct = Some n -> compare_int n 20 <> None ->
                  in_category pct category)
    /\ (forall n, as_number pct = Some n -> compare_int n 0 = Some Lt ->
                  category = "Low")
    /\ ((forall x, pct = PFloat x -> F64.finite x = true) ->
        two_decimals level)
    /\ (forall n, as_number f = Some n -> compare_int n 0 = Some Eq ->
                  pct = PInt 0 /\ level = "0.00" /\ category = "Low")
    /\ (forall zc zf,
          c = PInt zc -> f = PInt zf ->
          0 <= zc <= 2 ^ 53 -> 0 < zf <= 2 ^ 53 ->
          exists x,
            pct = PFloat x /\ F64.finite x = true
            /\ (Rabs (F64.value x - 100 * ((IZR zf - IZR zc) / IZR zf))
                <= F64.B (- 51)
                   * Rabs (100 * ((IZR zf - IZR zc) / IZR zf)))%R)
    /\ (forall x,
          pct = PFloat x -> F64.finite x = false ->
          level = "nan" \/ level = "inf" \/ level = "-inf").
Proof.
  intros Hc Hf Hp.
  assert (Hzero : forall n, as_number f = Some n ->
                            compare_int n 0 = Some Eq -> pct = PInt 0).
  { intros n Hn Hcmp. unfold spec_percentage, gt_int in Hp.
    rewrite Hn, Hcmp in Hp. cbn [bind] in Hp. inversion Hp. reflexivity. }
  destruct (spec_percentage_shape c f pct Hp) as [-> | [x [-> Hwf]]].
  - exists "0.00", "Low".
    split; [apply (calculate_zero data c f Hc Hf Hp) |].
    split; [reflexivity |].
    split; [intros n Hn _; inversion Hn; subst;
            apply cat_low with (n := NInt 0); reflexivity |].
    split; [reflexivity |].
    split; [intros _; apply two_decimals_zero |].
    split; [intros n Hn Hcmp; repeat split; reflexivity |].
    split; [| intros x Hx; discriminate Hx].
    intros zc zf -> -> Hzc Hzf.
    destruct (percentage_of_integer_speeds zc zf _ Hzc Hzf Hp)
      as (x & Hx & _).
    discriminate Hx.
  - eexists. eexists.
    split; [apply (calculate_float data c f x Hc Hf Hp) |].
    split; [reflexivity |].
    split; [| split; [| split; [| split; [| split]]]].
    + intros n Hn Hnan. inversion Hn; subst n. cbn [compare_int] in Hnan.
      pose proof (compare_Z_some x 20 50 Hnan) as Hnan50.
      destruct (F64.compare_Z x 20) as [[| |] |] eqn:H20;
        try contradiction;
        try (apply cat_low with (n := NFloat x); [reflexivity | exact H20]);
        (destruct (F64.compare_Z x 50) as [[| |] |] eqn:H50;
         try contradiction;
         [ apply cat_high with (n := NFloat x) (c := Eq);
           [reflexivity | exact H50 | discriminate]
         | apply cat_moderate with (n := NFloat x);
           [reflexivity | cbn [compare_int]; rewrite H20; discriminate
           | cbn [compare_int]; rewrite H20; discriminate | exact H50]
         | apply cat_high with (n := NFloat x) (c := Gt);
           [reflexivity | exact H50 | discriminate] ]).
    + intros n Hn Hneg. inversion Hn; subst n. cbn [compare_int] in Hneg.
      rewrite (compare_Z_lt_mono x 0 20 ltac:(lia) Hneg). reflexivity.
    + intros Hfin. apply format_2f_two_decimals; [exact Hwf |].
      apply Hfin. reflexivity.
    + intros n Hn Hcmp. specialize (Hzero n Hn Hcmp). discriminate Hzero.
    + intros zc zf -> -> Hzc Hzf.
      apply (percentage_of_integer_speeds zc zf _ Hzc Hzf Hp).
    + intros y Hy Hfin. inversion Hy; subst y.
      destruct x as [| [|] | s m e]; simpl; auto. discriminate Hfin.
Qed.

(** C3, amended. For speeds [0 <= current < free-flow] that binary64 holds
    exactly, integers up to [2^53] and finite floats, the percentage is a
    finite float in (0, 100], equal to the exact percentage
    [(free-flow - current) / free-flow * 100] up to a relative error of
    [2^-51]; the level is its two-decimal text, and the category follows the
    threshold table on the value of the percentage: Low below 20, Moderate
    from 20 and below 50, High from 50. *)
Theorem percentage_range (data c f : pyval) (xc xf : R) :
  current_speed_of data = Ok c ->
  free_flow_speed_of data = Ok f ->
  is_speed c xc -> is_speed f xf -> (xc < xf)%R ->
  exists pct category,
    spec_percentage c f = Ok (PFloat pct)
    /\ F64.finite pct = true /\ F64.well_formed pct
    /\ (0 < F64.value pct <= 100)%R
    /\ ((1 - F64.B (- 51)) * (100 * ((xf - xc) / xf)) <= F64.value pct
        <= (1 + F64.B (- 51)) * (100 * ((xf - xc) / xf)))%R
    /\ calculate_congestion_level data =
         Ok (PDict [("congestion_level", PStr (Text.format_2f pct ++ "%"));
                    ("congestion_category", PStr category)])
    /\ two_decimals (Text.format_2f pct)
    /\ (category = "Low" <-> (F64.value pct < 20)%R)
    /\ (category = "Moderate" <-> (20 <= F64.value pct < 50)%R)
    /\ (category = "High" <-> (50 <= F64.value pct)%R).
Proof.
  intros Hc Hf Hsc Hsf Hlt.
  destruct (percentage_of_speeds c f xc xf Hsc Hsf Hlt)
    as (m & e & Hp & Hcm & Hr & Hacc).
  exists (F64.Fin false m e). eexists.
  split; [exact Hp |]. split; [reflexivity |]. split; [exact Hcm |].
  split; [exact Hr |]. split; [exact Hacc |].
  split; [apply (calculate_float data c f _ Hc Hf Hp) |].
  split; [apply format_2f_two_decimals; [exact Hcm | reflexivity] |].
  pose proof (compare_Z_value false m e 20) as H20.
  pose proof (compare_Z_value false m e 50) as H50.
  destruct (F64.compare_Z (F64.Fin false m e) 20) as [[| |] |];
    destruct (F64.compare_Z (F64.Fin false m e) 50) as [[| |] |];
    try contradiction;
    (split; [| split]); split; intros H;
    try reflexivity; try discriminate H; try lra.
Qed.

Lemma percentage_range_witness :
  calculate_congestion_level (Scenario.with_speeds (PInt 8001) (PInt 10000))
  = Ok (PDict [("congestion_level", PStr "19.99%");
               ("congestion_category", PStr "Low")])
  /\ calculate_congestion_level (Scenario.with_speeds (PInt 80) (PInt 100))
     = Ok (PDict [("congestion_level", PStr "20.00%");
                  ("congestion_category", PStr "Moderate")])
  /\ calculate_congestion_level (Scenario.with_speeds (PInt 5001) (PInt 10000))
     = Ok (PDict [("congestion_level", PStr "49.99%");
                  ("congestion_category", PStr "Moderate")])
  /\ calculate_congestion_level (Scenario.with_speeds (PInt 50) (PInt 100))
     = Ok (PDict [("congestion_level", PStr "50.00%");
                  ("congestion_category", PStr "High")])
  /\ exists pct,
       spec_percentage (PInt 40) (PInt 100) = Ok (PFloat pct)
       /\ (0 < F64.value pct <= 100)%R.
Proof.
  repeat (split; [reflexivity |]).
  destruct (percentage_range (Scenario.with_speeds (PInt 40) (PInt 100))
              (PInt 40) (PInt 100) (IZR 40) (IZR 100) eq_refl eq_refl
              (speed_int 40 ltac:(lia)) (speed_int 100 ltac:(lia))
              ltac:(lra))
    as (pct & category & Hp & _ & _ & Hr & _).
  exists pct. split; [exact Hp | exact Hr].
Defined.

(** ** Traffic length *)

Lemma truediv_ints (a b : Z) (v : pyval) :
  truediv (PInt a) (PInt b) = Ok v ->
  exists s m e,
    v = PFloat (F64.Fin s m e) /\ F64.div_Z a b = F64.Fin s m e
    /\ F64.canonical m e.
Proof.
  unfold truediv. cbn [as_number].
  destruct (b =? 0) eqn:Hb; [discriminate |].
  apply Z.eqb_neq in Hb.
  assert (Hwf : F64.well_formed (F64.div_Z a b)).
  { unfold F64.div_Z. apply round_signed_wf. lia. }
  destruct (F64.div_Z a b) as [| s | s m e]; try discriminate.
  intros H. inversion H. exists s, m, e. auto.
Qed.

(** Kilometres of a length in metres: the hundredths shown are the nearest
    to a tenth of the metres, either way on a tie. *)
Lemma kilometres_text (m : Z) :
  1000 < m < 2 ^ 53 ->
  exists h,
    Text.format_2f (F64.div_Z m 1000) =
      Text.digits (h / 100) ++ "."
        ++ String (Text.digit (h / 10 mod 10)) (String (Text.digit (h mod 10)) "")
    /\ -5 <= 10 * h - m <= 5.
Proof.
  intros Hm.
  assert (Hx : (1 < IZR m / 1000 < IZR (2 ^ 53))%R).
  { assert (1000 < IZR m)%R by (apply (IZR_lt 1000); lia).
    assert (IZR m < IZR (2 ^ 53))%R by (apply IZR_lt; lia). lra. }
  unfold F64.div_Z. rewrite Z.sgn_pos, Z.mul_1_l, Z.abs_eq by lia.
  rewrite round_signed_pos by lia.
  destruct (round_le false m 1000 (2 ^ 52) 1) as (mq & eq & Hr & Hc & _);
    try lia.
  { unfold F64.emin, F64.emax. lia. }
  { unfold F64.F2R. rewrite <- B_52, <- B_add. change (52 + 1) with 53.
    rewrite B_53.
    change (IZR 1000) with 1000%R. lra. }
  destruct (round_error false m 1000) as [Hinf | (mq' & eq' & Hr' & _ & Herr)];
    try lia.
  { apply Rle_trans with 1%R; [| change (IZR 1000) with 1000%R; lra].
    replace 1%R with (F64.B 0) by reflexivity. apply B_le.
    unfold F64.emin. lia. }
  { rewrite Hr in Hinf. discriminate Hinf. }
  rewrite Hr in Hr'. inversion Hr'; subst mq' eq'. clear Hr'.
  rewrite Hr.
  destruct (format_2f_hundredths false mq eq ltac:(destruct Hc; lia))
    as (h & Hh & Htext & Hnear).
  exists h. split; [exact Htext |].
  change (IZR 1000) with 1000%R in Herr.
  set (v := F64.F2R mq eq) in *. set (x := (IZR m / 1000)%R) in *.
  assert (Hb : (IZR m * F64.B (- 53) < 1)%R).
  { assert (E : (F64.B 53 * F64.B (- 53) = 1)%R) by (rewrite <- B_add; reflexivity).
    pose proof (B_pos (- 53)). rewrite B_53 in E.
    assert (IZR m < IZR (2 ^ 53))%R by (apply IZR_lt; lia). nra. }
  assert (Ex : (IZR m = 1000 * x)%R) by (unfold x; field).
  assert (Hd : (-6 < IZR (10 * h - m) < 6)%R).
  { rewrite minus_IZR, mult_IZR. change (IZR 10) with 10%R.
    rewrite Ex in Hb |- *. pose proof (B_pos (- 53)). split; nra. }
  destruct Hd as [Hd1 Hd2].
  apply (lt_IZR (-6)) in Hd1. apply (lt_IZR _ 6) in Hd2. lia.
Qed.

(** C5. The traffic length is shown in kilometres with two decimals when it
    exceeds 1000 metres, and as the integer number of metres otherwise; in
    kilometres, the hundredths are the nearest to the exact quotient. *)
Theorem traffic_length_rendering (P : platform) (data s r : pyval) (m : Z) :
  route_summary_of data = Ok s ->
  getitem s "trafficLengthInMeters" = Ok (PInt m) ->
  extract_route_details P data = Ok r ->
  (m <= 1000 ->
   getitem r "traffic_length" = Ok (PStr (Text.str_Z m ++ " meters")))
  /\ (1000 < m ->
      exists km,
        truediv (PInt m) (PInt 1000) = Ok (PFloat km)
        /\ getitem r "traffic_length"
           = Ok (PStr (Text.format_2f km ++ " km"))
        /\ two_decimals (Text.format_2f km))
  /\ (1000 < m < 2 ^ 53 ->
      exists h,
        getitem r "traffic_length"
        = Ok (PStr (Text.digits (h / 100) ++ "."
                    ++ String (Text.digit (h / 10 mod 10))
                         (String (Text.digit (h mod 10)) "")
                    ++ " km"))
        /\ -5 <= 10 * h - m <= 5).
Proof.
  intros Hs Hm H.
  unfold extract_route_details in H.
  fold (route_summary_of data) in H. rewrite Hs in H.
  invert_run H.
  apply ok_inj in Hstep. subst a.
  match goal with
  | Hg : getitem s "trafficLengthInMeters" = Ok ?v |- _ =>
      rewrite Hm in Hg; apply ok_inj in Hg; subst v
  end.
  match goal with
  | Hg : gt_int (PInt m) 1000 = Ok ?b |- _ =>
      unfold gt_int in Hg; cbn [as_number compare_int] in Hg;
      apply ok_inj in Hg; subst b
  end.
  apply ok_inj in H. subst r.
  match goal with
  | Hg : (if _ then _ else _) = Ok ?t |- _ =>
      rename Hg into Hlen; rename t into tl
  end.
  assert (Hkm : 1000 < m ->
                exists km,
                  truediv (PInt m) (PInt 1000) = Ok (PFloat km)
                  /\ F64.div_Z m 1000 = km
                  /\ F64.well_formed km /\ F64.finite km = true
                  /\ tl = Text.format_2f km ++ " km").
  { intros Hbig.
    replace (m ?= 1000) with Gt in Hlen
      by (symmetry; apply Z.compare_gt_iff; lia).
    invert_run Hlen.
    match goal with
    | Hg : truediv (PInt m) (PInt 1000) = Ok ?v |- _ =>
        destruct (truediv_ints _ _ _ Hg) as (sk & mk & ek & -> & Hdiv & Hck);
        rename Hg into Htd
    end.
    match goal with
    | Hg : format_2f _ = Ok ?t |- _ =>
        cbn [format_2f as_number to_float bind] in Hg;
        apply ok_inj in Hg; subst t
    end.
    apply ok_inj in Hlen.
    exists (F64.Fin sk mk ek).
    split; [exact Htd |]. split; [exact Hdiv |]. split; [exact Hck |].
    split; [reflexivity |]. symmetry. exact Hlen. }
  split; [| split].
  - intros Hsmall.
    replace (m ?= 1000) with (if m =? 1000 then Eq else Lt) in Hlen.
    2: { destruct (Z.eqb_spec m 1000) as [-> | Hne]; [reflexivity |].
         symmetry. apply Z.compare_lt_iff. lia. }
    assert (Hl : tl = str (PInt m) ++ " meters")
      by (destruct (m =? 1000); apply ok_inj in Hlen; symmetry; exact Hlen).
    subst tl. reflexivity.
  - intros Hbig. destruct (Hkm Hbig) as (km & Htd & _ & Hwf & Hfin & ->).
    exists km. split; [exact Htd |]. split; [reflexivity |].
    apply format_2f_two_decimals; assumption.
  - intros Hbig. destruct (Hkm ltac:(lia)) as (km & _ & Hdiv & _ & _ & ->).
    destruct (kilometres_text m Hbig) as (h & Htext & Hnear).
    exists h. split; [| exact Hnear].
    rewrite <- Hdiv, Htext. cbn [getitem lookup String.eqb Ascii.eqb Bool.eqb].
    rewrite !append_assoc. reflexivity.
Qed.

Lemma traffic_length_rendering_witness :
  exists r1 r2 r3,
    extract_route_details Scenario.healthy (Scenario.with_route 600 0 1500)
    = Ok r1
    /\ getitem r1 "traffic_length" = Ok (PStr "1.50 km")
    /\ extract_route_details Scenario.healthy (Scenario.with_route 600 0 800)
       = Ok r2
    /\ getitem r2 "traffic_length" = Ok (PStr "800 meters")
    /\ extract_route_details Scenario.healthy (Scenario.with_route 600 0 1000)
       = Ok r3
    /\ getitem r3 "traffic_length" = Ok (PStr "1000 meters").
Proof.
  do 3 eexists.
  split; [reflexivity |]. split.
  { destruct (traffic_length_rendering Scenario.healthy
                (Scenario.with_route 600 0 1500)
                (Scenario.summary (PInt 1200) (PInt 600) (PInt 0) (PInt 1500))
                _ 1500 eq_refl eq_refl eq_refl) as [_ [H _]].
    destruct (H ltac:(lia)) as (km & Hkm & Hlen & _).
    rewrite Hlen. vm_compute in Hkm. inversion Hkm. reflexivity. }
  split; [reflexivity |]. split.
  { apply (traffic_length_rendering Scenario.healthy
             (Scenario.with_route 600 0 800)
             (Scenario.summary (PInt 1200) (PInt 600) (PInt 0) (PInt 800))
             _ 800 eq_refl eq_refl eq_refl). lia. }
  split; [reflexivity |].
  apply (traffic_length_rendering Scenario.healthy
           (Scenario.with_route 600 0 1000)
           (Scenario.summary (PInt 1200) (PInt 600) (PInt 0) (PInt 1000))
           _ 1000 eq_refl eq_refl eq_refl). lia.
Defined.

Lemma congestion_classification_witness :
  calculate_congestion_level (Scenario.with_speeds (PInt 120) (PInt 100))
  = Ok (PDict [("congestion_level", PStr "-20.00%");
               ("congestion_category", PStr "Low")])
  /\ calculate_congestion_level (Scenario.with_speeds (PInt 40) (PInt 0))
     = Ok (PDict [("congestion_level", PStr "0.00%");
                  ("congestion_category", PStr "Low")]).
Proof.
  split.
  - destruct (congestion_classification
                (Scenario.with_speeds (PInt 120) (PInt 100))
                (PInt 120) (PInt 100) _ eq_refl eq_refl eq_refl)
      as (level & category & Hcalc & Hfmt & _ & Hneg & _ & _ & _).
    rewrite Hcalc. vm_compute in Hfmt. inversion Hfmt.
    rewrite (Hneg _ eq_refl eq_refl). reflexivity.
  - destruct (congestion_classification
                (Scenario.with_speeds (PInt 40) (PInt 0))
                (PInt 40) (PInt 0) _ eq_refl eq_refl eq_refl)
      as (level & category & Hcalc & _ & _ & _ & _ & Hzero & _).
    destruct (Hzero (NInt 0) eq_refl eq_refl) as (_ & -> & ->).
    exact Hcalc.
Defined.
(** * Further properties of the module *)

(** ** Orchestrator: calls, order and logs *)

(** Every run of the handler from the empty trace is one of those the two
    unfolding lemmas list. *)
Ltac run_handler :=
  rewrite ?lambda_handler_unfold, ?pipeline_unfold; cbv zeta.

Ltac split_run :=
  cbn [fst snd];
  repeat (match goal with
          | |- context [match ?x with _ => _ end] =>
              lazymatch x with
              | context [match _ with _ => _ end] => fail
              | _ => destruct x eqn:?
              end
          end; cbn [fst snd]).

Ltac rewrite_classes :=
  repeat match goal with
         | H : isinstance _ _ = _ |- _ => rewrite H
         end.

Lemma handler_posts_once (P : platform) (event : list (string * pyval)) :
  posts (snd (lambda_handler P event [])) = [traffic_request P event].
Proof. run_handler. split_run; reflexivity. Qed.

(** X1. The handler calls each service at most once and never retries: it
    posts one request, writes at most one object, publishes at most one
    notification, and publishes only after the storage has accepted the
    object. *)
Theorem one_call_per_service (P : platform) (event : list (string * pyval)) :
  let tr := snd (lambda_handler P event []) in
  posts tr = [traffic_request P event]
  /\ hd_error tr = Some (Posted (traffic_request P event))
  /\ (List.length (storage_writes tr) <= 1)%nat
  /\ (List.length (notifications tr) <= 1)%nat
  /\ (notifications tr <> [] ->
      List.length (stored_objects (before_publish tr)) = 1%nat).
Proof.
  intros tr. subst tr. run_handler. split_run; simpl;
    (split; [reflexivity |]); (split; [reflexivity |]);
    (split; [lia |]); (split; [lia |]);
    intros H; try reflexivity; contradiction H; reflexivity.
Qed.

(** X2. The handler answers 200 exactly when a notification was delivered, and
    then the run is: the request, the accepted write, its log record, the
    delivered notification, its log record. *)
Theorem success_iff_delivered (P : platform) (event : list (string * pyval)) :
  let run := lambda_handler P event [] in
  (fst run = Ok response_ok <-> delivered (snd run) <> [])
  /\ (fst run = Ok response_ok ->
      exists object alert,
        put_object P object = None /\ publish P alert = None
        /\ snd run = [Posted (traffic_request P event);
                      PutObject object None;
                      Logged "INFO" "Traffic data saved to S3";
                      Published alert None;
                      Logged "INFO" "SNS alert sent"]).
Proof.
  intros run. subst run. run_handler. split_run; simpl; split;
    try (split; intros H; solve [discriminate H | contradiction H; reflexivity
                                | reflexivity | discriminate]);
    try (intros H; discriminate H).
  intros _. eexists _, _. split; [eassumption |]. split; [eassumption |].
  reflexivity.
Qed.

(** X3. The handler writes an ERROR record exactly when it answers 500: one
    record, the fixed text of the answer followed by the message of the
    exception the [try] block raised. An exception it does not catch is
    raised without a record, and so is no record written on success. *)
Theorem errors_logged_when_answered (P : platform)
  (event : list (string * pyval)) :
  let run := lambda_handler P event [] in
  match fst run with
  | Err e =>
      fst (pipeline P event []) = Err e /\ caught e = false
      /\ logged "ERROR" (snd run) = []
  | Ok response =>
      (response = response_ok /\ logged "ERROR" (snd run) = [])
      \/ exists e,
           fst (pipeline P event []) = Err e /\ caught e = true
           /\ ((response = response_fetch_error
                /\ logged "ERROR" (snd run)
                   = ["Error fetching traffic data: " ++ exn_msg e])
               \/ (response = response_credentials_error
                   /\ logged "ERROR" (snd run)
                      = ["Error with AWS credentials: " ++ exn_msg e])
               \/ (response = response_services_error
                   /\ logged "ERROR" (snd run)
                      = ["Error with AWS services: " ++ exn_msg e]))
  end.
Proof.
  intros run. subst run. unfold caught. run_handler.
  split_run;
    first
      [ left; split; reflexivity
      | right; eexists; split; [reflexivity |];
        split; [rewrite_classes; reflexivity |];
        first [ left; split; reflexivity
              | right; left; split; reflexivity
              | right; right; split; reflexivity ]
      | split; [reflexivity |];
        split; [rewrite_classes; reflexivity | reflexivity] ].
Qed.

(** X4. When the storage refuses the object, the run ends there: nothing is
    stored, nothing is published and no INFO record is written; the answer
    depends on the class of the exception alone. *)
Theorem failed_write_ends_the_run (P : platform)
  (event : list (string * pyval)) (object : put_object_request) (e : exn) :
  In (PutObject object (Some e)) (snd (lambda_handler P event [])) ->
  put_object P object = Some e
  /\ stored_objects (snd (lambda_handler P event [])) = []
  /\ notifications (snd (lambda_handler P event [])) = []
  /\ logged "INFO" (snd (lambda_handler P event [])) = []
  /\ fst (lambda_handler P event [])
     = if isinstance e RequestException then Ok response_fetch_error
       else if isinstance e NoCredentialsError
            then Ok response_credentials_error
       else if isinstance e Boto3Error then Ok response_services_error
       else Err e.
Proof.
  run_handler. split_run; cbn [fst snd app]; intros H;
    repeat (destruct H as [H | H]; try discriminate H);
    try contradiction H;
    inversion H; subst;
    try congruence;
    (split; [assumption |]); repeat split; reflexivity.
Qed.

Lemma failed_write_ends_the_run_witness :
  fst (lambda_handler Cases.no_credentials Scenario.event [])
  = Ok response_credentials_error
  /\ notifications (snd (lambda_handler Cases.no_credentials Scenario.event []))
     = [].
Proof.
  destruct (failed_write_ends_the_run Cases.no_credentials Scenario.event
              (archive_object Cases.no_credentials
                 (output_record (PStr "x@example.com")
                    (PDict
                       [("distance_km", PFloat (F64.div_Z 12 10));
                        ("travel_time", PStr "0 hr 10 min 0 sec");
                        ("traffic_delay", PStr "0 hr 0 min 0 sec");
                        ("traffic_length", PStr "1.20 km");
                        ("departure_time", PStr "2024-01-01 08:00:00");
                        ("arrival_time", PStr "2024-01-01 08:10:00");
                        ("travel_mode", PStr "Car")])
                    (PDict [("congestion_level", PStr "60.00%");
                            ("congestion_category", PStr "High")])
                    (PDict [("road_accidents",
                              PStr "There are no road accidents.")])))
              (Raise NoCredentialsError "Unable to locate credentials"))
    as (_ & _ & Hn & _ & Hr).
  - vm_compute. right. left. reflexivity.
  - split; [exact Hr | exact Hn].
Defined.

(** X5. A [ClientError] or another [BotoCoreError] than [NoCredentialsError],
    the classes [botocore] raises for a refusal by S3 or SNS, is not
    caught: the handler raises it, writes no ERROR record, and an object
    stored before a refused notification stays stored. *)
Theorem client_error_is_raised (P : platform)
  (event : list (string * pyval)) (e : exn) :
  (exists object,
     In (PutObject object (Some e)) (snd (lambda_handler P event [])))
  \/ (exists alert,
        In (Published alert (Some e)) (snd (lambda_handler P event []))) ->
  exn_cls e = ClientError \/ exn_cls e = BotoCoreError ->
  fst (lambda_handler P event []) = Err e
  /\ logged "ERROR" (snd (lambda_handler P event [])) = []
  /\ (forall alert,
        In (Published alert (Some e)) (snd (lambda_handler P event [])) ->
        List.length (stored_objects (snd (lambda_handler P event [])))
        = 1%nat).
Proof.
  intros Hin Hcls.
  assert (Hnot : isinstance e RequestException = false
                 /\ isinstance e NoCredentialsError = false
                 /\ isinstance e Boto3Error = false).
  { unfold isinstance. destruct Hcls as [-> | ->]; repeat split. }
  destruct Hnot as (N1 & N2 & N3).
  revert Hin. run_handler.
  split_run; cbn [fst snd app];
    intros [[x H] | [x H]];
    repeat (destruct H as [H | H]; try discriminate H);
    try contradiction H;
    inversion H; subst;
    try congruence;
    (split; [reflexivity |]); (split; [reflexivity |]);
    intros y Hy;
    first [ reflexivity
          | repeat (destruct Hy as [Hy | Hy]; try discriminate Hy);
            contradiction Hy ].
Qed.

Lemma client_error_is_raised_witness :
  fst (lambda_handler Cases.publish_denied Scenario.event [])
  = Err (Raise ClientError "AuthorizationError")
  /\ logged "ERROR" (snd (lambda_handler Cases.publish_denied Scenario.event []))
     = [].
Proof.
  destruct (client_error_is_raised Cases.publish_denied Scenario.event
              (Raise ClientError "AuthorizationError"))
    as (H1 & H2 & _).
  - right. eexists. vm_compute. do 3 right. left. reflexivity.
  - left. reflexivity.
  - split; [exact H1 | exact H2].
Defined.

(** ** Orchestrator: what leaves the module *)

(** X6. The request to the upstream API carries the origin and the destination
    of the event and nothing else of it: a missing origin or destination
    is sent as [null], the requester's address is not sent, and two events
    with the same origin and destination lead to the same request. An
    access code that is not set does not stop the call: the URL then ends
    in [code=None]. *)
Theorem upstream_request_contents (P : platform)
  (event : list (string * pyval)) :
  let request := traffic_request P event in
  json request = PDict [("from", event_get event "from");
                        ("to", event_get event "to")]
  /\ (lookup "from" event = None -> lookup "to" event = None ->
      json request = PDict [("from", PNone); ("to", PNone)])
  /\ headers request = [("subscription_key", subscription_key P)]
  /\ (api_access_code P = PNone ->
      url request
      = "https://funcappazuremap.azurewebsites.net/api/azureMapApi?code=None")
  /\ (forall event',
        event_get event' "from" = event_get event "from" ->
        event_get event' "to" = event_get event "to" ->
        posts (snd (lambda_handler P event' []))
        = posts (snd (lambda_handler P event []))).
Proof.
  intros request. subst request.
  split; [reflexivity |].
  split.
  { intros H1 H2. unfold traffic_request, event_get. cbn [json].
    rewrite H1, H2. reflexivity. }
  split; [reflexivity |].
  split.
  { intros H. unfold traffic_request. cbn [url]. rewrite H. reflexivity. }
  intros event' Hfrom Hto.
  rewrite !handler_posts_once. unfold traffic_request. rewrite Hfrom, Hto. reflexivity.
Qed.

(** X7. Every object the handler writes goes to the fixed bucket, under a key
    made of the clock reading alone, and holds the token of the serialised
    record of the requester's address and the three derived results, in
    this order. *)
Theorem stored_object_contents (P : platform)
  (event : list (string * pyval)) (object : put_object_request)
  (failure : option exn) :
  In (PutObject object failure) (snd (lambda_handler P event [])) ->
  exists traffic_data c a r,
    fetch P (traffic_request P event) = Ok traffic_data
    /\ calculate_congestion_level traffic_data = Ok c
    /\ check_road_accidents traffic_data = Ok a
    /\ extract_route_details P traffic_data = Ok r
    /\ Bucket object = "traffic-monitoring-data-bucket"
    /\ Key object = "traffic_data_" ++ now_strftime P ++ ".json"
    /\ Body object
       = Fernet_encrypt (generate_key P)
           (json_dumps
              (PDict [("email", event_get event "email");
                      ("route_details", r);
                      ("congestion_details", c);
                      ("road_accident_details", a)]))
    /\ put_object P object = failure.
Proof.
  run_handler. split_run; cbn [app]; intros H;
    repeat (destruct H as [H | H]; try discriminate H);
    try contradiction H;
    inversion H; subst;
    eexists _, _, _, _;
    (split; [reflexivity |]); (split; [eassumption |]);
    (split; [eassumption |]); (split; [eassumption |]);
    (split; [reflexivity |]); (split; [reflexivity |]);
    (split; [reflexivity |]); assumption.
Qed.

Lemma stored_object_contents_witness :
  exists object,
    stored_objects (snd (lambda_handler Scenario.healthy Scenario.event []))
    = [object]
    /\ Key object = "traffic_data_20240101080000.json"
    /\ plaintext (Body object)
       = json_dumps
           (output_record (PStr "x@example.com")
              (PDict
                 [("distance_km", PFloat (F64.div_Z 12 10));
                  ("travel_time", PStr "0 hr 10 min 0 sec");
                  ("traffic_delay", PStr "0 hr 0 min 0 sec");
                  ("traffic_length", PStr "1.20 km");
                  ("departure_time", PStr "2024-01-01 08:00:00");
                  ("arrival_time", PStr "2024-01-01 08:10:00");
                  ("travel_mode", PStr "Car")])
              (PDict [("congestion_level", PStr "60.00%");
                      ("congestion_category", PStr "High")])
              (PDict [("road_accidents",
                        PStr "There are no road accidents.")])).
Proof.
  eexists. split; [vm_compute; reflexivity |].
  destruct (stored_object_contents Scenario.healthy Scenario.event
              (archive_object Scenario.healthy
                 (output_record (PStr "x@example.com")
                    (PDict
                       [("distance_km", PFloat (F64.div_Z 12 10));
                        ("travel_time", PStr "0 hr 10 min 0 sec");
                        ("traffic_delay", PStr "0 hr 0 min 0 sec");
                        ("traffic_length", PStr "1.20 km");
                        ("departure_time", PStr "2024-01-01 08:00:00");
                        ("arrival_time", PStr "2024-01-01 08:10:00");
                        ("travel_mode", PStr "Car")])
                    (PDict [("congestion_level", PStr "60.00%");
                            ("congestion_category", PStr "High")])
                    (PDict [("road_accidents",
                              PStr "There are no road accidents.")])))
              None)
    as (td & c & a & r & _ & _ & _ & _ & _ & HK & _).
  - vm_compute. right. left. reflexivity.
  - split; [vm_compute in HK |- *; reflexivity | vm_compute; reflexivity].
Defined.

(** X8. The generated key goes into the token and nowhere else: with another
    key the handler gives the same answer and leaves the same trace, the
    key inside the stored token apart. The key is not returned, logged or
    published, so the stored record cannot be read back. The storage is
    taken not to tell tokens of one plaintext apart. *)
Theorem key_is_used_for_the_token_only (P : platform)
  (event : list (string * pyval)) (key : string) :
  (forall r1 r2,
     Bucket r1 = Bucket r2 -> Key r1 = Key r2 ->
     plaintext (Body r1) = plaintext (Body r2) ->
     put_object P r1 = put_object P r2) ->
  fst (lambda_handler (with_key P key) event [])
  = fst (lambda_handler P event [])
  /\ map forget_key (snd (lambda_handler (with_key P key) event []))
     = map forget_key (snd (lambda_handler P event [])).
Proof.
  intros Hput. run_handler.
  change (traffic_request (with_key P key) event)
    with (traffic_request P event).
  change (fetch (with_key P key)) with (fetch P).
  destruct (fetch P (traffic_request P event)) as [td | e];
    [| split_run; split; reflexivity].
  destruct (calculate_congestion_level td) as [c | e];
    [| split_run; split; reflexivity].
  destruct (check_road_accidents td) as [a | e];
    [| split_run; split; reflexivity].
  change (extract_route_details (with_key P key) td)
    with (extract_route_details P td).
  destruct (extract_route_details P td) as [r | e];
    [| split_run; split; reflexivity].
  change (put_object (with_key P key)) with (put_object P).
  change (publish (with_key P key)) with (publish P).
  set (rec := output_record (event_get event "email") r c a).
  rewrite (Hput (archive_object (with_key P key) rec) (archive_object P rec))
    by reflexivity.
  destruct (put_object P (archive_object P rec)) as [e |];
    [split_run; split; reflexivity |].
  destruct (alert_message _ _ c a r) as [m | e];
    [| split_run; split; reflexivity].
  destruct (publish P _) as [e |]; split_run; split; reflexivity.
Qed.

Lemma key_is_used_for_the_token_only_witness :
  fst (lambda_handler (with_key Scenario.healthy "another key")
         Scenario.event [])
  = Ok response_ok
  /\ notifications
       (snd (lambda_handler (with_key Scenario.healthy "another key")
               Scenario.event []))
     = notifications (snd (lambda_handler Scenario.healthy Scenario.event [])).
Proof.
  destruct (key_is_used_for_the_token_only Scenario.healthy Scenario.event
              "another key" (fun _ _ _ _ _ => eq_refl)) as [H1 H2].
  split; [rewrite H1; vm_compute; reflexivity | vm_compute; reflexivity].
Defined.

(** ** Orchestrator: the two sinks *)

(** X9. The stored record and the alert are made of the same derived results:
    whenever an object was stored and a notification was sent, the
    object holds the serialised record of three results, the message
    is the alert text of the same three results, and the address in
    the record is the address in the message attribute. *)
Theorem alert_matches_the_stored_record (P : platform)
  (event : list (string * pyval)) (object : put_object_request)
  (alert : publish_request) (failure : option exn) :
  In (PutObject object None) (snd (lambda_handler P event [])) ->
  In (Published alert failure) (snd (lambda_handler P event [])) ->
  exists c a r,
    plaintext (Body object)
    = json_dumps
        (PDict [("email", event_get event "email");
                ("route_details", r);
                ("congestion_details", c);
                ("road_accident_details", a)])
    /\ alert_message (event_get event "from") (event_get event "to") c a r
       = Ok (Message alert)
    /\ MessageAttributes alert
       = PDict [("email", PDict [("DataType", PStr "String");
                                 ("StringValue", event_get event "email")])]
    /\ TopicArn alert = "arn:aws:sns:us-east-1:021891607807:traffic-alerts"
    /\ Subject alert = "Traffic Alert".
Proof.
  run_handler. split_run; cbn [app]; intros H H';
    repeat (destruct H as [H | H]; try discriminate H);
    try contradiction H;
    repeat (destruct H' as [H' | H']; try discriminate H');
    try contradiction H';
    inversion H; inversion H'; subst;
    eexists _, _, _;
    (split; [reflexivity |]); (split; [eassumption |]);
    repeat split; reflexivity.
Qed.

Lemma alert_matches_the_stored_record_witness :
  exists object alert,
    stored_objects (snd (lambda_handler Scenario.healthy Scenario.event []))
    = [object]
    /\ delivered (snd (lambda_handler Scenario.healthy Scenario.event []))
       = [alert]
    /\ MessageAttributes alert
       = PDict [("email", PDict [("DataType", PStr "String");
                                 ("StringValue", PStr "x@example.com")])].
Proof.
  eexists _, _. split; [vm_compute; reflexivity |].
  split; [vm_compute; reflexivity |].
  destruct (alert_matches_the_stored_record Scenario.healthy Scenario.event
              _ _ None
              ltac:(vm_compute; right; left; reflexivity)
              ltac:(vm_compute; do 3 right; left; reflexivity))
    as (c & a & r & _ & _ & H & _).
  exact H.
Defined.

(** ** The exceptions of the derivations *)

Lemma raises_only_bind {A B : Type} (cs : list exn_class) (r : result A)
  (k : A -> result B) :
  raises_only cs r -> (forall a, r = Ok a -> raises_only cs (k a)) ->
  raises_only cs (bind r k).
Proof.
  destruct r as [a | e]; simpl; intros Hr Hk; [apply Hk; reflexivity | exact Hr].
Qed.

Lemma getitem_raises (cs : list exn_class) (v : pyval) (k : string) :
  In KeyError cs -> In TypeError cs -> raises_only cs (getitem v k).
Proof.
  intros H1 H2. destruct v; simpl; try exact H2.
  destruct (lookup k d); simpl; [exact I | exact H1].
Qed.

Lemma getitem0_raises (cs : list exn_class) (v : pyval) :
  In KeyError cs -> In IndexError cs -> In TypeError cs ->
  raises_only cs (getitem0 v).
Proof.
  intros H1 H2 H3. destruct v as [| | | | s | l | d]; simpl; try assumption.
  - destruct s; simpl; [exact H2 | exact I].
  - destruct l; simpl; [exact H2 | exact I].
Qed.

Lemma gt_int_raises (cs : list exn_class) (v : pyval) (z : Z) :
  In TypeError cs -> raises_only cs (gt_int v z).
Proof.
  intros H. unfold gt_int. destruct (as_number v); simpl; [exact I | exact H].
Qed.

Lemma lt_int_raises (cs : list exn_class) (v : pyval) (z : Z) :
  In TypeError cs -> raises_only cs (lt_int v z).
Proof.
  intros H. unfold lt_int. destruct (as_number v); simpl; [exact I | exact H].
Qed.

Lemma int_le_raises (cs : list exn_class) (v : pyval) (z : Z) :
  In TypeError cs -> raises_only cs (int_le z v).
Proof.
  intros H. unfold int_le. destruct (as_number v); simpl; [exact I | exact H].
Qed.

Lemma to_float_raises (cs : list exn_class) (n : number) :
  In OverflowError cs -> raises_only cs (to_float n).
Proof.
  intros H. destruct n as [z | x]; simpl; [| exact I].
  destruct (F64.of_Z z); simpl; try exact H; exact I.
Qed.

Lemma sub_raises (cs : list exn_class) (a b : pyval) :
  In TypeError cs -> In OverflowError cs -> raises_only cs (sub a b).
Proof.
  intros H1 H2. unfold sub.
  destruct (as_number a) as [[x | x] |]; destruct (as_number b) as [[y | y] |];
    try exact H1; try exact I;
    (apply raises_only_bind; [apply to_float_raises; exact H2 | intros fx _]);
    (apply raises_only_bind; [apply to_float_raises; exact H2 | intros fy _]);
    exact I.
Qed.

Lemma mul_raises (cs : list exn_class) (a b : pyval) :
  In TypeError cs -> In OverflowError cs -> raises_only cs (mul a b).
Proof.
  intros H1 H2. unfold mul, mul_number.
  destruct (as_number a) as [[x | x] |]; destruct (as_number b) as [[y | y] |];
    try exact H1; try exact I;
    (apply raises_only_bind; [apply to_float_raises; exact H2 | intros fx _]);
    (apply raises_only_bind; [apply to_float_raises; exact H2 | intros fy _]);
    exact I.
Qed.

(** An integer that is not zero does not convert to a zero. *)
Lemma of_Z_nonzero (z : Z) :
  z <> 0 -> F64.is_zero (F64.of_Z z) = false.
Proof.
  intros Hz. unfold F64.of_Z, F64.round_signed.
  replace (z =? 0) with false by (symmetry; apply Z.eqb_neq; exact Hz).
  assert (Ha : 0 < Z.abs z) by lia.
  destruct (round_ge (z <? 0) (Z.abs z) 1 (2 ^ 52) (- 52) Ha ltac:(lia)
              ltac:(lia) ltac:(unfold F64.emin; lia))
    as [Hinf | (m & e & Hr & _ & Hv)].
  - rewrite F2R_one. unfold Rdiv. rewrite Rinv_1, Rmult_1_r.
    apply (IZR_le 1). lia.
  - rewrite Hinf. reflexivity.
  - rewrite Hr. simpl. apply Z.eqb_neq. rewrite F2R_one in Hv.
    assert (0 < m) by (apply F2R_pos_inv with (e := e); lra). lia.
Qed.

(** A division by a positive number does not raise [ZeroDivisionError]. *)
Lemma truediv_positive_raises (cs : list exn_class) (a b : pyval) :
  In TypeError cs -> In OverflowError cs ->
  gt_int b 0 = Ok true ->
  raises_only cs (truediv a b).
Proof.
  intros H1 H2 Hb. unfold gt_int in Hb. unfold truediv.
  destruct (as_number b) as [[y | y] |]; [| | discriminate Hb].
  - cbn [compare_int] in Hb.
    assert (Hy : 0 < y).
    { destruct (y ?= 0) eqn:E; try discriminate Hb.
      apply Z.compare_gt_iff in E. exact E. }
    destruct (as_number a) as [[x | x] |]; [| | exact H1].
    + replace (y =? 0) with false by (symmetry; apply Z.eqb_neq; lia).
      destruct (F64.div_Z x y); simpl; try exact H2; exact I.
    + cbn [to_float bind].
      pose proof (of_Z_nonzero y ltac:(lia)) as Hnz.
      destruct (F64.of_Z y) as [| s | s m e]; simpl; try exact H2.
      simpl in Hnz. rewrite Hnz. exact I.
  - cbn [compare_int] in Hb.
    assert (Hnz : F64.is_zero y = false).
    { destruct y as [| s | s m e]; try reflexivity. simpl in *.
      apply Z.eqb_neq. intros ->.
      unfold F64.num in Hb. rewrite !Z.mul_0_l in Hb.
      destruct (0 <=? e), s; simpl in Hb; discriminate Hb. }
    destruct (as_number a) as [[x | x] |]; [| | exact H1].
    + apply raises_only_bind; [apply to_float_raises; exact H2 | intros fx _].
      cbn [to_float bind]. rewrite Hnz. exact I.
    + cbn [to_float bind]. rewrite Hnz. exact I.
Qed.

(** Nor does a division by the literal 1000. *)
Lemma truediv_1000_raises (cs : list exn_class) (a : pyval) :
  In TypeError cs -> In OverflowError cs ->
  raises_only cs (truediv a (PInt 1000)).
Proof.
  intros H1 H2. apply truediv_positive_raises; [exact H1 | exact H2 |].
  reflexivity.
Qed.

Lemma divmod_raises (cs : list exn_class) (a : pyval) (z : Z) :
  In TypeError cs -> raises_only cs (divmod a z).
Proof.
  intros H. unfold divmod. destruct (as_number a) as [[x | x] |];
    [exact I | | exact H].
  destruct (float_divmod x (F64.of_Z z)). exact I.
Qed.

Lemma format_2f_raises (cs : list exn_class) (v : pyval) :
  In TypeError cs -> In ValueError cs -> In OverflowError cs ->
  raises_only cs (format_2f v).
Proof.
  intros H1 H2 H3. unfold format_2f.
  destruct (as_number v) eqn:E.
  - apply raises_only_bind; [apply to_float_raises; exact H3 | intros; exact I].
  - destruct v; simpl; try assumption.
Qed.

(** The text of a float is formatted without an exception. *)
Lemma format_2f_float (x : F64.float) :
  format_2f (PFloat x) = Ok (Text.format_2f x).
Proof. reflexivity. Qed.

Lemma capitalize_raises (cs : list exn_class) (v : pyval) :
  In AttributeError cs -> raises_only cs (capitalize v).
Proof.
  intros H. destruct v as [| | | | s | |]; simpl; try exact H.
  destruct s; exact I.
Qed.

Lemma human_readable_raises (P : platform) (cs : list exn_class) (v : pyval) :
  In TypeError cs -> In ValueError cs -> raises_only cs (human_readable P v).
Proof.
  intros H1 H2. destruct v as [| | | | s | |]; simpl; try exact H1.
  destruct (fromisoformat_strftime P s); simpl; [exact I | exact H2].
Qed.

Ltac in_classes := simpl; tauto.

Ltac raises_step :=
  first
    [ exact I
    | apply getitem_raises; in_classes
    | apply getitem0_raises; in_classes
    | apply gt_int_raises; in_classes
    | apply lt_int_raises; in_classes
    | apply int_le_raises; in_classes
    | apply sub_raises; in_classes
    | apply mul_raises; in_classes
    | apply truediv_1000_raises; in_classes
    | apply divmod_raises; in_classes
    | apply format_2f_raises; in_classes
    | apply capitalize_raises; in_classes
    | apply human_readable_raises; in_classes
    | apply raises_only_bind; [| intros ? ?] ].

(** The classes of the exceptions each derivation can raise; none raises
    [ZeroDivisionError]. *)
Lemma calculate_congestion_level_raises (data : pyval) :
  raises_only [KeyError; TypeError; OverflowError]
    (calculate_congestion_level data).
Proof.
  unfold calculate_congestion_level.
  apply raises_only_bind; [repeat raises_step | intros current_speed _].
  apply raises_only_bind; [repeat raises_step | intros free_flow_speed _].
  apply raises_only_bind; [raises_step | intros positive Hpos].
  apply raises_only_bind.
  { destruct positive; [| exact I].
    apply raises_only_bind; [raises_step | intros difference _].
    apply raises_only_bind; [| intros; raises_step].
    apply truediv_positive_raises; [in_classes | in_classes | exact Hpos]. }
  intros congestion_level Hlevel.
  assert (Hshape : congestion_level = PInt 0
                   \/ exists x, congestion_level = PFloat x).
  { destruct positive; [| left; inversion Hlevel; reflexivity].
    right. invert_run Hlevel.
    match goal with
    | H : truediv _ _ = Ok _ |- _ =>
        destruct (truediv_float _ _ _ H) as [q ->]
    end.
    rewrite mul_float_100 in Hlevel. inversion Hlevel. eexists. reflexivity. }
  apply raises_only_bind; [raises_step | intros below_20 _].
  apply raises_only_bind.
  { destruct below_20; [exact I |]. repeat raises_step.
    match goal with |- raises_only _ (if ?b then _ else _) => destruct b end;
      raises_step. }
  intros category _.
  apply raises_only_bind; [| intros; exact I].
  destruct Hshape as [-> | [x ->]]; exact I.
Qed.

Lemma check_road_accidents_raises (data : pyval) :
  raises_only [KeyError; TypeError] (check_road_accidents data).
Proof.
  unfold check_road_accidents.
  apply raises_only_bind; [repeat raises_step | intros; exact I].
Qed.

Lemma extract_route_details_raises (P : platform) (data : pyval) :
  raises_only
    [KeyError; IndexError; TypeError; AttributeError; ValueError;
     OverflowError]
    (extract_route_details P data).
Proof.
  unfold extract_route_details.
  repeat first
    [ raises_step
    | match goal with
      | |- raises_only _ (match ?x with (_, _) => _ end) => destruct x
      | |- raises_only _ (if ?b then _ else _) => destruct b
      end ].
Qed.

(** No exception of these classes has an [except] clause in the handler. *)
Lemma builtin_not_caught {A : Type} (r : result A) (e : exn) :
  raises_only
    [KeyError; IndexError; TypeError; AttributeError; ValueError;
     OverflowError] r ->
  r = Err e -> caught e = false.
Proof.
  intros H ->. simpl in H. unfold caught, isinstance.
  repeat (destruct H as [<- | H]; [reflexivity |]). contradiction H.
Qed.

Lemma raises_only_incl {A : Type} (cs cs' : list exn_class) (r : result A) :
  incl cs cs' -> raises_only cs r -> raises_only cs' r.
Proof. intros H. destruct r; simpl; [auto | apply H]. Qed.

(** ** Congestion classifier: failures and edge values *)

Lemma raised_class {A : Type} (cs : list exn_class) (r : result A) (e : exn) :
  raises_only cs r -> r = Err e -> In (exn_cls e) cs.
Proof. intros H ->. exact H. Qed.

Lemma sub_numbers (a b : pyval) (x y : number) :
  as_number a = Some x -> as_number b = Some y ->
  raises_only [OverflowError] (sub a b)
  /\ (forall v, sub a b = Ok v -> exists n, as_number v = Some n).
Proof.
  intros Ha Hb. unfold sub. rewrite Ha, Hb.
  destruct x as [x | x]; destruct y as [y | y]; cbn [to_float bind];
    try (split; [exact I | intros v H; inversion H; eexists; reflexivity]).
  - destruct (F64.of_Z x); cbn [raise bind];
      (split; [simpl; auto | intros v H; try discriminate H;
                            inversion H; eexists; reflexivity]).
  - destruct (F64.of_Z y); cbn [raise bind];
      (split; [simpl; auto | intros v H; try discriminate H;
                            inversion H; eexists; reflexivity]).
Qed.

Lemma truediv_numbers (a b : pyval) (x : number) :
  as_number a = Some x -> gt_int b 0 = Ok true ->
  raises_only [OverflowError] (truediv a b).
Proof.
  intros Ha Hb.
  pose proof (truediv_positive_raises [TypeError; OverflowError] a b
                ltac:(simpl; tauto) ltac:(simpl; tauto) Hb) as H.
  destruct (truediv a b) as [v | e] eqn:E; [exact I |].
  simpl in H |- *. destruct H as [H | [H | []]]; [| left; exact H].
  exfalso. unfold truediv in E. rewrite Ha in E. unfold gt_int in Hb.
  destruct (as_number b) as [y |]; [| discriminate Hb].
  destruct x as [x | x]; destruct y as [y | y]; cbn [to_float bind] in E.
  - destruct (y =? 0); [inversion E; subst; discriminate H |].
    destruct (F64.div_Z x y); inversion E; subst; discriminate H.
  - destruct (F64.of_Z x); cbn [raise bind] in E;
      try (inversion E; subst; discriminate H).
    destruct (F64.is_zero y); inversion E; subst; discriminate H.
  - destruct (F64.of_Z y); cbn [raise bind] in E;
      try (inversion E; subst; discriminate H).
    match type of E with
    | context [if ?c then _ else _] => destruct c
    end; inversion E; subst; discriminate H.
  - destruct (F64.is_zero y); inversion E; subst; discriminate H.
Qed.

(** X10. The classifier fails only when a speed is missing from the response,
    when a speed it needs is not a number, or when an integer speed is
    beyond the range of [float]; it never divides by zero. The current
    speed is needed only when the free-flow speed is positive. *)
Theorem congestion_failures (data : pyval) (e : exn) :
  calculate_congestion_level data = Err e ->
  (exn_cls e = KeyError \/ exn_cls e = TypeError
   \/ exn_cls e = OverflowError)
  /\ (current_speed_of data = Err e
      \/ (exists c,
            current_speed_of data = Ok c /\ free_flow_speed_of data = Err e)
      \/ (exists c f,
            current_speed_of data = Ok c /\ free_flow_speed_of data = Ok f
            /\ ((exn_cls e = TypeError
                 /\ (as_number f = None
                     \/ (gt_int f 0 = Ok true /\ as_number c = None)))
                \/ (exn_cls e = OverflowError
                    /\ gt_int f 0 = Ok true
                    /\ as_number c <> None)))).
Proof.
  intros H. split.
  { pose proof (raised_class _ _ _ (calculate_congestion_level_raises data) H)
      as Hc.
    simpl in Hc. intuition auto. }
  unfold calculate_congestion_level in H.
  destruct (current_speed_of data) as [c | e1] eqn:Hc.
  2: { unfold current_speed_of in Hc. cbn [bind] in Hc, H. rewrite Hc in H.
       left. exact H. }
  right.
  destruct (free_flow_speed_of data) as [f | e1] eqn:Hf.
  2: { unfold current_speed_of in Hc. unfold free_flow_speed_of in Hf.
       cbn [bind] in Hc, Hf, H. rewrite Hc in H. cbn [bind] in H.
       rewrite Hf in H. left. exists c. split; [reflexivity | exact H]. }
  right. exists c, f. split; [reflexivity |]. split; [reflexivity |].
  unfold current_speed_of in Hc. unfold free_flow_speed_of in Hf.
  cbn [bind] in Hc, Hf, H. rewrite Hc in H. cbn [bind] in H.
  rewrite Hf in H. cbn [bind] in H. clear Hc Hf.
  destruct (as_number f) as [nf |] eqn:Ef.
  2: { unfold gt_int in H. rewrite Ef in H. cbn [bind] in H.
       inversion H. left. split; [reflexivity | left; reflexivity]. }
  assert (Hgt : exists b, gt_int f 0 = Ok b)
    by (unfold gt_int; rewrite Ef; eexists; reflexivity).
  destruct Hgt as [positive Hgt]. rewrite Hgt in H. cbn [bind] in H.
  destruct positive.
  2: { vm_compute in H. discriminate H. }
  destruct (as_number c) as [nc |] eqn:Ec.
  2: { unfold sub in H. rewrite Ef, Ec in H.
       destruct nf; cbn [bind] in H; inversion H;
         left; (split; [reflexivity | right; split; [exact Hgt | reflexivity]]). }
  right. split; [| split; [exact Hgt | discriminate]].
  destruct (sub_numbers f c nf nc Ef Ec) as [Hs Hn].
  destruct (sub f c) as [difference | e1] eqn:Ed.
  2: { cbn [bind] in H. inversion H; subst.
       simpl in Hs. destruct Hs as [Hs | []]. symmetry. exact Hs. }
  cbn [bind] in H. destruct (Hn difference eq_refl) as [nd End].
  pose proof (truediv_numbers difference f nd End Hgt) as Ht.
  destruct (truediv difference f) as [ratio | e1] eqn:Er.
  2: { cbn [bind] in H. inversion H; subst.
       simpl in Ht. destruct Ht as [Ht | []]. symmetry. exact Ht. }
  cbn [bind] in H. destruct (truediv_float _ _ _ Er) as [q ->].
  rewrite mul_float_100 in H. cbn [bind] in H.
  unfold lt_int, int_le, format_2f in H.
  cbn [as_number compare_int to_float bind] in H.
  destruct (F64.compare_Z (F64.mul q (F64.of_Z 100)) 20) as [[| |] |];
    cbn [bind] in H;
    destruct (F64.compare_Z (F64.mul q (F64.of_Z 100)) 50) as [[| |] |];
    discriminate H.
Qed.

Lemma congestion_failures_witness :
  calculate_congestion_level
    (Scenario.with_speeds (PStr "40") (PInt 100))
  = Err (unsupported "-" (PInt 100) (PStr "40"))
  /\ exn_cls (unsupported "-" (PInt 100) (PStr "40")) = TypeError.
Proof.
  split; [reflexivity |].
  destruct (congestion_failures (Scenario.with_speeds (PStr "40") (PInt 100))
              (unsupported "-" (PInt 100) (PStr "40")) eq_refl)
    as [[H | [H | H]] _]; try discriminate H. exact H.
Defined.

(** X11. A free-flow speed that is not positive, be it zero, negative, an
    infinity below zero or a NaN, gives 0.00% and Low; the current speed
    is then not looked at, and need not even be a number. *)
Theorem nonpositive_free_flow (data c f : pyval) (n : number) :
  current_speed_of data = Ok c ->
  free_flow_speed_of data = Ok f ->
  as_number f = Some n ->
  compare_int n 0 <> Some Gt ->
  calculate_congestion_level data
  = Ok (PDict [("congestion_level", PStr "0.00%");
               ("congestion_category", PStr "Low")]).
Proof.
  intros Hc Hf Hn Hcmp. apply (calculate_zero data c f Hc Hf).
  unfold spec_percentage, gt_int. rewrite Hn. cbn [bind].
  destruct (compare_int n 0) as [[| |] |]; try reflexivity.
  contradiction Hcmp. reflexivity.
Qed.

Lemma nonpositive_free_flow_witness :
  calculate_congestion_level
    (Scenario.with_speeds (PStr "fast") (PFloat F64.NaN))
  = Ok (PDict [("congestion_level", PStr "0.00%");
               ("congestion_category", PStr "Low")])
  /\ calculate_congestion_level
       (Scenario.with_speeds PNone (PInt (-5)))
     = Ok (PDict [("congestion_level", PStr "0.00%");
                  ("congestion_category", PStr "Low")]).
Proof.
  split.
  - apply (nonpositive_free_flow
             (Scenario.with_speeds (PStr "fast") (PFloat F64.NaN))
             (PStr "fast") (PFloat F64.NaN)
             (NFloat F64.NaN) eq_refl eq_refl eq_refl).
    discriminate.
  - apply (nonpositive_free_flow
             (Scenario.with_speeds PNone (PInt (-5)))
             PNone (PInt (-5)) (NInt (-5))
             eq_refl eq_refl eq_refl).
    discriminate.
Defined.

(** X12. A percentage that is not a number belongs to no band and falls to the
    last branch: the classifier reports nan% and High. An infinite
    free-flow speed gives such a percentage for every current speed. *)
Theorem nan_percentage_is_high (data c f : pyval) :
  current_speed_of data = Ok c ->
  free_flow_speed_of data = Ok f ->
  (spec_percentage c f = Ok (PFloat F64.NaN)
   \/ (f = PFloat (F64.Inf false)
       /\ exists n x, as_number c = Some n /\ to_float n = Ok x)) ->
  spec_percentage c f = Ok (PFloat F64.NaN)
  /\ calculate_congestion_level data
     = Ok (PDict [("congestion_level", PStr "nan%");
                  ("congestion_category", PStr "High")]).
Proof.
  intros Hc Hf H.
  assert (Hp : spec_percentage c f = Ok (PFloat F64.NaN)).
  { destruct H as [H | [-> (n & x & Hn & Hx)]]; [exact H |].
    assert (Hs : sub (PFloat (F64.Inf false)) c
                 = Ok (PFloat (F64.sub (F64.Inf false) x))).
    { unfold sub. cbn [as_number]. rewrite Hn.
      destruct n;
        change (to_float (NFloat (F64.Inf false))) with (Ok (F64.Inf false));
        cbn [bind]; rewrite Hx; reflexivity. }
    unfold spec_percentage.
    change (gt_int (PFloat (F64.Inf false)) 0) with (Ok true).
    cbn [bind]. rewrite Hs. cbn [bind].
    change (truediv (PFloat (F64.sub (F64.Inf false) x))
              (PFloat (F64.Inf false)))
      with (Ok (PFloat (F64.div (F64.sub (F64.Inf false) x)
                          (F64.Inf false)))).
    cbn [bind]. rewrite mul_float_100.
    destruct x as [| [|] | s m e]; reflexivity. }
  split; [exact Hp |].
  rewrite (calculate_float data c f F64.NaN Hc Hf Hp). reflexivity.
Qed.

Lemma nan_percentage_is_high_witness :
  calculate_congestion_level
    (Scenario.with_speeds (PInt 40) (PFloat (F64.Inf false)))
  = Ok (PDict [("congestion_level", PStr "nan%");
               ("congestion_category", PStr "High")]).
Proof.
  apply (nan_percentage_is_high
           (Scenario.with_speeds (PInt 40) (PFloat (F64.Inf false)))
           (PInt 40) (PFloat (F64.Inf false)) eq_refl eq_refl).
  right. split; [reflexivity |]. exists (NInt 40), (F64.of_Z 40).
  split; reflexivity.
Defined.

(** A finite percentage that is not above zero is Low. *)
Lemma nonpositive_is_low (data c f : pyval) (s : bool) (m e : Z) :
  current_speed_of data = Ok c ->
  free_flow_speed_of data = Ok f ->
  spec_percentage c f = Ok (PFloat (F64.Fin s m e)) ->
  (F64.value (F64.Fin s m e) <= 0)%R ->
  calculate_congestion_level data
  = Ok (PDict [("congestion_level",
                 PStr (Text.format_2f (F64.Fin s m e) ++ "%"));
               ("congestion_category", PStr "Low")]).
Proof.
  intros Hc Hf Hp Hv.
  rewrite (calculate_float data c f _ Hc Hf Hp).
  pose proof (compare_Z_value s m e 20) as H.
  destruct (F64.compare_Z (F64.Fin s m e) 20) as [[| |] |];
    [lra | reflexivity | lra | contradiction H].
Qed.

(** X13. Traffic at or above the free-flow speed: for integer speeds up to
    [2^53] with the current speed not below a positive free-flow speed,
    the percentage is a finite float that is not above zero, the level has
    two decimals, and the category is Low; equal speeds give 0.00%. *)
Theorem no_slowdown_is_low (data : pyval) (zc zf : Z) :
  current_speed_of data = Ok (PInt zc) ->
  free_flow_speed_of data = Ok (PInt zf) ->
  0 < zf <= zc -> zc <= 2 ^ 53 ->
  exists x,
    spec_percentage (PInt zc) (PInt zf) = Ok (PFloat x)
    /\ F64.finite x = true
    /\ (F64.value x <= 0)%R
    /\ (zf < zc -> (F64.value x < 0)%R)
    /\ calculate_congestion_level data
       = Ok (PDict [("congestion_level", PStr (Text.format_2f x ++ "%"));
                    ("congestion_category", PStr "Low")])
    /\ two_decimals (Text.format_2f x)
    /\ (zc = zf -> Text.format_2f x = "0.00").
Proof.
  intros Hc Hf Hzf Hzc.
  destruct (Z.eq_dec zc zf) as [-> | Hne].
  - assert (Hq : F64.div_Z (zf - zf) zf = F64.Fin false 0 F64.emin).
    { rewrite Z.sub_diag. unfold F64.div_Z, F64.round_signed.
      rewrite Z.mul_0_r. simpl (0 =? 0). cbv iota.
      replace (zf <? 0) with false by (symmetry; apply Z.ltb_ge; lia).
      reflexivity. }
    pose proof (spec_percentage_ints zf zf false 0 F64.emin ltac:(lia) Hq)
      as Hp.
    change (F64.mul (F64.Fin false 0 F64.emin) (F64.of_Z 100))
      with (F64.Fin false 0 F64.emin) in Hp.
    exists (F64.Fin false 0 F64.emin).
    split; [exact Hp |]. split; [reflexivity |].
    assert (Hv : F64.value (F64.Fin false 0 F64.emin) = 0%R).
    { simpl. unfold F64.F2R. ring. }
    split; [rewrite Hv; lra |]. split; [intros; lia |].
    split; [apply (nonpositive_is_low _ _ _ _ _ _ Hc Hf Hp); rewrite Hv; lra |].
    split; [exact two_decimals_zero | reflexivity].
  - destruct (ratio_of_ints_neg (zc - zf) zf ltac:(lia) ltac:(lia))
      as (mq & eq & Hq & Hcq & Hqb & _).
    replace (- (zc - zf)) with (zf - zc) in Hq by lia.
    destruct (percent_of_signed_ratio true mq eq Hcq Hqb)
      as (m & e & Hm & Hcm & Hpos & _).
    pose proof (spec_percentage_ints zc zf true mq eq ltac:(lia) Hq) as Hp.
    rewrite Hm in Hp.
    exists (F64.Fin true m e).
    split; [exact Hp |]. split; [reflexivity |].
    assert (Hv : (F64.value (F64.Fin true m e) < 0)%R) by (simpl; lra).
    split; [lra |]. split; [intros; exact Hv |].
    split; [apply (nonpositive_is_low _ _ _ _ _ _ Hc Hf Hp); lra |].
    split; [apply format_2f_two_decimals; [exact Hcm | reflexivity] |].
    intros E. lia.
Qed.

Lemma no_slowdown_is_low_witness :
  calculate_congestion_level (Scenario.with_speeds (PInt 130) (PInt 100))
  = Ok (PDict [("congestion_level", PStr "-30.00%");
               ("congestion_category", PStr "Low")]).
Proof.
  destruct (no_slowdown_is_low (Scenario.with_speeds (PInt 130) (PInt 100))
              130 100 eq_refl eq_refl ltac:(lia) ltac:(lia))
    as (x & Hp & _ & _ & _ & Hcalc & _).
  vm_compute in Hp. inversion Hp; subst x. exact Hcalc.
Defined.

(** ** Orchestrator: a derivation that fails *)

(** X14. When the upstream has answered and one of the three derivations
    raises, the handler answers nothing: it raises the same exception,
    after the request and before any write, notification or log record.
    No exception of a derivation has an [except] clause. *)
Theorem derivation_failure_is_raised (P : platform)
  (event : list (string * pyval)) (traffic_data : pyval) :
  fetch P (traffic_request P event) = Ok traffic_data ->
  let raised (e : exn) :=
    lambda_handler P event [] = (Err e, [Posted (traffic_request P event)])
    /\ caught e = false in
  (forall e, calculate_congestion_level traffic_data = Err e -> raised e)
  /\ (forall c e,
        calculate_congestion_level traffic_data = Ok c ->
        check_road_accidents traffic_data = Err e -> raised e)
  /\ (forall c a e,
        calculate_congestion_level traffic_data = Ok c ->
        check_road_accidents traffic_data = Ok a ->
        extract_route_details P traffic_data = Err e -> raised e).
Proof.
  intros Hf raised. subst raised. cbv beta.
  assert (Hrun : forall e,
             caught e = false ->
             pipeline P event [] = (Err e, [Posted (traffic_request P event)]) ->
             lambda_handler P event []
             = (Err e, [Posted (traffic_request P event)])).
  { intros e Hc Hp. rewrite lambda_handler_unfold, Hp.
    unfold caught in Hc. apply orb_false_iff in Hc. destruct Hc as [Hc H3].
    apply orb_false_iff in Hc. destruct Hc as [H1 H2].
    rewrite H1, H2, H3. reflexivity. }
  split; [| split].
  - intros e He.
    assert (Hc : caught e = false).
    { apply (builtin_not_caught (calculate_congestion_level traffic_data));
        [| exact He].
      eapply raises_only_incl;
        [| apply calculate_congestion_level_raises].
      intros x Hx. simpl in Hx |- *. tauto. }
    split; [| exact Hc]. apply Hrun; [exact Hc |].
    rewrite pipeline_unfold. cbv zeta. rewrite Hf, He. reflexivity.
  - intros c e Hc' He.
    assert (Hc : caught e = false).
    { apply (builtin_not_caught (check_road_accidents traffic_data));
        [| exact He].
      eapply raises_only_incl; [| apply check_road_accidents_raises].
      intros x Hx. simpl in Hx |- *. tauto. }
    split; [| exact Hc]. apply Hrun; [exact Hc |].
    rewrite pipeline_unfold. cbv zeta. rewrite Hf, Hc', He. reflexivity.
  - intros c a e Hc' Ha He.
    assert (Hc : caught e = false).
    { apply (builtin_not_caught (extract_route_details P traffic_data));
        [| exact He].
      apply extract_route_details_raises. }
    split; [| exact Hc]. apply Hrun; [exact Hc |].
    rewrite pipeline_unfold. cbv zeta. rewrite Hf, Hc', Ha, He. reflexivity.
Qed.

Lemma derivation_failure_is_raised_witness :
  lambda_handler Cases.routeless Scenario.event []
  = (Err (Raise IndexError "list index out of range"),
     [Posted (traffic_request Cases.routeless Scenario.event)]).
Proof.
  destruct (derivation_failure_is_raised Cases.routeless Scenario.event
              Cases.no_routes eq_refl) as (_ & _ & H).
  destruct (H (PDict [("congestion_level", PStr "60.00%");
                      ("congestion_category", PStr "High")])
              (PDict [("road_accidents",
                        PStr "There are no road accidents.")])
              (Raise IndexError "list index out of range")
              eq_refl eq_refl eq_refl) as [Hrun _].
  exact Hrun.
Defined.

(** ** Accident detector: failures and values that are not lists *)

Lemma truthy_falsy (v : pyval) : truthy v = false <-> falsy v.
Proof.
  unfold falsy. split.
  - destruct v as [| b | z | x | s | l | d]; simpl; intros H.
    + auto.
    + destruct b; [discriminate H | auto].
    + apply negb_false_iff, Z.eqb_eq in H. subst. auto 10.
    + destruct x as [| s | s m e]; simpl in H; try discriminate H.
      apply negb_false_iff, Z.eqb_eq in H. subst.
      right. right. right. left. eexists _, _. reflexivity.
    + apply negb_false_iff, String.eqb_eq in H. subst. auto 10.
    + destruct l; [auto 10 | discriminate H].
    + destruct d; [auto 10 | discriminate H].
  - intros [-> | [-> | [-> | [(s & e & ->) | [-> | [-> | ->]]]]]];
      reflexivity.
Qed.

(** X15. The detector fails exactly when the path to the points of interest is
    missing, with the error of the lookup: a [KeyError] for a missing key,
    a [TypeError] for a value that cannot be subscripted. Otherwise it
    reports no accidents exactly for the values Python takes for false,
    [null] included, and accidents for every other value. *)
Theorem accident_detector_edges (data : pyval) :
  (forall e, check_road_accidents data = Err e <-> incidents_of data = Err e)
  /\ (forall e,
        check_road_accidents data = Err e ->
        (exn_cls e = KeyError
         /\ In (exn_msg e) ["traffic_incidents"; "tm"; "poi"])
        \/ exn_cls e = TypeError)
  /\ (forall v,
        incidents_of data = Ok v ->
        (falsy v ->
         check_road_accidents data
         = Ok (PDict [("road_accidents",
                        PStr "There are no road accidents.")]))
        /\ (~ falsy v ->
            check_road_accidents data
            = Ok (PDict [("road_accidents",
                           PStr "There are road accidents.")]))).
Proof.
  assert (Hiff : forall e,
             check_road_accidents data = Err e <-> incidents_of data = Err e).
  { intros e. unfold check_road_accidents.
    change ((Ok data).["traffic_incidents"].["tm"].["poi"])
      with (incidents_of data).
    destruct (incidents_of data) as [v | e']; simpl; split; intros H;
      try discriminate H; exact H. }
  split; [exact Hiff |]. split.
  - intros e He. apply Hiff in He. unfold incidents_of in He.
    cbn [bind] in He.
    assert (Hget : forall v k e',
               getitem v k = Err e' ->
               (exn_cls e' = KeyError /\ exn_msg e' = k)
               \/ exn_cls e' = TypeError).
    { intros v k e' H. destruct v; simpl in H; inversion H; auto.
      destruct (lookup k d); inversion H. auto. }
    destruct (getitem data "traffic_incidents") as [v1 | e1] eqn:E1.
    2: { cbn [bind] in He. inversion He; subst.
         destruct (Hget _ _ _ E1) as [[H1 H2] | H1]; [left | right; exact H1].
         split; [exact H1 | rewrite H2; simpl; auto]. }
    cbn [bind] in He.
    destruct (getitem v1 "tm") as [v2 | e2] eqn:E2.
    2: { cbn [bind] in He. inversion He; subst.
         destruct (Hget _ _ _ E2) as [[H1 H2] | H1]; [left | right; exact H1].
         split; [exact H1 | rewrite H2; simpl; auto]. }
    cbn [bind] in He.
    destruct (Hget _ _ _ He) as [[H1 H2] | H1]; [left | right; exact H1].
    split; [exact H1 | rewrite H2; simpl; auto].
  - intros v Hv. unfold check_road_accidents.
    change ((Ok data).["traffic_incidents"].["tm"].["poi"])
      with (incidents_of data).
    rewrite Hv. cbn [bind]. split; intros H.
    + apply truthy_falsy in H. rewrite H. reflexivity.
    + destruct (truthy v) eqn:E; [reflexivity |].
      contradiction H. apply truthy_falsy. exact E.
Qed.

(** ** Route detail extractor: failures *)

(** X16. The extractor never divides by zero; what it raises is the error of a
    lookup ([KeyError], [IndexError], [TypeError]), of a travel mode that
    is not a string ([AttributeError]), of a timestamp that does not parse
    ([ValueError]) or of an integer beyond the range of [float]
    ([OverflowError]). An empty list of routes is an [IndexError], and a
    missing summary fails before anything else is read. *)
Theorem route_extractor_failures (P : platform) (data : pyval) :
  (forall e,
     extract_route_details P data = Err e ->
     In (exn_cls e)
       [KeyError; IndexError; TypeError; AttributeError; ValueError;
        OverflowError])
  /\ (routes_of data = Ok (PList []) ->
      extract_route_details P data
      = Err (Raise IndexError "list index out of range"))
  /\ (forall e,
        route_summary_of data = Err e -> extract_route_details P data = Err e)
  /\ (forall s v,
        route_summary_of data = Ok s -> travel_mode_of data = Ok v ->
        (forall text, v <> PStr text) ->
        extract_route_details P data
        = Err (Raise AttributeError
                 ("'" ++ type_name v
                      ++ "' object has no attribute 'capitalize'"))).
Proof.
  split; [| split; [| split]].
  - intros e He.
    exact (raised_class _ _ _ (extract_route_details_raises P data) He).
  - intros H. unfold extract_route_details.
    unfold routes_of in H. cbn [bind] in H |- *. rewrite H. reflexivity.
  - intros e H. unfold extract_route_details.
    change ((Ok data).["route_details"].["routes"].[0].["summary"])
      with (route_summary_of data).
    rewrite H. reflexivity.
  - intros s v Hs Hv Hnot. unfold extract_route_details.
    change ((Ok data).["route_details"].["routes"].[0].["summary"])
      with (route_summary_of data).
    change ((Ok data).["route_details"].["routes"].[0].["sections"].[0]
              .["travelMode"])
      with (travel_mode_of data).
    rewrite Hs, Hv. cbn [bind].
    destruct v; try reflexivity. contradiction (Hnot s0). reflexivity.
Qed.

(** ** Route detail extractor: durations below zero *)

(** X17. Whole seconds of either sign are split by floor division: the minutes
    and the seconds are always between 0 and 59 and the three parts add up
    to the duration, so a duration below zero shows hours below zero and
    parts that count upward; one second before zero is
    [-1 hr 59 min 59 sec]. *)
Theorem durations_use_floor_division (P : platform) (data s r : pyval)
  (t d : Z) :
  route_summary_of data = Ok s ->
  getitem s "travelTimeInSeconds" = Ok (PInt t) ->
  getitem s "trafficDelayInSeconds" = Ok (PInt d) ->
  extract_route_details P data = Ok r ->
  let hms (x : Z) :=
    Text.str_Z (x / 3600) ++ " hr " ++ Text.str_Z (x mod 3600 / 60) ++ " min "
      ++ Text.str_Z (x mod 3600 mod 60) ++ " sec" in
  getitem r "travel_time" = Ok (PStr (hms t))
  /\ getitem r "traffic_delay" = Ok (PStr (hms d))
  /\ (forall x,
        0 <= x mod 3600 / 60 < 60
        /\ 0 <= x mod 3600 mod 60 < 60
        /\ x = 3600 * (x / 3600) + 60 * (x mod 3600 / 60) + x mod 3600 mod 60
        /\ (x < 0 ->
            x / 3600 < 0
            /\ Text.str_Z (x / 3600) = "-" ++ Text.digits (- (x / 3600)))).
Proof.
  intros Hs Ht Hd H hms.
  unfold extract_route_details in H.
  fold (route_summary_of data) in H. rewrite Hs in H.
  invert_run H.
  apply ok_inj in Hstep. subst a.
  rewrite Ht in Hstep4. apply ok_inj in Hstep4. subst a4.
  rewrite Hd in Hstep5. apply ok_inj in Hstep5. subst a5.
  simpl in Hstep6. apply ok_inj in Hstep6. inversion Hstep6; subst.
  simpl in Hstep7. apply ok_inj in Hstep7. inversion Hstep7; subst.
  simpl in Hstep8. apply ok_inj in Hstep8. inversion Hstep8; subst.
  simpl in Hstep9. apply ok_inj in Hstep9. inversion Hstep9; subst.
  apply ok_inj in H. subst r.
  split; [reflexivity |]. split; [reflexivity |].
  intros x.
  pose proof (Z.mod_pos_bound x 3600 ltac:(lia)).
  pose proof (Z.mod_pos_bound (x mod 3600) 60 ltac:(lia)).
  pose proof (Z.div_mod x 3600 ltac:(lia)).
  pose proof (Z.div_mod (x mod 3600) 60 ltac:(lia)).
  split; [split; [apply Z.div_pos; lia | apply Z.div_lt_upper_bound; lia] |].
  split; [lia |]. split; [lia |].
  intros Hx.
  assert (Hq : x / 3600 < 0) by (apply Z.div_lt_upper_bound; lia).
  split; [exact Hq |]. unfold Text.str_Z.
  replace (x / 3600 <? 0) with true by (symmetry; apply Z.ltb_lt; exact Hq).
  reflexivity.
Qed.

Lemma durations_use_floor_division_witness :
  exists r,
    extract_route_details Scenario.healthy (Scenario.with_route (-1) (-3600) 0)
    = Ok r
    /\ getitem r "travel_time" = Ok (PStr "-1 hr 59 min 59 sec")
    /\ getitem r "traffic_delay" = Ok (PStr "-1 hr 0 min 0 sec").
Proof.
  eexists. split; [reflexivity |].
  destruct (durations_use_floor_division Scenario.healthy
              (Scenario.with_route (-1) (-3600) 0)
              (Scenario.summary (PInt 1200) (PInt (-1)) (PInt (-3600)) (PInt 0))
              _ (-1) (-3600) eq_refl eq_refl eq_refl eq_refl)
    as [H1 [H2 _]].
  split; [exact H1 | exact H2].
Defined.

(** ** Route detail extractor: the distance and the travel mode *)

Lemma thousandth_is_normal (m : Z) :
  0 < m -> (F64.B (F64.emin + 52) <= IZR m / IZR 1000)%R.
Proof.
  intros Hm. apply Rle_trans with (F64.B (- 10)).
  - apply B_le. unfold F64.emin. lia.
  - assert (1 <= IZR m)%R by (apply (IZR_le 1); lia).
    replace (F64.B (- 10)) with (/ 1024)%R by (simpl; lra).
    change (IZR 1000) with 1000%R. lra.
Qed.

(** X18. The distance is always a [float], also for a whole number of
    kilometres: for a length of [m] metres, a non-negative integer, it is
    the binary64 number nearest to [m / 1000], off by at most one part in
    [2^53]. *)
Theorem distance_km_is_the_nearest_float (P : platform) (data s r : pyval)
  (m : Z) :
  route_summary_of data = Ok s ->
  getitem s "lengthInMeters" = Ok (PInt m) ->
  0 <= m ->
  extract_route_details P data = Ok r ->
  exists mx ex,
    getitem r "distance_km" = Ok (PFloat (F64.Fin false mx ex))
    /\ F64.div_Z m 1000 = F64.Fin false mx ex
    /\ F64.canonical mx ex
    /\ (Rabs (F64.F2R mx ex - IZR m / 1000)
        <= F64.B (- 53) * (IZR m / 1000))%R.
Proof.
  intros Hs Hm Hm0 H.
  unfold extract_route_details in H.
  fold (route_summary_of data) in H. rewrite Hs in H.
  invert_run H.
  apply ok_inj in Hstep. subst a.
  rewrite Hm in Hstep2. apply ok_inj in Hstep2. subst a2.
  apply ok_inj in H. subst r.
  destruct (truediv_ints m 1000 _ Hstep3) as (sx & mx & ex & -> & Hq & Hc).
  destruct (Z.eq_dec m 0) as [-> | Hne].
  - vm_compute in Hq. inversion Hq; subst.
    exists 0, F64.emin. split; [reflexivity |]. split; [reflexivity |].
    split; [exact Hc |].
    unfold F64.F2R, Rdiv. rewrite !Rmult_0_l, Rminus_0_r, Rabs_R0, Rmult_0_r.
    lra.
  - assert (Hpos : 0 < m) by lia.
    rewrite div_Z_as_round in Hq by lia.
    destruct (round_error false m 1000 Hpos ltac:(lia)
                (thousandth_is_normal m Hpos))
      as [Hinf | (mq & eq & Hr & _ & Herr)].
    + rewrite Hq in Hinf. discriminate Hinf.
    + rewrite Hq in Hr. inversion Hr; subst.
      exists mq, eq. split; [reflexivity |].
      split; [rewrite div_Z_as_round by lia; exact Hq |].
      split; [exact Hc |].
      change (IZR 1000) with 1000%R in Herr.
      apply Rabs_le. lra.
Qed.

Lemma distance_km_is_the_nearest_float_witness :
  exists r,
    extract_route_details Scenario.healthy Scenario.traffic_data = Ok r
    /\ getitem r "distance_km" = Ok (PFloat (F64.div_Z 1200 1000))
    /\ Text.repr_float (F64.div_Z 1200 1000) = "1.2".
Proof.
  eexists. split; [reflexivity |].
  destruct (distance_km_is_the_nearest_float Scenario.healthy
              Scenario.traffic_data
              (Scenario.summary (PInt 1200) (PInt 600) (PInt 0) (PInt 1200))
              _ 1200 eq_refl eq_refl ltac:(lia) eq_refl)
    as (mx & ex & Hget & Hq & _).
  split; [rewrite Hq; exact Hget | vm_compute; reflexivity].
Defined.

Lemma upper_not_lower (c : ascii) : is_lower (upper c) = false.
Proof.
  destruct c as [[|] [|] [|] [|] [|] [|] [|] [|]]; reflexivity.
Qed.

Lemma lower_not_upper (c : ascii) : is_upper (lower c) = false.
Proof.
  destruct c as [[|] [|] [|] [|] [|] [|] [|] [|]]; reflexivity.
Qed.

Lemma upper_fixed (c : ascii) : is_lower c = false -> upper c = c.
Proof. unfold is_lower, upper. intros ->. reflexivity. Qed.

Lemma lower_fixed (c : ascii) : is_upper c = false -> lower c = c.
Proof. unfold is_upper, lower. intros ->. reflexivity. Qed.

Lemma upper_lower (c : ascii) : upper (lower c) = upper c.
Proof.
  destruct c as [[|] [|] [|] [|] [|] [|] [|] [|]]; reflexivity.
Qed.

Lemma lowered_has_no_upper (s : string) :
  forallb_string (fun c => negb (is_upper c)) (map_string lower s) = true.
Proof.
  induction s as [| c s IH]; simpl; [reflexivity |].
  rewrite lower_not_upper, IH. reflexivity.
Qed.

Lemma lowered_is_fixed (s : string) :
  map_string lower (map_string lower s) = map_string lower s.
Proof.
  induction s as [| c s IH]; simpl; [reflexivity |].
  rewrite IH, (lower_fixed (lower c)) by apply lower_not_upper. reflexivity.
Qed.

Lemma map_string_length (f : ascii -> ascii) (s : string) :
  String.length (map_string f s) = String.length s.
Proof. induction s as [| c s IH]; simpl; [reflexivity | rewrite IH; reflexivity]. Qed.

(** X19. The travel mode is put in one form whatever the case of its letters:
    the result has the length of the input, a first character that is not
    a lower-case letter and no upper-case letter after it; it is left as
    it is by a second capitalisation, and two spellings that differ in
    case only give the same result. (Strings of ASCII characters.) *)
Theorem travel_mode_is_normalised (P : platform) (data r : pyval)
  (mode : string) :
  travel_mode_of data = Ok (PStr mode) ->
  extract_route_details P data = Ok r ->
  exists text,
    getitem r "travel_mode" = Ok (PStr text)
    /\ capitalize (PStr mode) = Ok text
    /\ String.length text = String.length mode
    /\ match text with
       | "" => mode = ""
       | String c rest =>
           is_lower c = false
           /\ forallb_string (fun c => negb (is_upper c)) rest = true
       end
    /\ capitalize (PStr text) = Ok text
    /\ (forall other,
          map_string lower other = map_string lower mode ->
          capitalize (PStr other) = Ok text).
Proof.
  intros Hmode H.
  unfold extract_route_details in H.
  invert_run H.
  unfold travel_mode_of in Hmode. rewrite Hmode in Hstep0.
  apply ok_inj in Hstep0. subst a0.
  apply ok_inj in H. subst r.
  exists a1. split; [reflexivity |]. split; [exact Hstep1 |].
  destruct mode as [| c rest]; simpl in Hstep1; apply ok_inj in Hstep1;
    subst a1.
  - split; [reflexivity |]. split; [reflexivity |]. split; [reflexivity |].
    intros other Ho. destruct other; [reflexivity | discriminate Ho].
  - split; [simpl; rewrite map_string_length; reflexivity |].
    split; [split; [apply upper_not_lower | apply lowered_has_no_upper] |].
    split.
    + simpl. rewrite (upper_fixed (upper c)) by apply upper_not_lower.
      rewrite lowered_is_fixed. reflexivity.
    + intros other Ho. destruct other as [| c' rest']; [discriminate Ho |].
      simpl in Ho. inversion Ho as [[Hc Hrest]]. simpl.
      rewrite Hrest, <- (upper_lower c'), Hc, upper_lower. reflexivity.
Qed.

Lemma travel_mode_is_normalised_witness :
  exists r,
    extract_route_details Scenario.healthy Scenario.traffic_data = Ok r
    /\ getitem r "travel_mode" = Ok (PStr "Car")
    /\ capitalize (PStr "CAR") = Ok "Car".
Proof.
  eexists. split; [reflexivity |].
  destruct (travel_mode_is_normalised Scenario.healthy Scenario.traffic_data
              _ "car" eq_refl eq_refl)
    as (text & Hget & Hcap & _ & _ & _ & Hother).
  vm_compute in Hcap. apply ok_inj in Hcap. subst text.
  split; [exact Hget | apply Hother; reflexivity].
Defined.

(** ** Notifier on its own *)

(** X20. Called with three dicts, whatever their keys, the notifier publishes
    exactly one message and does not fail before the call: a key that is
    missing shows as N/A. It writes its INFO record only when the service
    accepted the message, and otherwise raises the exception of the
    service unchanged; the records before the call are kept. *)
Theorem notifier_runs (P : platform) (from_location to_location email : pyval)
  (c a r : list (string * pyval)) (t : trace) :
  let message :=
    "__Traffic Alert:__" ++ nl ++ nl
    ++ "Route: " ++ str from_location ++ " to " ++ str to_location ++ nl ++ nl
    ++ "Congestion Level: " ++ shown c "congestion_level"
    ++ " (" ++ shown c "congestion_category" ++ ")" ++ nl ++ nl
    ++ "Road Accidents: " ++ shown a "road_accidents" ++ nl ++ nl
    ++ "Route Details:" ++ nl
    ++ "Distance: " ++ shown r "distance_km" ++ " km" ++ nl
    ++ "Travel Time: " ++ shown r "travel_time" ++ " " ++ nl
    ++ "Traffic Delay: " ++ shown r "traffic_delay" ++ " " ++ nl
    ++ "Traffic Length: " ++ shown r "traffic_length" ++ nl
    ++ "Departure Time: " ++ shown r "departure_time" ++ nl
    ++ "Arrival Time: " ++ shown r "arrival_time" ++ nl
    ++ "Travel Mode: " ++ shown r "travel_mode" in
  let request := alert_request message email in
  send_sns_alert P from_location to_location email (PDict c) (PDict a)
    (PDict r) t
  = match publish P request with
    | None =>
        (Ok tt,
         (t ++ [Published request None; Logged "INFO" "SNS alert sent"])%list)
    | Some e => (Err e, (t ++ [Published request (Some e)])%list)
    end.
Proof.
  intros message request. subst request message.
  unfold send_sns_alert, alert_message, dict_get, shown, call, logger_info,
    bindM, lift, emit, ret.
  cbn [bind].
  destruct (publish P _) as [e |]; [reflexivity |].
  rewrite <- app_assoc. reflexivity.
Qed.

(** X21. Called with a value that is not a dict in the place of a derived
    record, the notifier raises [AttributeError] and publishes nothing. *)
Theorem notifier_needs_dicts (P : platform)
  (from_location to_location email c a r : pyval) (t : trace) :
  (forall d, c <> PDict d) \/ (forall d, a <> PDict d)
  \/ (forall d, r <> PDict d) ->
  exists e,
    send_sns_alert P from_location to_location email c a r t = (Err e, t)
    /\ exn_cls e = AttributeError.
Proof.
  intros H.
  unfold send_sns_alert, alert_message, bindM, lift.
  assert (Hget : forall v k dflt,
             (forall d, v <> PDict d) ->
             exists e, dict_get v k dflt = Err e
                       /\ exn_cls e = AttributeError).
  { intros v k dflt Hv. destruct v; simpl; try (eexists; split; reflexivity).
    contradiction (Hv d). reflexivity. }
  assert (Hok : forall v k dflt,
             (exists x, dict_get v k dflt = Ok x)
             \/ (exists e, dict_get v k dflt = Err e
                           /\ exn_cls e = AttributeError)).
  { intros v k dflt. destruct v; simpl;
      try (right; eexists; split; reflexivity).
    left. eexists. reflexivity. }
  destruct (Hok c "congestion_level" (PStr "N/A")) as [[x1 E1] | [e [E1 He]]].
  2: { rewrite E1. exists e. split; [reflexivity | exact He]. }
  assert (Hc : exists d, c = PDict d).
  { destruct c; simpl in E1; try discriminate E1. eexists. reflexivity. }
  destruct Hc as [dc ->].
  destruct (Hok a "road_accidents" (PStr "N/A")) as [[x2 E2] | [e [E2 He]]].
  2: { unfold dict_get at 1 2. cbn [bind]. rewrite E2.
       exists e. split; [reflexivity | exact He]. }
  assert (Ha : exists d, a = PDict d).
  { destruct a; simpl in E2; try discriminate E2. eexists. reflexivity. }
  destruct Ha as [da ->].
  destruct H as [H | [H | H]];
    [contradiction (H dc); reflexivity | contradiction (H da); reflexivity |].
  destruct (Hget r "distance_km" (PStr "N/A") H) as [e [E3 He]].
  unfold dict_get at 1 2 3. cbn [bind]. rewrite E3.
  exists e. split; [reflexivity | exact He].
Qed.

Lemma notifier_needs_dicts_witness :
  exists e,
    send_sns_alert Scenario.healthy (PStr "A") (PStr "B") PNone PNone
      (PDict []) (PDict []) []
    = (Err e, [])
    /\ exn_cls e = AttributeError.
Proof.
  apply (notifier_needs_dicts Scenario.healthy (PStr "A") (PStr "B") PNone
           PNone (PDict []) (PDict []) []).
  left. intros d. discriminate.
Defined.

(** ** [get_secret] *)

Lemma every_class_is_an_exception (c : exn_class) :
  issubclass c Exception = true.
Proof. destruct c; reflexivity. Qed.

(** X22. [get_secret] returns the parsed secret without a log record when the
    three steps succeed; when any of them raises (the call to the secrets
    manager, the lookup of [SecretString], the parser) it writes one ERROR
    record that names the secret and the exception, and raises the same
    exception again: a failure is never turned into a value. A secret
    stored as binary has no [SecretString] and is a [KeyError]. *)
Theorem get_secret_logs_and_raises
  (get_secret_value : string -> result pyval)
  (json_loads : pyval -> result pyval) (secret_name : string) (t : trace) :
  get_secret get_secret_value json_loads secret_name t
  = match (response <- get_secret_value secret_name ;;
           secret_string <- getitem response "SecretString" ;;
           json_loads secret_string) with
    | Ok secret => (Ok secret, t)
    | Err e =>
        (Err e,
         (t ++ [Logged "ERROR"
                  ("Error retrieving secret " ++ secret_name ++ ": "
                   ++ str_exn e)])%list)
    end
  /\ (forall response,
        get_secret_value secret_name = Ok (PDict response) ->
        lookup "SecretString" response = None ->
        get_secret get_secret_value json_loads secret_name t
        = (Err (Raise KeyError "SecretString"),
           (t ++ [Logged "ERROR"
                    ("Error retrieving secret " ++ secret_name
                     ++ ": 'SecretString'")])%list)).
Proof.
  assert (Hcatch : forall e,
             handle [(Exception, fun e : exn =>
                        logger_error ("Error retrieving secret " ++ secret_name
                                      ++ ": " ++ str_exn e) ;;;
                        lift (@Err pyval e))] e t
             = (Err e,
                (t ++ [Logged "ERROR"
                         ("Error retrieving secret " ++ secret_name ++ ": "
                          ++ str_exn e)])%list)).
  { intros e. unfold handle, isinstance.
    rewrite every_class_is_an_exception. reflexivity. }
  assert (Hrun :
            get_secret get_secret_value json_loads secret_name t
            = match (response <- get_secret_value secret_name ;;
                     secret_string <- getitem response "SecretString" ;;
                     json_loads secret_string) with
              | Ok secret => (Ok secret, t)
              | Err e =>
                  (Err e,
                   (t ++ [Logged "ERROR"
                            ("Error retrieving secret " ++ secret_name ++ ": "
                             ++ str_exn e)])%list)
              end).
  { unfold get_secret, try_except, bindM, lift, ret.
    destruct (get_secret_value secret_name) as [response | e]; cbn [bind];
      [| apply Hcatch].
    destruct (getitem response "SecretString") as [s | e]; cbn [bind];
      [| apply Hcatch].
    destruct (json_loads s) as [secret | e]; [reflexivity | apply Hcatch]. }
  split; [exact Hrun |].
  intros response Hr Hk. rewrite Hrun, Hr. cbn [bind getitem].
  rewrite Hk. reflexivity.
Qed.

(** ** The shape of the derived records *)

(** X23. A congestion record has exactly the level, a text ending in a percent
    sign, and one of the three categories; a route record has exactly
    seven fields in a fixed order, a [float] for the distance and texts
    for the rest. *)
Theorem derived_records_shape (P : platform) (data : pyval) :
  (forall c,
     calculate_congestion_level data = Ok c ->
     exists level category,
       c = PDict [("congestion_level", PStr (level ++ "%"));
                  ("congestion_category", PStr category)]
       /\ In category ["Low"; "Moderate"; "High"])
  /\ (forall r,
        extract_route_details P data = Ok r ->
        exists distance travel_time traffic_delay traffic_length
               departure_time arrival_time travel_mode,
          r = PDict [("distance_km", PFloat distance);
                     ("travel_time", PStr travel_time);
                     ("traffic_delay", PStr traffic_delay);
                     ("traffic_length", PStr traffic_length);
                     ("departure_time", PStr departure_time);
                     ("arrival_time", PStr arrival_time);
                     ("travel_mode", PStr travel_mode)]).
Proof.
  split.
  - intros c H. unfold calculate_congestion_level in H. invert_run H.
    apply ok_inj in H. subst c. eexists _, _. split; [reflexivity |].
    match goal with
    | Hcat : (if ?b then _ else _) = Ok ?cat |- In ?cat _ =>
        destruct b; [apply ok_inj in Hcat; subst; simpl; auto |];
        invert_run Hcat; apply ok_inj in Hcat; subst;
        match goal with
        | |- In (if ?b' then _ else _) _ => destruct b'; simpl; auto
        end
    end.
  - intros r H. unfold extract_route_details in H. invert_run H.
    apply ok_inj in H. subst r.
    match goal with
    | Hdiv : truediv _ (PInt 1000) = Ok ?km |- context [("distance_km", ?km)] =>
        destruct (truediv_float _ _ _ Hdiv) as [x ->]
    end.
    eexists _, _, _, _, _, _, _. reflexivity.
Qed.

(** ** The upstream call *)

(** X24. The upstream call gives traffic data exactly when [requests] raised
    nothing, the status is below 400 or from 600 and the body is JSON:
    a redirect or an informational status with a JSON body is taken for
    data; an answer without a JSON body, such as a 204, is a failure. *)
Theorem fetch_accepts (P : platform) (request : post_request) :
  (forall v,
     fetch P request = Ok v
     <-> exists status,
           requests_post P request = Response status (Some v)
           /\ (status < 400 \/ 600 <= status))
  /\ (forall status,
        requests_post P request = Response status None ->
        exists e, fetch P request = Err e
                  /\ isinstance e RequestException = true).
Proof.
  unfold fetch, raise_for_status, response_json. split.
  - intros v. split.
    + destruct (requests_post P request) as [status body | e];
        [| discriminate].
      destruct ((400 <=? status) && (status <? 600)) eqn:Hs;
        [discriminate |].
      cbn [bind]. destruct body as [v' |]; [| discriminate].
      intros H. inversion H; subst. exists status. split; [reflexivity |].
      apply andb_false_iff in Hs. destruct Hs as [Hs | Hs].
      * apply Z.leb_gt in Hs. left. exact Hs.
      * apply Z.ltb_ge in Hs. right. exact Hs.
    + intros (status & -> & Hs).
      replace ((400 <=? status) && (status <? 600)) with false; [reflexivity |].
      symmetry. apply andb_false_iff.
      destruct Hs as [Hs | Hs];
        [left; apply Z.leb_gt; exact Hs | right; apply Z.ltb_ge; exact Hs].
  - intros status ->.
    destruct ((400 <=? status) && (status <? 600)); eexists;
      (split; [reflexivity | reflexivity]).
Qed.

(** ** [get_secret] at work *)

Example get_secret_of_a_text_secret :
  get_secret Cases.secrets Cases.loads "traffic-monitoring-secrets" []
  = (Ok (PDict []), []).
Proof. reflexivity. Qed.

Example get_secret_of_a_missing_secret :
  get_secret Cases.secrets Cases.loads "other" []
  = (Err (Raise ClientError "ResourceNotFoundException"),
     [Logged "ERROR"
        "Error retrieving secret other: ResourceNotFoundException"]).
Proof. reflexivity. Qed.
